(** * Collaborative session layer of the pair-programming front end

    A shallow embedding of
    - [frontend/src/services/websocket.ts]  (class [WebSocketService]) and
    - [frontend/src/components/CodeEditor.tsx] (component [CodeEditor])
    together with the part of the browser they run against: the event
    loop clock and its timers, [WebSocket] objects, the console, the
    editor widget and [fetch]; and, on a record of their own, of
    - [frontend/src/components/RoomManager.tsx] and [frontend/src/App.tsx],
      the page outside a session.

    Everything the TypeScript keeps in objects, refs and closures lives in
    one record, [World]; every function of the source is a function on
    worlds.  Closures handed to the browser ([setTimeout] callbacks, socket
    handlers) are represented by constructors that record what the closure
    captured, and are interpreted by [run_timer_action] and [step].

    What is assumed of the browser and of the libraries:
    - time is counted in milliseconds; a timer fires in the millisecond it
      is due, timers due together fire in the order they were armed;
    - [ws.close()] on an open or connecting socket is followed, later, by
      the close event of that socket; a socket that fails or is closed by
      the peer gets the same event; frames are delivered to open sockets;
    - the [data] of a message event is represented by what [JSON.parse]
      makes of it, or by the fact that it does not parse;
    - [editor.setValue] runs the content listeners before it returns, and
      throws when given something that is not a string;
    - a React state setter stores the value at once and asks for a
      re-render only if the value differs from the current state;
    - the editor widget never gives the same identifier to two
      decorations;
    - payload numbers are integers and user identifiers are ASCII.
    Left out, being rendering only: the JSX, the style element injected
    per remote user, and the inline-completion provider, which returns no
    items. *)

From stdpp Require Import base numbers list strings gmap.

Local Open Scope string_scope.
Local Open Scope list_scope.
Local Open Scope Z_scope.

(** ** JavaScript values *)

Module Js.

(** What [JSON.parse] can return, plus [undefined].  Numbers are kept as
    integers; none of the modelled code computes with a payload number.
    The fields of an object hold each key once. *)
#[warnings="-register-all"]
Inductive jsval : Type :=
| JUndefined
| JNull
| JBool (b : bool)
| JNum (n : Z)
| JStr (s : string)
| JObj (fields : list (string * jsval)).

(** The completion of a statement: normal, or a thrown exception. *)
Inductive Completion (A : Type) : Type :=
| Normal (a : A)
| Throw.
Arguments Normal {A} a.
Arguments Throw {A}.

Fixpoint assoc (k : string) (fs : list (string * jsval)) : option jsval :=
  match fs with
  | [] => None
  | (k', v) :: rest => if String.eqb k k' then Some v else assoc k rest
  end.

(** [v.k] : a [TypeError] on [undefined] and [null], [undefined] for a
    property that is not there. *)
Definition get_prop (v : jsval) (k : string) : Completion jsval :=
  match v with
  | JUndefined | JNull => Throw
  | JObj fs => Normal (default JUndefined (assoc k fs))
  | JBool _ | JNum _ | JStr _ => Normal JUndefined
  end.

Definition truthy (v : jsval) : bool :=
  match v with
  | JUndefined | JNull => false
  | JBool b => b
  | JNum n => negb (Z.eqb n 0)
  | JStr s => negb (String.eqb s "")
  | JObj _ => true
  end.

(** [v === s] for a string [s]. *)
Definition strict_eq_str (v : jsval) (s : string) : bool :=
  match v with
  | JStr s' => String.eqb s' s
  | _ => false
  end.

(** [Object.is] between a stored value and a freshly parsed one: primitives
    compare by value, and a freshly parsed object is identical to nothing
    that existed before. *)
Definition same_value (a b : jsval) : bool :=
  match a, b with
  | JUndefined, JUndefined => true
  | JNull, JNull => true
  | JBool x, JBool y => Bool.eqb x y
  | JNum x, JNum y => Z.eqb x y
  | JStr x, JStr y => String.eqb x y
  | _, _ => false
  end.

(** [a || b] *)
Definition js_or (a b : jsval) : jsval := if truthy a then a else b.

End Js.
Export Js.

(** ** The objects of the program *)

(** [WebSocket.readyState] *)
Inductive ReadyState := CONNECTING | OPEN | CLOSING | CLOSED.
#[global] Instance ReadyState_eq_dec : EqDecision ReadyState.
Proof. solve_decision. Defined.

(** The two closures [initializeWebSocket] passes to the service
    (CodeEditor.tsx, the arguments of [onMessage] and of [onClose]). *)
Inductive MessageCallback := EditorMessage.
Inductive CloseCallback := EditorClose.

(** What [ws.onclose] holds: the handler installed by [connect], or the one
    installed by [onClose], which wraps the caller's callback. *)
Inductive CloseHandler :=
| CloseDefault
| CloseWith (callback : CloseCallback).

(** A [WebSocket] object.  [sock_owner] is the [this] its handlers
    captured: the service whose [connect] constructed it.  [onmessage] is
    [None] until somebody assigns it. *)
Record Socket := mkSocket {
  sock_owner : nat;
  readyState : ReadyState;
  onmessage : option MessageCallback;
  onclose : CloseHandler
}.

(** A [WebSocketService] instance. *)
Record Service := mkService {
  roomId : string;
  ws : option nat;
  reconnectAttempts : Z;
  maxReconnectAttempts : Z;
  reconnectDelay : Z
}.

(** A Monaco position. *)
Record Position := mkPosition { lineNumber : Z; column : Z }.
#[global] Instance Position_eq_dec : EqDecision Position.
Proof. solve_decision. Defined.

(** The closures given to [setTimeout], with what they captured. *)
Inductive TimerAction :=
| ServiceConnect (svc : nat)
| EditorReconnect
| CursorSend (line col : Z)
| SuggestionFetch (code : string) (position : Position).

#[global] Instance TimerAction_eq_dec : EqDecision TimerAction.
Proof. solve_decision. Defined.

Record Timer := mkTimer { timer_id : nat; timer_due : Z; timer_action : TimerAction }.
#[global] Instance Timer_eq_dec : EqDecision Timer.
Proof. solve_decision. Defined.

(** An outbound envelope, as given to [JSON.stringify]. *)
Record Envelope := mkEnvelope { env_type : string; env_data : jsval }.

Inductive Level := LogInfo | LogWarn | LogError.
Record LogEntry := mkLog { log_level : Level; log_text : string }.

(** A [fetch] to the suggestion backend.  Each call of
    [fetchAISuggestions] makes one [AbortController] and one request, so a
    controller is named by the index of its request.  [Cancelled]: the
    controller was aborted and the rejection has not been delivered yet. *)
Inductive RequestStatus := InFlight | Cancelled | Finished.
#[global] Instance RequestStatus_eq_dec : EqDecision RequestStatus.
Proof. solve_decision. Defined.
Record Request := mkRequest {
  req_started : Z;
  req_code : string;
  req_position : Position;
  req_status : RequestStatus
}.

Record Decoration := mkDecoration {
  dec_id : nat;
  dec_line : jsval;
  dec_column : jsval;
  dec_user : string;
  dec_label : jsval
}.

(** The editor widget behind [editorRef]: its buffer, its cursor, the
    decorations painted on it, and how many times [setValue] wrote the
    buffer. *)
Record Editor := mkEditor {
  value : string;
  position : option Position;
  decorations : list Decoration;
  next_decoration : nat;
  setValue_calls : nat
}.

Record RemoteUser := mkRemoteUser {
  userId : string;
  userName : jsval;
  user_position : jsval;
  color : string;
  user_decorations : list nat
}.

(** The whole state: the browser side first, then the service objects,
    then the [CodeEditor] instance (props, React state, refs). *)
Record World := mkWorld {
  now : Z;  (* the event-loop clock, in milliseconds *)
  next_timer : nat;  (* the handle the next setTimeout returns *)
  timers : list Timer;  (* armed timers, oldest first *)
  sockets : list Socket;  (* every WebSocket made so far, named by index *)
  sent : list (nat * Envelope);  (* frames given to ws.send, with the socket *)
  console : list LogEntry;  (* console output, oldest first *)
  requests : list Request;  (* every suggestion fetch started so far *)
  services : list Service;  (* every WebSocketService made so far *)
  prop_roomId : string;  (* the roomId prop *)
  code : jsval;  (* useState code *)
  connected : bool;  (* useState connected *)
  userCount : jsval;  (* useState userCount *)
  isReconnecting : bool;  (* useState isReconnecting *)
  aiLoading : bool;  (* useState aiLoading *)
  renders : nat;  (* re-renders requested by state setters *)
  editorRef : option Editor;  (* editorRef.current (monacoRef too) *)
  wsService : option nat;  (* wsService.current *)
  remoteUsers : gmap string RemoteUser;  (* remoteUsers.current *)
  isRemoteChange : bool;  (* isRemoteChange.current *)
  reconnectTimeout : Z;  (* reconnectTimeout.current *)
  reconnectTimer : option nat;  (* reconnectTimer.current *)
  cursorUpdateThrottle : option nat;  (* cursorUpdateThrottle.current *)
  aiRequestController : option nat;  (* aiRequestController.current *)
  aiDebounceTimer : option nat  (* aiDebounceTimer.current *)
}.

(** Field updates. *)
Definition set_now (x : Z) (w : World) : World :=
  mkWorld x (w.(next_timer)) (w.(timers)) (w.(sockets)) (w.(sent))
    (w.(console)) (w.(requests)) (w.(services)) (w.(prop_roomId)) (w.(code))
    (w.(connected)) (w.(userCount)) (w.(isReconnecting)) (w.(aiLoading))
    (w.(renders)) (w.(editorRef)) (w.(wsService)) (w.(remoteUsers))
    (w.(isRemoteChange)) (w.(reconnectTimeout)) (w.(reconnectTimer))
    (w.(cursorUpdateThrottle)) (w.(aiRequestController))
    (w.(aiDebounceTimer)).
Definition set_next_timer (x : nat) (w : World) : World :=
  mkWorld (w.(now)) x (w.(timers)) (w.(sockets)) (w.(sent)) (w.(console))
    (w.(requests)) (w.(services)) (w.(prop_roomId)) (w.(code))
    (w.(connected)) (w.(userCount)) (w.(isReconnecting)) (w.(aiLoading))
    (w.(renders)) (w.(editorRef)) (w.(wsService)) (w.(remoteUsers))
    (w.(isRemoteChange)) (w.(reconnectTimeout)) (w.(reconnectTimer))
    (w.(cursorUpdateThrottle)) (w.(aiRequestController))
    (w.(aiDebounceTimer)).
Definition set_timers (x : list Timer) (w : World) : World :=
  mkWorld (w.(now)) (w.(next_timer)) x (w.(sockets)) (w.(sent)) (w.(console))
    (w.(requests)) (w.(services)) (w.(prop_roomId)) (w.(code))
    (w.(connected)) (w.(userCount)) (w.(isReconnecting)) (w.(aiLoading))
    (w.(renders)) (w.(editorRef)) (w.(wsService)) (w.(remoteUsers))
    (w.(isRemoteChange)) (w.(reconnectTimeout)) (w.(reconnectTimer))
    (w.(cursorUpdateThrottle)) (w.(aiRequestController))
    (w.(aiDebounceTimer)).
Definition set_sockets (x : list Socket) (w : World) : World :=
  mkWorld (w.(now)) (w.(next_timer)) (w.(timers)) x (w.(sent)) (w.(console))
    (w.(requests)) (w.(services)) (w.(prop_roomId)) (w.(code))
    (w.(connected)) (w.(userCount)) (w.(isReconnecting)) (w.(aiLoading))
    (w.(renders)) (w.(editorRef)) (w.(wsService)) (w.(remoteUsers))
    (w.(isRemoteChange)) (w.(reconnectTimeout)) (w.(reconnectTimer))
    (w.(cursorUpdateThrottle)) (w.(aiRequestController))
    (w.(aiDebounceTimer)).
Definition set_sent (x : list (nat * Envelope)) (w : World) : World :=
  mkWorld (w.(now)) (w.(next_timer)) (w.(timers)) (w.(sockets)) x
    (w.(console)) (w.(requests)) (w.(services)) (w.(prop_roomId)) (w.(code))
    (w.(connected)) (w.(userCount)) (w.(isReconnecting)) (w.(aiLoading))
    (w.(renders)) (w.(editorRef)) (w.(wsService)) (w.(remoteUsers))
    (w.(isRemoteChange)) (w.(reconnectTimeout)) (w.(reconnectTimer))
    (w.(cursorUpdateThrottle)) (w.(aiRequestController))
    (w.(aiDebounceTimer)).
Definition set_console (x : list LogEntry) (w : World) : World :=
  mkWorld (w.(now)) (w.(next_timer)) (w.(timers)) (w.(sockets)) (w.(sent)) x
    (w.(requests)) (w.(services)) (w.(prop_roomId)) (w.(code))
    (w.(connected)) (w.(userCount)) (w.(isReconnecting)) (w.(aiLoading))
    (w.(renders)) (w.(editorRef)) (w.(wsService)) (w.(remoteUsers))
    (w.(isRemoteChange)) (w.(reconnectTimeout)) (w.(reconnectTimer))
    (w.(cursorUpdateThrottle)) (w.(aiRequestController))
    (w.(aiDebounceTimer)).
Definition set_requests (x : list Request) (w : World) : World :=
  mkWorld (w.(now)) (w.(next_timer)) (w.(timers)) (w.(sockets)) (w.(sent))
    (w.(console)) x (w.(services)) (w.(prop_roomId)) (w.(code))
    (w.(connected)) (w.(userCount)) (w.(isReconnecting)) (w.(aiLoading))
    (w.(renders)) (w.(editorRef)) (w.(wsService)) (w.(remoteUsers))
    (w.(isRemoteChange)) (w.(reconnectTimeout)) (w.(reconnectTimer))
    (w.(cursorUpdateThrottle)) (w.(aiRequestController))
    (w.(aiDebounceTimer)).
Definition set_services (x : list Service) (w : World) : World :=
  mkWorld (w.(now)) (w.(next_timer)) (w.(timers)) (w.(sockets)) (w.(sent))
    (w.(console)) (w.(requests)) x (w.(prop_roomId)) (w.(code))
    (w.(connected)) (w.(userCount)) (w.(isReconnecting)) (w.(aiLoading))
    (w.(renders)) (w.(editorRef)) (w.(wsService)) (w.(remoteUsers))
    (w.(isRemoteChange)) (w.(reconnectTimeout)) (w.(reconnectTimer))
    (w.(cursorUpdateThrottle)) (w.(aiRequestController))
    (w.(aiDebounceTimer)).
Definition set_prop_roomId (x : string) (w : World) : World :=
  mkWorld (w.(now)) (w.(next_timer)) (w.(timers)) (w.(sockets)) (w.(sent))
    (w.(console)) (w.(requests)) (w.(services)) x (w.(code)) (w.(connected))
    (w.(userCount)) (w.(isReconnecting)) (w.(aiLoading)) (w.(renders))
    (w.(editorRef)) (w.(wsService)) (w.(remoteUsers)) (w.(isRemoteChange))
    (w.(reconnectTimeout)) (w.(reconnectTimer)) (w.(cursorUpdateThrottle))
    (w.(aiRequestController)) (w.(aiDebounceTimer)).
Definition set_code (x : jsval) (w : World) : World :=
  mkWorld (w.(now)) (w.(next_timer)) (w.(timers)) (w.(sockets)) (w.(sent))
    (w.(console)) (w.(requests)) (w.(services)) (w.(prop_roomId)) x
    (w.(connected)) (w.(userCount)) (w.(isReconnecting)) (w.(aiLoading))
    (w.(renders)) (w.(editorRef)) (w.(wsService)) (w.(remoteUsers))
    (w.(isRemoteChange)) (w.(reconnectTimeout)) (w.(reconnectTimer))
    (w.(cursorUpdateThrottle)) (w.(aiRequestController))
    (w.(aiDebounceTimer)).
Definition set_connected (x : bool) (w : World) : World :=
  mkWorld (w.(now)) (w.(next_timer)) (w.(timers)) (w.(sockets)) (w.(sent))
    (w.(console)) (w.(requests)) (w.(services)) (w.(prop_roomId)) (w.(code))
    x (w.(userCount)) (w.(isReconnecting)) (w.(aiLoading)) (w.(renders))
    (w.(editorRef)) (w.(wsService)) (w.(remoteUsers)) (w.(isRemoteChange))
    (w.(reconnectTimeout)) (w.(reconnectTimer)) (w.(cursorUpdateThrottle))
    (w.(aiRequestController)) (w.(aiDebounceTimer)).
Definition set_userCount (x : jsval) (w : World) : World :=
  mkWorld (w.(now)) (w.(next_timer)) (w.(timers)) (w.(sockets)) (w.(sent))
    (w.(console)) (w.(requests)) (w.(services)) (w.(prop_roomId)) (w.(code))
    (w.(connected)) x (w.(isReconnecting)) (w.(aiLoading)) (w.(renders))
    (w.(editorRef)) (w.(wsService)) (w.(remoteUsers)) (w.(isRemoteChange))
    (w.(reconnectTimeout)) (w.(reconnectTimer)) (w.(cursorUpdateThrottle))
    (w.(aiRequestController)) (w.(aiDebounceTimer)).
Definition set_isReconnecting (x : bool) (w : World) : World :=
  mkWorld (w.(now)) (w.(next_timer)) (w.(timers)) (w.(sockets)) (w.(sent))
    (w.(console)) (w.(requests)) (w.(services)) (w.(prop_roomId)) (w.(code))
    (w.(connected)) (w.(userCount)) x (w.(aiLoading)) (w.(renders))
    (w.(editorRef)) (w.(wsService)) (w.(remoteUsers)) (w.(isRemoteChange))
    (w.(reconnectTimeout)) (w.(reconnectTimer)) (w.(cursorUpdateThrottle))
    (w.(aiRequestController)) (w.(aiDebounceTimer)).
Definition set_aiLoading (x : bool) (w : World) : World :=
  mkWorld (w.(now)) (w.(next_timer)) (w.(timers)) (w.(sockets)) (w.(sent))
    (w.(console)) (w.(requests)) (w.(services)) (w.(prop_roomId)) (w.(code))
    (w.(connected)) (w.(userCount)) (w.(isReconnecting)) x (w.(renders))
    (w.(editorRef)) (w.(wsService)) (w.(remoteUsers)) (w.(isRemoteChange))
    (w.(reconnectTimeout)) (w.(reconnectTimer)) (w.(cursorUpdateThrottle))
    (w.(aiRequestController)) (w.(aiDebounceTimer)).
Definition set_renders (x : nat) (w : World) : World :=
  mkWorld (w.(now)) (w.(next_timer)) (w.(timers)) (w.(sockets)) (w.(sent))
    (w.(console)) (w.(requests)) (w.(services)) (w.(prop_roomId)) (w.(code))
    (w.(connected)) (w.(userCount)) (w.(isReconnecting)) (w.(aiLoading)) x
    (w.(editorRef)) (w.(wsService)) (w.(remoteUsers)) (w.(isRemoteChange))
    (w.(reconnectTimeout)) (w.(reconnectTimer)) (w.(cursorUpdateThrottle))
    (w.(aiRequestController)) (w.(aiDebounceTimer)).
Definition set_editorRef (x : option Editor) (w : World) : World :=
  mkWorld (w.(now)) (w.(next_timer)) (w.(timers)) (w.(sockets)) (w.(sent))
    (w.(console)) (w.(requests)) (w.(services)) (w.(prop_roomId)) (w.(code))
    (w.(connected)) (w.(userCount)) (w.(isReconnecting)) (w.(aiLoading))
    (w.(renders)) x (w.(wsService)) (w.(remoteUsers)) (w.(isRemoteChange))
    (w.(reconnectTimeout)) (w.(reconnectTimer)) (w.(cursorUpdateThrottle))
    (w.(aiRequestController)) (w.(aiDebounceTimer)).
Definition set_wsService (x : option nat) (w : World) : World :=
  mkWorld (w.(now)) (w.(next_timer)) (w.(timers)) (w.(sockets)) (w.(sent))
    (w.(console)) (w.(requests)) (w.(services)) (w.(prop_roomId)) (w.(code))
    (w.(connected)) (w.(userCount)) (w.(isReconnecting)) (w.(aiLoading))
    (w.(renders)) (w.(editorRef)) x (w.(remoteUsers)) (w.(isRemoteChange))
    (w.(reconnectTimeout)) (w.(reconnectTimer)) (w.(cursorUpdateThrottle))
    (w.(aiRequestController)) (w.(aiDebounceTimer)).
Definition set_remoteUsers (x : gmap string RemoteUser) (w : World) : World :=
  mkWorld (w.(now)) (w.(next_timer)) (w.(timers)) (w.(sockets)) (w.(sent))
    (w.(console)) (w.(requests)) (w.(services)) (w.(prop_roomId)) (w.(code))
    (w.(connected)) (w.(userCount)) (w.(isReconnecting)) (w.(aiLoading))
    (w.(renders)) (w.(editorRef)) (w.(wsService)) x (w.(isRemoteChange))
    (w.(reconnectTimeout)) (w.(reconnectTimer)) (w.(cursorUpdateThrottle))
    (w.(aiRequestController)) (w.(aiDebounceTimer)).
Definition set_isRemoteChange (x : bool) (w : World) : World :=
  mkWorld (w.(now)) (w.(next_timer)) (w.(timers)) (w.(sockets)) (w.(sent))
    (w.(console)) (w.(requests)) (w.(services)) (w.(prop_roomId)) (w.(code))
    (w.(connected)) (w.(userCount)) (w.(isReconnecting)) (w.(aiLoading))
    (w.(renders)) (w.(editorRef)) (w.(wsService)) (w.(remoteUsers)) x
    (w.(reconnectTimeout)) (w.(reconnectTimer)) (w.(cursorUpdateThrottle))
    (w.(aiRequestController)) (w.(aiDebounceTimer)).
Definition set_reconnectTimeout (x : Z) (w : World) : World :=
  mkWorld (w.(now)) (w.(next_timer)) (w.(timers)) (w.(sockets)) (w.(sent))
    (w.(console)) (w.(requests)) (w.(services)) (w.(prop_roomId)) (w.(code))
    (w.(connected)) (w.(userCount)) (w.(isReconnecting)) (w.(aiLoading))
    (w.(renders)) (w.(editorRef)) (w.(wsService)) (w.(remoteUsers))
    (w.(isRemoteChange)) x (w.(reconnectTimer)) (w.(cursorUpdateThrottle))
    (w.(aiRequestController)) (w.(aiDebounceTimer)).
Definition set_reconnectTimer (x : option nat) (w : World) : World :=
  mkWorld (w.(now)) (w.(next_timer)) (w.(timers)) (w.(sockets)) (w.(sent))
    (w.(console)) (w.(requests)) (w.(services)) (w.(prop_roomId)) (w.(code))
    (w.(connected)) (w.(userCount)) (w.(isReconnecting)) (w.(aiLoading))
    (w.(renders)) (w.(editorRef)) (w.(wsService)) (w.(remoteUsers))
    (w.(isRemoteChange)) (w.(reconnectTimeout)) x (w.(cursorUpdateThrottle))
    (w.(aiRequestController)) (w.(aiDebounceTimer)).
Definition set_cursorUpdateThrottle (x : option nat) (w : World) : World :=
  mkWorld (w.(now)) (w.(next_timer)) (w.(timers)) (w.(sockets)) (w.(sent))
    (w.(console)) (w.(requests)) (w.(services)) (w.(prop_roomId)) (w.(code))
    (w.(connected)) (w.(userCount)) (w.(isReconnecting)) (w.(aiLoading))
    (w.(renders)) (w.(editorRef)) (w.(wsService)) (w.(remoteUsers))
    (w.(isRemoteChange)) (w.(reconnectTimeout)) (w.(reconnectTimer)) x
    (w.(aiRequestController)) (w.(aiDebounceTimer)).
Definition set_aiRequestController (x : option nat) (w : World) : World :=
  mkWorld (w.(now)) (w.(next_timer)) (w.(timers)) (w.(sockets)) (w.(sent))
    (w.(console)) (w.(requests)) (w.(services)) (w.(prop_roomId)) (w.(code))
    (w.(connected)) (w.(userCount)) (w.(isReconnecting)) (w.(aiLoading))
    (w.(renders)) (w.(editorRef)) (w.(wsService)) (w.(remoteUsers))
    (w.(isRemoteChange)) (w.(reconnectTimeout)) (w.(reconnectTimer))
    (w.(cursorUpdateThrottle)) x (w.(aiDebounceTimer)).
Definition set_aiDebounceTimer (x : option nat) (w : World) : World :=
  mkWorld (w.(now)) (w.(next_timer)) (w.(timers)) (w.(sockets)) (w.(sent))
    (w.(console)) (w.(requests)) (w.(services)) (w.(prop_roomId)) (w.(code))
    (w.(connected)) (w.(userCount)) (w.(isReconnecting)) (w.(aiLoading))
    (w.(renders)) (w.(editorRef)) (w.(wsService)) (w.(remoteUsers))
    (w.(isRemoteChange)) (w.(reconnectTimeout)) (w.(reconnectTimer))
    (w.(cursorUpdateThrottle)) (w.(aiRequestController)) x.

(** ** Code that can throw

    A computation returns the world as it is when it completes, normally
    or by a throw: what was written before the throw stays written. *)

Definition M (A : Type) : Type := World → World * Completion A.

Definition ret {A} (a : A) : M A := λ w, (w, Normal a).
Definition bind {A B} (m : M A) (f : A → M B) : M B :=
  λ w, match m w with
       | (w', Normal a) => f a w'
       | (w', Throw) => (w', Throw)
       end.
Definition throw {A} : M A := λ w, (w, Throw).
(** a statement that cannot throw *)
Definition act (f : World → World) : M unit := λ w, (f w, Normal tt).
(** an expression that reads no state *)
Definition eval {A} (c : Completion A) : M A := λ w, (w, c).
(** reading a ref *)
Definition read {A} (f : World → A) : M A := λ w, (w, Normal (f w)).

Declare Scope js_scope.
Delimit Scope js_scope with js.
Notation "'let*' x := m 'in' k" := (bind m (λ x, k))
  (at level 10, x name, m at level 100, k at level 200) : js_scope.
Notation "m ;; k" := (bind m (λ _, k))
  (at level 100, k at level 200, right associativity) : js_scope.

(** ** The browser *)

Module Browser.

Definition console_log (t : string) (w : World) : World :=
  set_console (w.(console) ++ [mkLog LogInfo t]) w.
Definition console_warn (t : string) (w : World) : World :=
  set_console (w.(console) ++ [mkLog LogWarn t]) w.
Definition console_error (t : string) (w : World) : World :=
  set_console (w.(console) ++ [mkLog LogError t]) w.

(** [setTimeout(action, delay)]: arms a timer and returns its handle.
    Handles are positive, hence truthy. *)
Definition setTimeout (action : TimerAction) (delay : Z) (w : World)
  : nat * World :=
  let id := w.(next_timer) in
  (id, set_next_timer (S id)
         (set_timers (w.(timers) ++ [mkTimer id (w.(now) + delay) action]) w)).

(** [clearTimeout(id)]: disarms the timer if it is still armed. *)
Definition clearTimeout (id : nat) (w : World) : World :=
  set_timers (filter (λ t, t.(timer_id) ≠ id) w.(timers)) w.

Definition update_socket (sid : nat) (f : Socket → Socket) (w : World) : World :=
  match w.(sockets) !! sid with
  | Some s => set_sockets (<[sid := f s]> w.(sockets)) w
  | None => w
  end.

(** [new WebSocket(url)]: a socket in state [CONNECTING] with no handler;
    [owner] is the service constructing it. *)
Definition new_WebSocket (owner : nat) (w : World) : nat * World :=
  let sid := length w.(sockets) in
  (sid, set_sockets (w.(sockets) ++ [mkSocket owner CONNECTING None CloseDefault]) w).

(** [ws.close()]: starts closing an open or connecting socket; the close
    event is fired later by the browser, on the socket object and whatever
    [onclose] it then carries.  Nothing happens on a socket that is already
    closing or closed. *)
Definition socket_close (sid : nat) (w : World) : World :=
  update_socket sid
    (λ s, match s.(readyState) with
          | CONNECTING | OPEN =>
              mkSocket s.(sock_owner) CLOSING s.(onmessage) s.(onclose)
          | CLOSING | CLOSED => s
          end) w.

Definition is_open (sid : nat) (w : World) : bool :=
  match w.(sockets) !! sid with
  | Some s => match s.(readyState) with OPEN => true | _ => false end
  | None => false
  end.

(** [controller.abort()]: the request of that controller, if still in
    flight, is cancelled. *)
Definition abort (ctrl : nat) (w : World) : World :=
  match w.(requests) !! ctrl with
  | Some r =>
      match r.(req_status) with
      | InFlight =>
          set_requests
            (<[ctrl := mkRequest r.(req_started) r.(req_code) r.(req_position) Cancelled]>
               w.(requests)) w
      | _ => w
      end
  | None => w
  end.

End Browser.
Import Browser.

(** ** websocket.ts *)

Module WebSocketService.

Definition update_service (svc : nat) (f : Service → Service) (w : World) : World :=
  match w.(services) !! svc with
  | Some s => set_services (<[svc := f s]> w.(services)) w
  | None => w
  end.

Definition set_ws (x : option nat) (s : Service) : Service :=
  mkService s.(roomId) x s.(reconnectAttempts) s.(maxReconnectAttempts) s.(reconnectDelay).
Definition set_reconnectAttempts (x : Z) (s : Service) : Service :=
  mkService s.(roomId) s.(ws) x s.(maxReconnectAttempts) s.(reconnectDelay).

Definition this_ws (svc : nat) (w : World) : option nat :=
  s ← w.(services) !! svc; s.(ws).

(** [connect()]: a fresh socket replaces [this.ws]; [onopen], [onerror]
    and the default [onclose] are installed on it, and no [onmessage]. *)
Definition connect (svc : nat) (w : World) : World :=
  let w := console_log "Connecting to WebSocket:" w in
  let '(sid, w) := new_WebSocket svc w in
  update_service svc (set_ws (Some sid)) w.

(** [attemptReconnect()] *)
Definition attemptReconnect (svc : nat) (w : World) : World :=
  match w.(services) !! svc with
  | Some s =>
      if Z.ltb s.(reconnectAttempts) s.(maxReconnectAttempts) then
        let w := update_service svc (set_reconnectAttempts (s.(reconnectAttempts) + 1)) w in
        let w := console_log "Reconnecting... Attempt" w in
        snd (setTimeout (ServiceConnect svc) s.(reconnectDelay) w)
      else console_error "Max reconnection attempts reached" w
  | None => w
  end.

(** [ws.onopen], as installed by [connect] *)
Definition onopen (svc : nat) (w : World) : World :=
  let w := console_log "WebSocket connected" w in
  update_service svc (set_reconnectAttempts 0) w.

(** [ws.onerror], as installed by [connect] *)
Definition onerror (w : World) : World := console_error "WebSocket error:" w.

(** [ws.onclose], as installed by [connect] *)
Definition onclose_default (svc : nat) (w : World) : World :=
  let w := console_log "WebSocket disconnected" w in
  attemptReconnect svc w.

(** [new WebSocketService(roomId)] *)
Definition new (room : string) (w : World) : nat * World :=
  let svc := length w.(services) in
  let w := set_services (w.(services) ++ [mkService room None 0 5 2000]) w in
  (svc, connect svc w).

(** [onMessage(callback)]: assigns [onmessage] of the socket that is
    [this.ws] at the time of the call. *)
Definition onMessage (svc : nat) (callback : MessageCallback) (w : World) : World :=
  match this_ws svc w with
  | Some sid =>
      update_socket sid
        (λ s, mkSocket s.(sock_owner) s.(readyState) (Some callback) s.(onclose)) w
  | None => w
  end.

(** [onClose(callback)]: replaces [onclose] of the current socket. *)
Definition onClose (svc : nat) (callback : CloseCallback) (w : World) : World :=
  match this_ws svc w with
  | Some sid =>
      update_socket sid
        (λ s, mkSocket s.(sock_owner) s.(readyState) s.(onmessage) (CloseWith callback)) w
  | None => w
  end.

(** [send(message)] *)
Definition send (svc : nat) (message : Envelope) (w : World) : World :=
  match this_ws svc w with
  | Some sid =>
      if is_open sid w then set_sent (w.(sent) ++ [(sid, message)]) w
      else console_warn "WebSocket is not connected. Message not sent:" w
  | None => console_warn "WebSocket is not connected. Message not sent:" w
  end.

Definition sendCodeUpdate (svc : nat) (c : string) (w : World) : World :=
  send svc (mkEnvelope "code_update" (JObj [("code", JStr c)])) w.

Definition sendCursorPosition (svc : nat) (line col : Z) (w : World) : World :=
  send svc (mkEnvelope "cursor_position" (JObj [("line", JNum line); ("column", JNum col)])) w.

(** [disconnect()] *)
Definition disconnect (svc : nat) (w : World) : World :=
  match this_ws svc w with
  | Some sid => update_service svc (set_ws None) (socket_close sid w)
  | None => w
  end.

End WebSocketService.

(** ** CodeEditor.tsx *)

Module CodeEditor.

Definition USER_COLORS : list string :=
  ["#FF6B6B"; "#4ECDC4"; "#45B7D1"; "#96CEB4"; "#FFEAA7";
   "#DDA15E"; "#BC6C25"; "#F4A261"; "#E76F51"; "#2A9D8F"].

(** [getUserColor(userId)]: the sum of the character codes picks the
    color.  [userId.split] exists on strings only; for any other value the
    call throws. *)
Definition getUserColor (uid : jsval) : Completion string :=
  match uid with
  | JStr s =>
      let hash := fold_left (λ acc ch, acc + Z.of_nat (Ascii.nat_of_ascii ch))
                    (String.list_ascii_of_string s) 0 in
      Normal (default "" (USER_COLORS !! Z.to_nat (hash mod 10)))
  | _ => Throw
  end.

(** State setters.  The new value is stored; React asks for a re-render
    only when it is not identical ([Object.is]) to the current state. *)
Definition bump (same : bool) (w : World) : nat :=
  if same then w.(renders) else S w.(renders).
Definition setCode (v : jsval) (w : World) : World :=
  set_renders (bump (same_value w.(code) v) w) (set_code v w).
Definition setConnected (b : bool) (w : World) : World :=
  set_renders (bump (Bool.eqb w.(connected) b) w) (set_connected b w).
Definition setUserCount (v : jsval) (w : World) : World :=
  set_renders (bump (same_value w.(userCount) v) w) (set_userCount v w).
Definition setIsReconnecting (b : bool) (w : World) : World :=
  set_renders (bump (Bool.eqb w.(isReconnecting) b) w) (set_isReconnecting b w).
Definition setAiLoading (b : bool) (w : World) : World :=
  set_renders (bump (Bool.eqb w.(aiLoading) b) w) (set_aiLoading b w).

(** [fetchAISuggestions(code, position)], up to the [await]: a new
    controller overwrites [aiRequestController.current] and the request
    leaves.  The rest runs when the fetch settles ([suggestionsSettled]). *)
Definition fetchAISuggestions (c : string) (p : Position) (w : World) : World :=
  let w := setAiLoading true w in
  let ctrl := length w.(requests) in
  let w := set_aiRequestController (Some ctrl) w in
  set_requests (w.(requests) ++ [mkRequest w.(now) c p InFlight]) w.

(** How the awaited fetch ends. [surface] is the value of
    [data.suggestions.length > 0 && data.confidence > 0.7]. *)
Inductive Response :=
| NetworkError
| NotOk
| Malformed
| Suggestions (surface : bool).

(** The continuation of [fetchAISuggestions] after the [await]: the
    [try] body or the [catch], then the [finally]. *)
Definition suggestionsSettled (rid : nat) (resp : Response) (w : World) : World :=
  match w.(requests) !! rid with
  | Some r =>
      let finish (w : World) :=
        let w := set_requests
                   (<[rid := mkRequest r.(req_started) r.(req_code) r.(req_position) Finished]>
                      w.(requests)) w in
        let w := setAiLoading false w in
        set_aiRequestController None w in
      match r.(req_status) with
      | InFlight =>
          match resp with
          | Suggestions true => finish (console_log "AI Suggestions:" w)
          | Suggestions false => finish w
          | NetworkError | NotOk | Malformed =>
              finish (console_error "Autocomplete error:" w)
          end
      | Cancelled => finish w
      | Finished => w
      end
  | None => w
  end.

(** [triggerAIAutocomplete(code, position)] *)
Definition triggerAIAutocomplete (c : string) (p : option Position) (w : World) : World :=
  match p with
  | None => w
  | Some p =>
      if (String.length c =? 0)%nat then w
      else
        let w := match w.(aiDebounceTimer) with
                 | Some t => clearTimeout t w
                 | None => w
                 end in
        let w := match w.(aiRequestController) with
                 | Some ctrl => abort ctrl w
                 | None => w
                 end in
        let '(t, w) := setTimeout (SuggestionFetch c p) 500 w in
        set_aiDebounceTimer (Some t) w
  end.

(** [sendCursorUpdate(line, column)] *)
Definition sendCursorUpdate (line col : Z) (w : World) : World :=
  match w.(cursorUpdateThrottle) with
  | Some _ => w
  | None =>
      let '(t, w) := setTimeout (CursorSend line col) 100 w in
      set_cursorUpdateThrottle (Some t) w
  end.

Definition cursor_update (line col : Z) : Envelope :=
  mkEnvelope "cursor_update"
    (JObj [("position", JObj [("line", JNum line); ("column", JNum col)])]).

(** The callback armed by [sendCursorUpdate]. *)
Definition cursorTimerFired (line col : Z) (w : World) : World :=
  let w := match w.(wsService) with
           | Some svc => WebSocketService.send svc (cursor_update line col) w
           | None => w
           end in
  set_cursorUpdateThrottle None w.

(** The listener given to [editor.onDidChangeCursorPosition]. *)
Definition onDidChangeCursorPosition (p : Position) (w : World) : World :=
  if w.(isRemoteChange) then w else sendCursorUpdate p.(lineNumber) p.(column) w.

(** The listener given to [editor.onDidChangeModelContent], for an event
    with at least one change. *)
Definition onDidChangeModelContent (w : World) : World :=
  if w.(isRemoteChange) then w
  else
    match w.(editorRef) with
    | Some ed =>
        let newCode := ed.(value) in
        let w := setCode (JStr newCode) w in
        let w := match w.(wsService) with
                 | Some svc => WebSocketService.sendCodeUpdate svc newCode w
                 | None => w
                 end in
        triggerAIAutocomplete newCode ed.(position) w
    | None => w
    end.

Definition set_value (s : string) (ed : Editor) : Editor :=
  mkEditor s ed.(position) ed.(decorations) ed.(next_decoration) ed.(setValue_calls).
Definition set_position (p : option Position) (ed : Editor) : Editor :=
  mkEditor ed.(value) p ed.(decorations) ed.(next_decoration) ed.(setValue_calls).

(** [editorRef.current.setValue(v)]: the widget replaces its buffer and
    tells its content listeners before it returns.  It takes a string and
    throws on anything else.  (The cursor listener is guarded by the same
    flag as the content listener, and [setValue] is only ever called with
    the flag set.) *)
Definition editor_setValue (v : jsval) : M unit :=
  λ w, match w.(editorRef), v with
       | Some ed, JStr s =>
           let ed := mkEditor s ed.(position) ed.(decorations) ed.(next_decoration)
                       (S ed.(setValue_calls)) in
           (onDidChangeModelContent (set_editorRef (Some ed) w), Normal tt)
       | _, _ => (w, Throw)
       end.

(** [editor.deltaDecorations(old, [d])] and [editor.deltaDecorations(old, [])] *)
Definition release (old : list nat) (ds : list Decoration) : list Decoration :=
  filter (λ d, d.(dec_id) ∉ old) ds.

Definition deltaDecorations_paint (old : list nat) (uid : string) (line col label : jsval)
    (ed : Editor) : list nat * Editor :=
  let id := ed.(next_decoration) in
  ([id],
   mkEditor ed.(value) ed.(position)
     (release old ed.(decorations) ++ [mkDecoration id line col uid label])
     (S id) ed.(setValue_calls)).

Definition deltaDecorations_clear (old : list nat) (ed : Editor) : Editor :=
  mkEditor ed.(value) ed.(position) (release old ed.(decorations))
    ed.(next_decoration) ed.(setValue_calls).

(** [updateRemoteCursor(userId, userName, position)].  [position] is
    truthy at the only call site, so reading its fields cannot throw.  An
    identifier that is not a string is never a key of the map, and for it
    [getUserColor] throws before anything is stored. *)
Definition updateRemoteCursor (uid name pos : jsval) : M unit :=
  (let* ed := read editorRef in
   match ed with
   | None => ret tt
   | Some ed =>
       match uid with
       | JStr s =>
           let* known := read (λ w, w.(remoteUsers) !! s) in
           let* user :=
             match known with
             | Some u => ret u
             | None =>
                 let* c := eval (getUserColor uid) in
                 let u := mkRemoteUser s name pos c [] in
                 act (λ w, set_remoteUsers (<[s := u]> w.(remoteUsers)) w);;
                 ret u
             end in
           let* line := eval (get_prop pos "line") in
           let* col := eval (get_prop pos "column") in
           let '(ids, ed') :=
             deltaDecorations_paint user.(user_decorations) s line col name ed in
           act (set_editorRef (Some ed'));;
           act (λ w, set_remoteUsers
                  (<[s := mkRemoteUser user.(userId) user.(userName) pos user.(color) ids]>
                     w.(remoteUsers)) w)
       | _ => let* _ := eval (getUserColor uid) in ret tt
       end
   end)%js.

(** [removeRemoteCursor(userId)] *)
Definition removeRemoteCursor (uid : jsval) (w : World) : World :=
  match w.(editorRef), uid with
  | Some ed, JStr s =>
      match w.(remoteUsers) !! s with
      | Some u =>
          let w := set_editorRef (Some (deltaDecorations_clear u.(user_decorations) ed)) w in
          set_remoteUsers (delete s w.(remoteUsers)) w
      | None => w
      end
  | _, _ => w
  end.

(** [attemptReconnect] of the component *)
Definition attemptReconnect (w : World) : World :=
  match w.(reconnectTimer) with
  | Some _ => w
  | None =>
      let w := setIsReconnecting true w in
      let '(t, w) := setTimeout EditorReconnect w.(reconnectTimeout) w in
      set_reconnectTimer (Some t) w
  end.

(** The cases of the [switch] in the callback given to
    [wsService.current.onMessage]. *)
Definition case_init (message : jsval) : M unit :=
  (let* d := eval (get_prop message "data") in
   let* c := eval (get_prop d "code") in
   act (setCode c);;
   act (setConnected true);;
   act (setIsReconnecting false);;
   act (set_reconnectTimeout 1000);;
   let* ed := read editorRef in
   match ed with
   | Some e =>
       if negb (strict_eq_str c e.(value)) then
         act (set_isRemoteChange true);;
         editor_setValue c;;
         act (set_isRemoteChange false)
       else ret tt
   | None => ret tt
   end)%js.

Definition case_code_update (message : jsval) : M unit :=
  (act (set_isRemoteChange true);;
   let* d := eval (get_prop message "data") in
   let* c := eval (get_prop d "code") in
   act (setCode c);;
   let* ed := read editorRef in
   match ed with
   | Some e => if negb (strict_eq_str c e.(value)) then editor_setValue c else ret tt
   | None => ret tt
   end;;
   act (set_isRemoteChange false))%js.

Definition case_cursor_update (message : jsval) : M unit :=
  (let* d := eval (get_prop message "data") in
   let* uid := eval (get_prop d "user_id") in
   if truthy uid then
     let* pos := eval (get_prop d "position") in
     if truthy pos then
       let* name := eval (get_prop d "user_name") in
       updateRemoteCursor uid (js_or name (JStr "Anonymous")) pos
     else ret tt
   else ret tt)%js.

Definition case_user_joined_left (ty message : jsval) : M unit :=
  (let* d := eval (get_prop message "data") in
   let* n := eval (get_prop d "user_count") in
   act (setUserCount n);;
   if strict_eq_str ty "user_left" then
     let* uid := eval (get_prop d "user_id") in
     if truthy uid then act (removeRemoteCursor uid) else ret tt
   else ret tt)%js.

(** The callback given to [wsService.current.onMessage]: a [switch] on
    [message.type] with no [default]. *)
Definition onMessageCallback (message : jsval) : M unit :=
  (let* ty := eval (get_prop message "type") in
   if strict_eq_str ty "init" then case_init message
   else if strict_eq_str ty "code_update" then case_code_update message
   else if strict_eq_str ty "cursor_update" then case_cursor_update message
   else if strict_eq_str ty "user_joined" || strict_eq_str ty "user_left"
        then case_user_joined_left ty message
   else ret tt)%js.

(** The callback given to [wsService.current.onClose]. *)
Definition onCloseCallback (w : World) : World :=
  attemptReconnect (setConnected false w).

(** [initializeWebSocket] *)
Definition initializeWebSocket (w : World) : World :=
  let '(svc, w) := WebSocketService.new w.(prop_roomId) w in
  let w := set_wsService (Some svc) w in
  let w := WebSocketService.onMessage svc EditorMessage w in
  WebSocketService.onClose svc EditorClose w.

(** The callback armed by [attemptReconnect]. *)
Definition reconnectTimerFired (w : World) : World :=
  let w := console_log "Attempting to reconnect..." w in
  let w := match w.(wsService) with
           | Some svc => WebSocketService.disconnect svc w
           | None => w
           end in
  let w := initializeWebSocket w in
  let w := set_reconnectTimer None w in
  set_reconnectTimeout (Z.min (w.(reconnectTimeout) * 2) 30000) w.

(** The cleanup returned by the [useEffect]. *)
Definition cleanup (w : World) : World :=
  let w := match w.(reconnectTimer) with Some t => clearTimeout t w | None => w end in
  let w := match w.(cursorUpdateThrottle) with Some t => clearTimeout t w | None => w end in
  let w := match w.(aiDebounceTimer) with Some t => clearTimeout t w | None => w end in
  let w := match w.(aiRequestController) with Some c => abort c w | None => w end in
  match w.(wsService) with
  | Some svc => WebSocketService.disconnect svc w
  | None => w
  end.

(** [handleEditorDidMount]: the widget arrives showing the [value] prop,
    with its cursor at the start. *)
Definition handleEditorDidMount (w : World) : World :=
  let text := match w.(code) with JStr s => s | _ => "" end in
  set_editorRef (Some (mkEditor text (Some (mkPosition 1 1)) [] 0 0)) w.

(** [requestAutocomplete] *)
Definition requestAutocomplete (w : World) : World :=
  match w.(editorRef) with
  | Some ed =>
      match ed.(position) with
      | Some p => fetchAISuggestions ed.(value) p w
      | None => w
      end
  | None => w
  end.

End CodeEditor.

(** ** The event loop *)

Module Runtime.

Definition run_message_callback (cb : MessageCallback) : jsval → M unit :=
  match cb with EditorMessage => CodeEditor.onMessageCallback end.

Definition run_close_callback (cb : CloseCallback) : World → World :=
  match cb with EditorClose => CodeEditor.onCloseCallback end.

(** The [data] of a message event, by what [JSON.parse] makes of it. *)
Inductive Frame :=
| Unparseable
| Parsed (message : jsval).

(** The handler [WebSocketService.onMessage] assigns to [ws.onmessage]:
    [try { callback(JSON.parse(event.data)) } catch { console.error }]. *)
Definition onmessage_handler (cb : MessageCallback) (frame : Frame) : M unit :=
  λ w, let body : M unit :=
         match frame with
         | Unparseable => throw
         | Parsed message => run_message_callback cb message
         end in
       match body w with
       | (w', Normal _) => (w', Normal tt)
       | (w', Throw) => (console_error "Error parsing WebSocket message:" w', Normal tt)
       end.

Definition set_readyState (r : ReadyState) (s : Socket) : Socket :=
  mkSocket s.(sock_owner) r s.(onmessage) s.(onclose).

(** The browser opens a connecting socket and calls [onopen]. *)
Definition socket_opened (sid : nat) (w : World) : World :=
  match w.(sockets) !! sid with
  | Some s =>
      match s.(readyState) with
      | CONNECTING =>
          WebSocketService.onopen s.(sock_owner) (update_socket sid (set_readyState OPEN) w)
      | _ => w
      end
  | None => w
  end.

(** The browser reports an error on a socket. *)
Definition socket_errored (sid : nat) (w : World) : World :=
  match w.(sockets) !! sid with
  | Some _ => WebSocketService.onerror w
  | None => w
  end.

(** The browser fires the close event of a socket that is not closed yet:
    the connection failed, the peer went away, or a local [close()]
    completed.  Whatever [onclose] the socket carries runs. *)
Definition socket_closed (sid : nat) (w : World) : World :=
  match w.(sockets) !! sid with
  | Some s =>
      match s.(readyState) with
      | CLOSED => w
      | _ =>
          let w := update_socket sid (set_readyState CLOSED) w in
          match s.(onclose) with
          | CloseDefault => WebSocketService.onclose_default s.(sock_owner) w
          | CloseWith cb =>
              WebSocketService.attemptReconnect s.(sock_owner) (run_close_callback cb w)
          end
      end
  | None => w
  end.

(** A frame arrives on an open socket.  With no [onmessage] assigned the
    event has no listener. *)
Definition socket_message (sid : nat) (frame : Frame) (w : World) : World :=
  match w.(sockets) !! sid with
  | Some s =>
      match s.(readyState), s.(onmessage) with
      | OPEN, Some cb => fst (onmessage_handler cb frame w)
      | _, _ => w
      end
  | None => w
  end.

Definition run_timer_action (a : TimerAction) (w : World) : World :=
  match a with
  | ServiceConnect svc => WebSocketService.connect svc w
  | EditorReconnect => CodeEditor.reconnectTimerFired w
  | CursorSend line col => CodeEditor.cursorTimerFired line col w
  | SuggestionFetch c p => CodeEditor.fetchAISuggestions c p w
  end.

(** A timer that is still armed and has come due is disarmed, and its
    callback runs. *)
Definition fire_timer (t : Timer) (w : World) : World :=
  if bool_decide (t ∈ w.(timers) ∧ t.(timer_due) ≤ w.(now)) then
    run_timer_action t.(timer_action) (clearTimeout t.(timer_id) w)
  else w.

(** One millisecond passes.  The timers armed at that moment are gone
    through in the order they were armed, and those that are due fire.
    Every delay in the program is positive, so a timer is never due in the
    tick it is armed in. *)
Definition tick (w : World) : World :=
  let w := set_now (w.(now) + 1) w in
  fold_left (λ w t, fire_timer t w) w.(timers) w.

(** The user moves the cursor. *)
Definition cursor_moved (p : Position) (w : World) : World :=
  match w.(editorRef) with
  | Some ed =>
      CodeEditor.onDidChangeCursorPosition p
        (set_editorRef (Some (CodeEditor.set_position (Some p) ed)) w)
  | None => w
  end.

(** The buffer changes other than through [setValue]: typing, a paste,
    or a replacement from outside. *)
Definition content_changed (text : string) (w : World) : World :=
  match w.(editorRef) with
  | Some ed =>
      CodeEditor.onDidChangeModelContent
        (set_editorRef (Some (CodeEditor.set_value text ed)) w)
  | None => w
  end.

(** The button is rendered [disabled={!connected || aiLoading}]. *)
Definition click_autocomplete (w : World) : World :=
  if negb w.(connected) || w.(aiLoading) then w else CodeEditor.requestAutocomplete w.

Inductive Event :=
| Mount
| EditorDidMount
| Unmount
| SocketOpened (sid : nat)
| SocketErrored (sid : nat)
| SocketClosed (sid : nat)
| SocketMessage (sid : nat) (frame : Frame)
| Tick
| CursorMoved (p : Position)
| ContentChanged (text : string)
| ClickAutocomplete
| FetchSettled (rid : nat) (resp : CodeEditor.Response).

Definition step (w : World) (e : Event) : World :=
  match e with
  | Mount => CodeEditor.initializeWebSocket w
  | EditorDidMount => CodeEditor.handleEditorDidMount w
  | Unmount => CodeEditor.cleanup w
  | SocketOpened sid => socket_opened sid w
  | SocketErrored sid => socket_errored sid w
  | SocketClosed sid => socket_closed sid w
  | SocketMessage sid frame => socket_message sid frame w
  | Tick => tick w
  | CursorMoved p => cursor_moved p w
  | ContentChanged text => content_changed text w
  | ClickAutocomplete => click_autocomplete w
  | FetchSettled rid resp => CodeEditor.suggestionsSettled rid resp w
  end.

Definition run (w : World) (es : list Event) : World := fold_left step es w.

(** [n] milliseconds pass. *)
Definition wait (n : nat) : list Event := replicate n Tick.

(** The component after its first render, before any effect has run. *)
Definition initial (room : string) : World :=
  mkWorld 0 1 [] [] [] [] [] [] room
    (JStr "# Start coding here...") false (JNum 1) false false 0
    None None ∅ false 1000 None None None None.

End Runtime.
Import Runtime.

(** ** Observations *)

Import WebSocketService CodeEditor.

Module Observe.

(** What a message handler has no business touching: sockets, services,
    the session's current service, timers and their handles, outbound
    frames, suggestion requests and the clock. *)
Record Wiring := mkWiring {
  wi_sockets : list Socket;
  wi_services : list Service;
  wi_wsService : option nat;
  wi_timers : list Timer;
  wi_next_timer : nat;
  wi_sent : list (nat * Envelope);
  wi_requests : list Request;
  wi_now : Z;
  wi_reconnectTimer : option nat;
  wi_cursorUpdateThrottle : option nat;
  wi_aiRequestController : option nat;
  wi_aiDebounceTimer : option nat
}.

Definition wiring (w : World) : Wiring :=
  mkWiring w.(sockets) w.(services) w.(wsService) w.(timers) w.(next_timer) w.(sent)
    w.(requests) w.(now) w.(reconnectTimer) w.(cursorUpdateThrottle)
    w.(aiRequestController) w.(aiDebounceTimer).

(** The five type tags the [switch] knows. *)
Definition recognized (ty : jsval) : bool :=
  strict_eq_str ty "init" || strict_eq_str ty "code_update"
  || strict_eq_str ty "cursor_update" || strict_eq_str ty "user_joined"
  || strict_eq_str ty "user_left".

(** A computation that may throw keeps [P] when the world it leaves
    satisfies [P] whenever the world it started from did. *)
Definition keeps (P : World → Prop) {A} (m : M A) : Prop :=
  ∀ w, P w → P (fst (m w)).

(** The socket of the session's current service. *)
Definition current_socket (w : World) : option nat :=
  svc ← w.(wsService); this_ws svc w.

(** A connect of service [svc] is pending. *)
Definition reconnect_scheduled (svc : nat) (w : World) : bool :=
  existsb (λ t, match t.(timer_action) with
                | ServiceConnect s => Nat.eqb s svc
                | _ => false
                end) w.(timers).

Definition in_flight (w : World) : list Request :=
  filter (λ r, r.(req_status) = InFlight) w.(requests).

Definition cursor_updates (w : World) : list Envelope :=
  filter (λ e, e.(env_type) = "cursor_update") (snd <$> w.(sent)).

Definition code_updates (w : World) : list Envelope :=
  filter (λ e, e.(env_type) = "code_update") (snd <$> w.(sent)).

(** The one event by which the user asks for suggestions by hand. *)
Definition manual (e : Event) : bool :=
  match e with ClickAutocomplete => true | _ => false end.

Definition is_fetch (a : TimerAction) : bool :=
  match a with SuggestionFetch _ _ => true | _ => false end.

(** When the suggestion requests started, oldest first. *)
Definition starts (w : World) : list Z := req_started <$> w.(requests).

(** Any two entries of the list are at least [d] apart, in order. *)
Definition spaced (d : Z) (l : list Z) : Prop :=
  ∀ i j a b, (i < j)%nat → l !! i = Some a → l !! j = Some b → a + d ≤ b.

(** The two fields of a service that nothing assigns after construction. *)
Definition service_constants (s : Service) : Prop :=
  s.(maxReconnectAttempts) = 5 ∧ s.(reconnectDelay) = 2000.

(** Invariant of every run: the backoff interval lies between the base
    and the ceiling, and every service has the constants it was built
    with. *)
Definition steady (w : World) : Prop :=
  1000 ≤ w.(reconnectTimeout) ≤ 30000 ∧ Forall service_constants w.(services).

(** Invariant of every run without a click on the suggestion button:
    requests started in the past and 500 ms apart, and an armed debounce
    timer is the one [aiDebounceTimer] names and is due no earlier than
    500 ms after every request so far. *)
Definition paced (w : World) : Prop :=
  (∀ s, s ∈ starts w → s ≤ w.(now)) ∧
  spaced 500 (starts w) ∧
  (∀ t, t ∈ w.(timers) → is_fetch t.(timer_action) = true →
        w.(aiDebounceTimer) = Some t.(timer_id) ∧
        ∀ s, s ∈ starts w → s + 500 ≤ t.(timer_due)).

(** The world right after the move that opens a throttle window. *)
Definition window_opened (first : Position) (w : World) : World := cursor_moved first w.
Arguments window_opened : simpl never.

(** The world [k] ms after [w1], nothing having happened but cursor moves
    that left the editor as [ed]. *)
Definition in_window (w1 : World) (k : nat) (ed : Editor) : World :=
  set_now (w1.(now) + Z.of_nat k) (set_editorRef (Some ed) w1).

End Observe.
Import Observe.

(** ** Scenarios *)

Module Scenario.

Definition envelope (ty : string) (data : list (string * jsval)) : Frame :=
  Parsed (JObj [("type", JStr ty); ("data", JObj data)]).

Definition init_frame (text : string) : Frame :=
  envelope "init" [("code", JStr text); ("language", JStr "python")].

(** A session in room R: mounted, editor loaded, socket 0 open, [init]
    received with the text ["# start"]. *)
Definition session : World :=
  run (initial "R")
    [Mount; EditorDidMount; SocketOpened 0; SocketMessage 0 (init_frame "# start")].

(** A [WebSocketService] on its own, as [new WebSocketService("R")]
    leaves it. *)
Definition lone_service : World := snd (WebSocketService.new "R" (initial "R")).

(** Socket [sid] fails and the service's reconnect delay passes. *)
Definition failed_attempt (sid : nat) : list Event := SocketClosed sid :: wait 2000.

(** The first [n] sockets of the lone service fail one after the other. *)
Definition consecutive_failures (n : nat) : list Event :=
  flat_map failed_attempt (seq 0 n).

(** The session's socket fails, and the current backoff interval passes. *)
Definition fail_and_wait (w : World) : World :=
  match current_socket w with
  | Some sid => run w (SocketClosed sid :: wait (Z.to_nat w.(reconnectTimeout)))
  | None => w
  end.

(** A burst of cursor moves: a first move, then further moves, each
    after a gap in milliseconds. *)
Definition burst (first : Position) (rest : list (nat * Position)) : list Event :=
  CursorMoved first :: flat_map (λ gp, wait gp.1 ++ [CursorMoved gp.2]) rest.

Definition burst_length (rest : list (nat * Position)) : nat := sum_list (fst <$> rest).

End Scenario.
Import Scenario.


(** ** Invariants of a session *)

Module Session.

(** The socket [send] writes to: [this.ws], provided it is open. *)
Definition open_socket (svc : nat) (w : World) : option nat :=
  match this_ws svc w with
  | Some sid => if is_open sid w then Some sid else None
  | None => None
  end.

(** An outbound envelope as [JSON.parse] returns it on the other side,
    should the server pass it on unchanged. *)
Definition on_the_wire (e : Envelope) : Frame :=
  Parsed (JObj [("type", JStr e.(env_type)); ("data", e.(env_data))]).

(** The events in which the component calls [send]. *)
Definition may_send (e : Event) : bool :=
  match e with ContentChanged _ | Tick => true | _ => false end.

Definition code_update (text : string) : Envelope :=
  mkEnvelope "code_update" (JObj [("code", JStr text)]).

(** The two envelopes the component builds. *)
Definition outbound_shape (e : Envelope) : Prop :=
  (∃ text, e = code_update text) ∨ (∃ line col, e = cursor_update line col).

(** Since [w0], the frames [new] were sent, and nothing else. *)
Definition sent_since (w0 : World) (new : list (nat * Envelope)) (w : World) : Prop :=
  w.(sent) = w0.(sent) ++ new.

Definition is_cursor_update (e : Envelope) : Prop := ∃ line col, e = cursor_update line col.

(** What a [setTimeout] callback belongs to. *)
Inductive Kind := ServiceRetry | SessionRetry | CursorWindow | FetchDebounce.
#[global] Instance Kind_eq_dec : EqDecision Kind.
Proof. solve_decision. Defined.

Definition kind (a : TimerAction) : Kind :=
  match a with
  | ServiceConnect _ => ServiceRetry
  | EditorReconnect => SessionRetry
  | CursorSend _ _ => CursorWindow
  | SuggestionFetch _ _ => FetchDebounce
  end.

(** The ref in which the component keeps the handle of a timer of that
    kind.  The service keeps none. *)
Definition handle (k : Kind) (w : World) : option (option nat) :=
  match k with
  | ServiceRetry => None
  | SessionRetry => Some w.(reconnectTimer)
  | CursorWindow => Some w.(cursorUpdateThrottle)
  | FetchDebounce => Some w.(aiDebounceTimer)
  end.

(** An armed timer of the component is the one its ref names. *)
Definition named (w : World) (t : Timer) : Prop :=
  ∀ h, handle (kind t.(timer_action)) w = Some h → h = Some t.(timer_id).

(** Timer handles are never reused, and the component keeps track of the
    timers it arms. *)
Definition disciplined (w : World) : Prop :=
  Forall (λ t, (t.(timer_id) < w.(next_timer))%nat ∧ named w t) w.(timers) ∧
  NoDup (timer_id <$> w.(timers)).

(** The armed timers of one kind. *)
Definition armed (k : Kind) (w : World) : list Timer :=
  filter (λ t, kind t.(timer_action) = k) w.(timers).

(** The discipline holds and no timer of kind [k] is armed. *)
Definition idle (k : Kind) (w : World) : Prop := disciplined w ∧ armed k w = [].

(** A service as the constructor leaves it and the methods keep it: the
    attempts counted within the limit, for the room it was made for. *)
Definition sound_service (room : string) (s : Service) : Prop :=
  0 ≤ s.(reconnectAttempts) ≤ s.(maxReconnectAttempts) ∧
  s.(maxReconnectAttempts) = 5 ∧ s.(reconnectDelay) = 2000 ∧ s.(roomId) = room.

Definition service_sound (w : World) : Prop :=
  Forall (sound_service w.(prop_roomId)) w.(services).

(** The decorations a remote user has on the editor. *)
Definition cursors_of (s : string) (ed : Editor) : list Decoration :=
  filter (λ d, d.(dec_user) = s) ed.(decorations).

Definition cursors_of_others (s : string) (ed : Editor) : list Decoration :=
  filter (λ d, d.(dec_user) ≠ s) ed.(decorations).

(** The editor's decorations and the map of remote users agree: every
    decoration is the one decoration its user's entry lists, every entry
    lists one decoration that is on the editor, and decoration identifiers
    are not reused. *)
Definition tidy_editor (ed : Editor) (users : gmap string RemoteUser) : Prop :=
  (∀ d, d ∈ ed.(decorations) →
        (d.(dec_id) < ed.(next_decoration))%nat ∧
        ∃ u, users !! d.(dec_user) = Some u ∧ u.(user_decorations) = [d.(dec_id)]) ∧
  (∀ s u, users !! s = Some u →
          ∃ d, d ∈ ed.(decorations) ∧ d.(dec_user) = s ∧
               u.(user_decorations) = [d.(dec_id)]) ∧
  NoDup (dec_id <$> ed.(decorations)).

(** What the remote-cursor code reads and writes of the editor. *)
Definition painted (w : World) : option (list Decoration * nat) :=
  (λ ed, (ed.(decorations), ed.(next_decoration))) <$> w.(editorRef).

Definition tidy (w : World) : Prop :=
  match w.(editorRef) with
  | Some ed => tidy_editor ed w.(remoteUsers)
  | None => w.(remoteUsers) = ∅
  end.

(** Envelopes as the server sends them. *)
Definition cursor_update_message (uid name : string) (line col : Z) : jsval :=
  JObj [("type", JStr "cursor_update");
        ("data", JObj [("user_id", JStr uid); ("user_name", JStr name);
                       ("position", JObj [("line", JNum line); ("column", JNum col)])])].

Definition user_left_message (uid : string) (count : Z) : jsval :=
  JObj [("type", JStr "user_left");
        ("data", JObj [("user_id", JStr uid); ("user_count", JNum count)])].

Definition mounts_editor (e : Event) : bool :=
  match e with EditorDidMount => true | _ => false end.

End Session.
Import Session.

(** ** RoomManager.tsx and App.tsx

    The page outside a session: [App] shows the [RoomManager] while no
    room is joined and the [CodeEditor] otherwise.  The handlers of the
    manager are [async]: up to its [await] a handler runs in the event that
    called it; the rest runs when the awaited [fetch] settles, with the
    variables the handler's closure captured, among them the [rooms] of the
    render the handler comes from.  A state setter of a component that is
    no longer mounted does nothing.  The server answers a request with
    what its route returns, or the request fails. *)

Module Api.

Record Room := mkRoom {
  id : string;
  name : string;
  language : string;
  created_at : string
}.

Inductive Request :=
| GetRooms
| PostRoom (name language : string)
| DeleteRoom (roomId : string).

(** How an awaited [fetch] ends: [Failure] is a rejected fetch, a status
    that is not ok, or a body that does not parse. *)
Inductive Reply :=
| Failure
| RoomList (data : list Room)
| Created (newRoom : Room)
| Deleted.

End Api.

Module RoomManager.

Import Api.

(** The state of one mounted [RoomManager]. *)
Record State := mkState {
  rooms : list Room;
  roomName : string;
  language : string;
  loading : bool;
  error : string
}.

Definition setRooms (x : list Room) (s : State) : State :=
  mkState x s.(roomName) s.(language) s.(loading) s.(error).
Definition setRoomName (x : string) (s : State) : State :=
  mkState s.(rooms) x s.(language) s.(loading) s.(error).
Definition setLanguage (x : string) (s : State) : State :=
  mkState s.(rooms) s.(roomName) x s.(loading) s.(error).
Definition setLoading (x : bool) (s : State) : State :=
  mkState s.(rooms) s.(roomName) s.(language) x s.(error).
Definition setError (x : string) (s : State) : State :=
  mkState s.(rooms) s.(roomName) s.(language) s.(loading) x.

(** The [useState] initial values. *)
Definition fresh : State := mkState [] "" "python" false "".

(** A handler waiting at its [await]: the request it sent, the mounted
    instance it belongs to, the [rooms] its closure captured, and whether
    the request has settled. *)
Record Call := mkCall {
  request : Request;
  owner : nat;
  captured : list Room;
  settled : bool
}.

(** The page: the state of [App], the manager if it is mounted, with the
    number of the mount, every fetch made so far, and the number of
    [console.error] calls. *)
Record Page := mkPage {
  currentRoom : option Room;
  instance : nat;
  manager : option State;
  calls : list Call;
  errors : nat
}.

Definition set_currentRoom (x : option Room) (p : Page) : Page :=
  mkPage x p.(instance) p.(manager) p.(calls) p.(errors).
Definition set_manager (x : option State) (p : Page) : Page :=
  mkPage p.(currentRoom) p.(instance) x p.(calls) p.(errors).
Definition set_calls (x : list Call) (p : Page) : Page :=
  mkPage p.(currentRoom) p.(instance) p.(manager) x p.(errors).

Definition log_error (p : Page) : Page :=
  mkPage p.(currentRoom) p.(instance) p.(manager) p.(calls) (S p.(errors)).

(** A state setter called from a closure of instance [inst]. *)
Definition set_state (inst : nat) (f : State → State) (p : Page) : Page :=
  match p.(manager) with
  | Some s => if Nat.eqb p.(instance) inst then set_manager (Some (f s)) p else p
  | None => p
  end.

(** [await fetch(...)]: the request leaves and the handler waits. *)
Definition fetch (r : Request) (inst : nat) (seen : list Room) (p : Page) : Page :=
  set_calls (p.(calls) ++ [mkCall r inst seen false]) p.

(** [fetchRooms], up to the [await] and after it. *)
Definition fetchRooms (inst : nat) (p : Page) : Page := fetch GetRooms inst [] p.

Definition fetchRooms_settled (inst : nat) (r : Reply) (p : Page) : Page :=
  match r with
  | RoomList data => set_state inst (setRooms data) p
  | _ =>
      log_error
        (set_state inst (setError "Failed to load rooms. Is the backend running?") p)
  end.

(** [createRoom], called from the render that showed state [s]. *)
Definition createRoom (inst : nat) (s : State) (p : Page) : Page :=
  let p := set_state inst (setLoading true) p in
  let p := set_state inst (setError "") p in
  fetch (PostRoom s.(roomName) s.(language)) inst s.(rooms) p.

Definition createRoom_settled (onJoinRoom : Room → Page → Page)
    (inst : nat) (seen : list Room) (r : Reply) (p : Page) : Page :=
  let p := match r with
           | Created newRoom =>
               let p := set_state inst (setRooms (seen ++ [newRoom])) p in
               let p := set_state inst (setRoomName "") p in
               onJoinRoom newRoom p
           | _ => log_error (set_state inst (setError "Failed to create room") p)
           end in
  set_state inst (setLoading false) p.

(** [deleteRoom(roomId, roomName)]; [confirmed] is what [confirm]
    returns. *)
Definition deleteRoom (inst : nat) (s : State) (roomId : string) (confirmed : bool)
    (p : Page) : Page :=
  if negb confirmed then p else fetch (DeleteRoom roomId) inst s.(rooms) p.

Definition deleteRoom_settled (inst : nat) (seen : list Room) (roomId : string)
    (r : Reply) (p : Page) : Page :=
  match r with
  | Deleted => set_state inst (setRooms (filter (λ room, room.(id) ≠ roomId) seen)) p
  | _ => log_error (set_state inst (setError "Failed to delete room") p)
  end.

(** White space as [trim] sees it, in ASCII. *)
Definition is_space (c : Ascii.ascii) : bool :=
  let n := Ascii.nat_of_ascii c in
  Nat.eqb n 32 || (Nat.leb 9 n && Nat.leb n 13).

(** [!roomName.trim()] *)
Definition blank (s : string) : bool :=
  forallb is_space (String.list_ascii_of_string s).

(** The submit button is rendered [disabled={loading || !roomName.trim()}]. *)
Definition submit_disabled (s : State) : bool := s.(loading) || blank s.(roomName).

End RoomManager.

Module App.

Import Api RoomManager.

(** [handleJoinRoom]: with a room joined the manager is not rendered. *)
Definition handleJoinRoom (room : Room) (p : Page) : Page :=
  set_manager None (set_currentRoom (Some room) p).

(** [handleLeaveRoom]: the manager is rendered again, a new instance
    whose mount effect calls [fetchRooms]. *)
Definition handleLeaveRoom (p : Page) : Page :=
  let inst := S p.(instance) in
  fetchRooms inst (mkPage None inst (Some fresh) p.(calls) p.(errors)).

(** The page after the first render and its effects. *)
Definition first_page : Page := fetchRooms 1 (mkPage None 1 (Some fresh) [] 0).

Inductive Action :=
| Settle (i : nat) (r : Reply)
| TypeName (text : string)
| SelectLanguage (l : string)
| Submit
| ClickDelete (k : nat) (confirmed : bool)
| ClickJoin (k : nat)
| ClickLeave.

(** The awaited fetch of call [i] settles and its handler goes on.  A
    reply of another route than the request's is taken as a failure. *)
Definition settle (i : nat) (r : Reply) (p : Page) : Page :=
  match p.(calls) !! i with
  | Some c =>
      if c.(settled) then p
      else
        let p := set_calls (<[i := mkCall c.(request) c.(owner) c.(captured) true]> p.(calls)) p in
        match c.(request) with
        | GetRooms =>
            fetchRooms_settled c.(owner)
              (match r with RoomList _ => r | _ => Failure end) p
        | PostRoom _ _ =>
            createRoom_settled handleJoinRoom c.(owner) c.(captured)
              (match r with Created _ => r | _ => Failure end) p
        | DeleteRoom roomId =>
            deleteRoom_settled c.(owner) c.(captured) roomId
              (match r with Deleted => r | _ => Failure end) p
        end
  | None => p
  end.

Definition page_step (p : Page) (a : Action) : Page :=
  match a with
  | Settle i r => settle i r p
  | ClickLeave =>
      match p.(currentRoom) with Some _ => handleLeaveRoom p | None => p end
  | _ =>
      match p.(manager) with
      | None => p
      | Some s =>
          match a with
          | TypeName text =>
              if s.(loading) then p else set_state p.(instance) (setRoomName text) p
          | SelectLanguage l =>
              if s.(loading) then p else set_state p.(instance) (setLanguage l) p
          | Submit =>
              if submit_disabled s then p else createRoom p.(instance) s p
          | ClickDelete k confirmed =>
              match s.(rooms) !! k with
              | Some room => deleteRoom p.(instance) s room.(id) confirmed p
              | None => p
              end
          | ClickJoin k =>
              match s.(rooms) !! k with
              | Some room => handleJoinRoom room p
              | None => p
              end
          | _ => p
          end
      end
  end.

Definition page_run (p : Page) (l : list Action) : Page := fold_left page_step l p.

(** The fetches of instance [inst] that create a room and have not
    settled. *)
Definition is_post (r : Request) : bool :=
  match r with PostRoom _ _ => true | _ => false end.

Definition creating (inst : nat) (p : Page) : list Call :=
  filter (λ c, c.(owner) = inst ∧ c.(settled) = false ∧ is_post c.(request) = true)
    p.(calls).

(** A page whose list shows two rooms. *)
Definition room_a : Room := mkRoom "a1" "alpha" "python" "2025-01-01".
Definition room_b : Room := mkRoom "b2" "beta" "java" "2025-01-02".
Definition two_rooms : Page := page_run first_page [Settle 0 (RoomList [room_a; room_b])].

(** The action lets the handler of call [n] go on. *)
Definition settles (n : nat) (a : Action) : bool :=
  match a with Settle i _ => Nat.eqb i n | _ => false end.

(** Invariant of the page: fetches belong to instances that have been
    mounted, no instance has two room creations in flight, and [loading]
    tells whether the mounted one has any. *)
Definition orderly (p : Page) : Prop :=
  Forall (λ c, (c.(owner) ≤ p.(instance))%nat) p.(calls) ∧
  (∀ inst, (length (creating inst p) ≤ 1)%nat) ∧
  ∀ s, p.(manager) = Some s →
       length (creating p.(instance) p) = if s.(loading) then 1%nat else 0%nat.

End App.
(** * Properties *)

(** ** Inbound envelopes *)

Ltac run_js := unfold bind, act, eval, read, ret, throw; simpl.

Lemma same_value_refl_str s : same_value (JStr s) (JStr s) = true.
Proof. simpl. apply String.eqb_refl. Qed.

(** Under the suppression flag the content listener does nothing, so a
    [setValue] only writes the buffer. *)
Lemma editor_setValue_flagged v w :
  w.(isRemoteChange) = true →
  editor_setValue v w =
    match w.(editorRef), v with
    | Some ed, JStr s =>
        (set_editorRef
           (Some (mkEditor s ed.(position) ed.(decorations) ed.(next_decoration)
                    (S ed.(setValue_calls)))) w, Normal tt)
    | _, _ => (w, Throw)
    end.
Proof.
  intros Hf. unfold editor_setValue, onDidChangeModelContent.
  destruct (editorRef w), v; simpl; rewrite ?Hf; done.
Qed.

Lemma case_init_wiring m w : wiring (fst (case_init m w)) = wiring w.
Proof.
  unfold case_init. run_js.
  destruct (get_prop m "data") as [d|]; simpl; [|done].
  destruct (get_prop d "code") as [c|]; simpl; [|done].
  destruct (editorRef w) as [e|] eqn:He; simpl; [|done].
  destruct (negb _); simpl; [|done].
  rewrite editor_setValue_flagged by done. simpl. rewrite He. by destruct c.
Qed.

Lemma case_code_update_wiring m w : wiring (fst (case_code_update m w)) = wiring w.
Proof.
  unfold case_code_update. run_js.
  destruct (get_prop m "data") as [d|]; simpl; [|done].
  destruct (get_prop d "code") as [c|]; simpl; [|done].
  destruct (editorRef w) as [e|] eqn:He; simpl; [|done].
  destruct (negb _); simpl; [|done].
  rewrite editor_setValue_flagged by done. simpl. rewrite He. by destruct c.
Qed.

Lemma updateRemoteCursor_wiring uid name pos w :
  wiring (fst (updateRemoteCursor uid name pos w)) = wiring w.
Proof.
  unfold updateRemoteCursor. run_js.
  destruct (editorRef w) as [e|]; simpl; [|done].
  destruct uid; simpl; try done.
  destruct (remoteUsers w !! s); simpl;
    destruct (get_prop pos "line"); simpl; try done;
    destruct (get_prop pos "column"); simpl; done.
Qed.

Lemma case_cursor_update_wiring m w : wiring (fst (case_cursor_update m w)) = wiring w.
Proof.
  unfold case_cursor_update. run_js.
  destruct (get_prop m "data") as [d|]; simpl; [|done].
  destruct (get_prop d "user_id") as [uid|]; simpl; [|done].
  destruct (truthy uid); simpl; [|done].
  destruct (get_prop d "position") as [pos|]; simpl; [|done].
  destruct (truthy pos); simpl; [|done].
  destruct (get_prop d "user_name") as [name|]; simpl; [|done].
  apply updateRemoteCursor_wiring.
Qed.

Lemma removeRemoteCursor_wiring uid w : wiring (removeRemoteCursor uid w) = wiring w.
Proof. unfold removeRemoteCursor. by repeat case_match. Qed.

Lemma case_user_joined_left_wiring ty m w :
  wiring (fst (case_user_joined_left ty m w)) = wiring w.
Proof.
  unfold case_user_joined_left. run_js.
  destruct (get_prop m "data") as [d|]; simpl; [|done].
  destruct (get_prop d "user_count") as [n|]; simpl; [|done].
  destruct (strict_eq_str ty "user_left"); simpl; [|done].
  destruct (get_prop d "user_id") as [uid|]; simpl; [|done].
  destruct (truthy uid); simpl; [|done].
  by rewrite removeRemoteCursor_wiring.
Qed.

Lemma onMessageCallback_wiring m w : wiring (fst (onMessageCallback m w)) = wiring w.
Proof.
  unfold onMessageCallback. unfold bind at 1, eval at 1.
  destruct (get_prop m "type") as [ty|]; [|done].
  repeat case_match; auto using case_init_wiring, case_code_update_wiring,
    case_cursor_update_wiring, case_user_joined_left_wiring.
Qed.

(** No inbound frame, whatever it holds, changes the wiring: in
    particular none makes the session send anything. *)
Lemma onmessage_handler_wiring cb frame w :
  wiring (fst (onmessage_handler cb frame w)) = wiring w.
Proof.
  unfold onmessage_handler.
  destruct frame as [|m]; [done|].
  destruct cb; simpl.
  pose proof (onMessageCallback_wiring m w) as H.
  destruct (onMessageCallback m w) as [w' [[]|]]; simpl in *; done.
Qed.

Lemma socket_message_wiring sid frame w :
  wiring (socket_message sid frame w) = wiring w.
Proof.
  unfold socket_message. repeat case_match; auto using onmessage_handler_wiring.
Qed.

(** Applying an inbound envelope sends nothing: no echo. *)
Lemma socket_message_no_echo sid frame w : sent (socket_message sid frame w) = sent w.
Proof. exact (f_equal wi_sent (socket_message_wiring sid frame w)). Qed.

(** ** Inbound envelopes: the claims *)

(** The two ways out of the [code_update] case: the flag is cleared when
    the case completes normally and is left set when it throws. *)
Lemma case_code_update_flag m w :
  (fst (case_code_update m w)).(isRemoteChange)
  = match snd (case_code_update m w) with Normal _ => false | Throw => true end.
Proof.
  unfold case_code_update. run_js.
  destruct (get_prop m "data") as [d|]; simpl; [|done].
  destruct (get_prop d "code") as [c|]; simpl; [|done].
  destruct (editorRef w) as [e|] eqn:He; simpl; [|done].
  destruct (negb _); simpl; [|done].
  rewrite editor_setValue_flagged by done. simpl. rewrite He. by destruct c.
Qed.

(** C4: a [code_update] envelope without [data].  The flag is set, reading
    [message.data.code] throws, and the assignment that clears the flag is
    skipped.  The next local edit is then taken for a remote one: nothing
    is sent and the [code] state is not updated. *)
Theorem C4_flag_left_set_after_throw :
  let frame := Parsed (JObj [("type", JStr "code_update")]) in
  let stuck := run session [SocketMessage 0 frame] in
  let edited := run stuck [ContentChanged "print(1)"] in
  session.(isRemoteChange) = false ∧
  stuck.(isRemoteChange) = true ∧
  value <$> edited.(editorRef) = Some "print(1)" ∧
  edited.(sent) = [] ∧
  edited.(code) = JStr "# start" ∧
  code_updates (run session [ContentChanged "print(1)"])
    = [mkEnvelope "code_update" (JObj [("code", JStr "print(1)")])].
Proof. vm_compute. done. Qed.

(** The same happens on the write itself: a payload that is not text makes
    [setValue] throw inside the flagged region. *)
Example flag_left_set_after_failed_write :
  let frame := envelope "code_update" [("code", JNum 42)] in
  (run session [SocketMessage 0 frame]).(isRemoteChange) = true.
Proof. vm_compute. reflexivity. Qed.


Lemma onMessageCallback_unrecognized m ty w :
  get_prop m "type" = Normal ty → recognized ty = false →
  onMessageCallback m w = (w, Normal tt).
Proof.
  intros Hty. unfold onMessageCallback, bind at 1, eval at 1, recognized. rewrite Hty.
  destruct (strict_eq_str ty "init"), (strict_eq_str ty "code_update"),
    (strict_eq_str ty "cursor_update"), (strict_eq_str ty "user_joined"),
    (strict_eq_str ty "user_left"); simpl; intros; done.
Qed.





(** ** The service's own reconnect *)

Lemma this_ws_connect w svc s :
  w.(services) !! svc = Some s →
  this_ws svc (connect svc w) = Some (length w.(sockets)).
Proof.
  intros Hs. unfold this_ws, connect, update_service, new_WebSocket. simpl.
  rewrite Hs. simpl. rewrite list_lookup_insert_eq by (eapply lookup_lt_Some; eauto).
  reflexivity.
Qed.

Lemma sockets_connect w svc s :
  w.(services) !! svc = Some s →
  sockets (connect svc w) = sockets w ++ [mkSocket svc CONNECTING None CloseDefault].
Proof.
  intros Hs. unfold connect, update_service, new_WebSocket. simpl. by rewrite Hs.
Qed.

Lemma socket_message_no_handler w sid s frame :
  w.(sockets) !! sid = Some s → s.(onmessage) = None →
  socket_message sid frame w = w.
Proof.
  intros Hs Hn. unfold socket_message. rewrite Hs, Hn. by destruct (readyState s).
Qed.

(** C10: a handler is registered with [onMessage], then the service's
    reconnect timer fires.  [this.ws] is now a fresh socket with no
    [onmessage]; frames arriving on it, before or after it opens, leave
    the world exactly as it was, console included; only a new call of
    [onMessage] attaches a handler to it. *)
Theorem C10_handler_lost_on_internal_reconnect
    (w : World) (svc : nat) (s : Service) (cb : MessageCallback) :
  w.(services) !! svc = Some s →
  let before := onMessage svc cb w in
  let after := run_timer_action (ServiceConnect svc) before in
  let sid := length w.(sockets) in
  this_ws svc after = Some sid ∧
  onmessage <$> after.(sockets) !! sid = Some None ∧
  (∀ frame, socket_message sid frame after = after) ∧
  (∀ frame, let opened := socket_opened sid after in
            is_open sid opened = true ∧ socket_message sid frame opened = opened) ∧
  onmessage <$> (onMessage svc cb after).(sockets) !! sid = Some (Some cb).
Proof.
  intros Hs before after sid.
  assert (Hlen : length before.(sockets) = length w.(sockets)).
  { unfold before, onMessage, update_socket. repeat case_match; simpl; try done.
    by rewrite length_insert. }
  assert (Hsv : before.(services) = w.(services)).
  { unfold before, onMessage, update_socket. by repeat case_match. }
  assert (Hs' : before.(services) !! svc = Some s) by (by rewrite Hsv).
  assert (Hsock : after.(sockets) !! sid = Some (mkSocket svc CONNECTING None CloseDefault)).
  { unfold after. simpl. rewrite (sockets_connect _ _ _ Hs').
    unfold sid. rewrite <- Hlen. by rewrite lookup_app_r, Nat.sub_diag by lia. }
  assert (Hws : this_ws svc after = Some sid).
  { unfold after. simpl. rewrite (this_ws_connect _ _ _ Hs'). by rewrite Hlen. }
  split; [done|]. split; [by rewrite Hsock|].
  split; [intros; by eapply socket_message_no_handler|].
  split.
  - intros frame opened.
    assert (Ho : opened.(sockets) !! sid = Some (mkSocket svc OPEN None CloseDefault)).
    { unfold opened, socket_opened. rewrite Hsock. simpl.
      unfold onopen, update_service, update_socket. simpl. rewrite Hsock. simpl.
      case_match; simpl; apply list_lookup_insert_eq; eapply lookup_lt_Some; eauto. }
    split.
    + unfold is_open. by rewrite Ho.
    + by eapply socket_message_no_handler.
  - unfold onMessage at 1. rewrite Hws. unfold update_socket. rewrite Hsock. simpl.
    by rewrite list_lookup_insert_eq by (eapply lookup_lt_Some; eauto).
Qed.

Lemma C10_handler_lost_on_internal_reconnect_witness :
  let after := run_timer_action (ServiceConnect 0) (onMessage 0 EditorMessage session) in
  this_ws 0 after = Some 1%nat ∧
  socket_message 1 (init_frame "# new") (socket_opened 1 after) = socket_opened 1 after.
Proof.
  pose proof (C10_handler_lost_on_internal_reconnect session 0
                (mkService "R" (Some 0%nat) 0 5 2000) EditorMessage eq_refl)
    as (H1 & _ & _ & H2 & _).
  split; [exact H1 | exact (proj2 (H2 (init_frame "# new")))].
Defined.

(** ** Preservation of an invariant by every handler

    A property of worlds that survives the primitive writes listed below
    survives every function of the program and every event other than a
    click on the suggestion button.  The two invariants of the next
    sections are instances. *)

Create HintDb pres discriminated.
#[global] Hint Constants Opaque : pres.

Section Preservation.

Variable P : World → Prop.

Hypothesis P_console : ∀ x w, P w → P (set_console x w).
Hypothesis P_sockets : ∀ x w, P w → P (set_sockets x w).
Hypothesis P_sent : ∀ x w, P w → P (set_sent x w).
Hypothesis P_code : ∀ x w, P w → P (set_code x w).
Hypothesis P_connected : ∀ x w, P w → P (set_connected x w).
Hypothesis P_userCount : ∀ x w, P w → P (set_userCount x w).
Hypothesis P_isReconnecting : ∀ x w, P w → P (set_isReconnecting x w).
Hypothesis P_aiLoading : ∀ x w, P w → P (set_aiLoading x w).
Hypothesis P_renders : ∀ x w, P w → P (set_renders x w).
Hypothesis P_editorRef : ∀ x w, P w → P (set_editorRef x w).
Hypothesis P_wsService : ∀ x w, P w → P (set_wsService x w).
Hypothesis P_remoteUsers : ∀ x w, P w → P (set_remoteUsers x w).
Hypothesis P_isRemoteChange : ∀ x w, P w → P (set_isRemoteChange x w).
Hypothesis P_reconnectTimer : ∀ x w, P w → P (set_reconnectTimer x w).
Hypothesis P_cursorUpdateThrottle : ∀ x w, P w → P (set_cursorUpdateThrottle x w).
Hypothesis P_aiRequestController : ∀ x w, P w → P (set_aiRequestController x w).
Hypothesis P_clock : ∀ w, P w → P (set_now (w.(now) + 1) w).
Hypothesis P_service_new : ∀ room w,
  P w → P (set_services (w.(services) ++ [mkService room None 0 5 2000]) w).
Hypothesis P_service_ws : ∀ svc x w, P w → P (update_service svc (set_ws x) w).
Hypothesis P_service_attempts : ∀ svc x w,
  P w → P (update_service svc (set_reconnectAttempts x) w).
Hypothesis P_backoff_reset : ∀ w, P w → P (set_reconnectTimeout 1000 w).
Hypothesis P_backoff_double : ∀ w,
  P w → P (set_reconnectTimeout (Z.min (w.(reconnectTimeout) * 2) 30000) w).
Hypothesis P_setTimeout : ∀ a d w,
  is_fetch a = false → P w → P (snd (setTimeout a d w)).
Hypothesis P_clearTimeout : ∀ id w, P w → P (clearTimeout id w).
Hypothesis P_status : ∀ i r st w,
  w.(requests) !! i = Some r → P w →
  P (set_requests (<[i := mkRequest r.(req_started) r.(req_code) r.(req_position) st]>
                     w.(requests)) w).
Hypothesis P_trigger : ∀ c p w, P w → P (triggerAIAutocomplete c p w).
Hypothesis P_fetch_fired : ∀ t c p w,
  t ∈ w.(timers) → t.(timer_due) ≤ w.(now) → t.(timer_action) = SuggestionFetch c p →
  P w → P (fetchAISuggestions c p (clearTimeout t.(timer_id) w)).

Local Hint Resolve P_console P_sockets P_sent P_code P_connected P_userCount
  P_isReconnecting P_aiLoading P_renders P_editorRef P_wsService P_remoteUsers
  P_isRemoteChange P_reconnectTimer P_cursorUpdateThrottle P_aiRequestController
  P_clock P_service_new P_service_ws P_service_attempts P_backoff_reset
  P_backoff_double P_clearTimeout P_trigger : pres.

Local Hint Extern 3 (P (match ?x with _ => _ end)) => destruct x eqn:? : pres.
Local Hint Extern 1 (P (let '(_, _) := setTimeout ?a ?d ?w in _)) =>
  let H := fresh in
  pose proof (P_setTimeout a d w eq_refl) as H;
  destruct (setTimeout a d w); simpl in H : pres.

Ltac pres := intros; cbv zeta; typeclasses eauto with pres core.

(** the browser *)
Lemma P_console_log t w : P w → P (console_log t w).
Proof. unfold console_log. pres. Qed.
Lemma P_console_warn t w : P w → P (console_warn t w).
Proof. unfold console_warn. pres. Qed.
Lemma P_console_error t w : P w → P (console_error t w).
Proof. unfold console_error. pres. Qed.
Lemma P_update_socket sid f w : P w → P (update_socket sid f w).
Proof. unfold update_socket. pres. Qed.
Local Hint Resolve P_console_log P_console_warn P_console_error P_update_socket : pres.
Lemma P_socket_close sid w : P w → P (socket_close sid w).
Proof. unfold socket_close. pres. Qed.
Lemma P_abort c w : P w → P (abort c w).
Proof. unfold abort. pres. Qed.
Local Hint Resolve P_socket_close P_abort : pres.

(** websocket.ts *)
Lemma P_connect svc w : P w → P (connect svc w).
Proof. unfold connect, new_WebSocket. pres. Qed.
Local Hint Resolve P_connect : pres.
Lemma P_service_attemptReconnect svc w : P w → P (WebSocketService.attemptReconnect svc w).
Proof.
  unfold WebSocketService.attemptReconnect. intros.
  destruct (services w !! svc); [|done]. destruct (Z.ltb _ _); [|pres].
  apply P_setTimeout; [done|]. pres.
Qed.
Lemma P_onopen svc w : P w → P (onopen svc w).
Proof. unfold onopen. pres. Qed.
Local Hint Resolve P_service_attemptReconnect P_onopen : pres.
Lemma P_onclose_default svc w : P w → P (onclose_default svc w).
Proof. unfold onclose_default. pres. Qed.
Lemma P_new room w : P w → P (snd (WebSocketService.new room w)).
Proof. unfold WebSocketService.new. simpl. pres. Qed.
Lemma P_onMessage svc cb w : P w → P (onMessage svc cb w).
Proof. unfold onMessage. pres. Qed.
Lemma P_onClose svc cb w : P w → P (onClose svc cb w).
Proof. unfold onClose. pres. Qed.
Lemma P_send svc e w : P w → P (send svc e w).
Proof. unfold send. pres. Qed.
Local Hint Resolve P_onclose_default P_new P_onMessage P_onClose P_send : pres.
Lemma P_sendCodeUpdate svc c w : P w → P (sendCodeUpdate svc c w).
Proof. unfold sendCodeUpdate. pres. Qed.
Lemma P_disconnect svc w : P w → P (disconnect svc w).
Proof. unfold disconnect. pres. Qed.
Local Hint Resolve P_sendCodeUpdate P_disconnect : pres.

(** CodeEditor.tsx *)
Lemma P_setCode v w : P w → P (setCode v w).
Proof. unfold setCode. pres. Qed.
Lemma P_setConnected v w : P w → P (setConnected v w).
Proof. unfold setConnected. pres. Qed.
Lemma P_setUserCount v w : P w → P (setUserCount v w).
Proof. unfold setUserCount. pres. Qed.
Lemma P_setIsReconnecting v w : P w → P (setIsReconnecting v w).
Proof. unfold setIsReconnecting. pres. Qed.
Lemma P_setAiLoading v w : P w → P (setAiLoading v w).
Proof. unfold setAiLoading. pres. Qed.
Local Hint Resolve P_setCode P_setConnected P_setUserCount P_setIsReconnecting
  P_setAiLoading : pres.

Lemma P_suggestionsSettled rid resp w : P w → P (suggestionsSettled rid resp w).
Proof.
  unfold suggestionsSettled. intros.
  destruct (requests w !! rid) as [r|] eqn:Hr; [|done].
  assert (∀ w', requests w' = requests w → P w' →
            P (set_aiRequestController None (setAiLoading false
                 (set_requests (<[rid := mkRequest r.(req_started) r.(req_code)
                                           r.(req_position) Finished]> w'.(requests)) w'))))
    as Hfin.
  { intros w' Hw' ?. apply P_aiRequestController, P_setAiLoading, P_status; [|done].
    by rewrite Hw'. }
  destruct (req_status r); [destruct resp as [| | |[]]|..]; auto with pres.
Qed.

Lemma P_sendCursorUpdate l c w : P w → P (sendCursorUpdate l c w).
Proof. unfold sendCursorUpdate. pres. Qed.
Lemma P_cursorTimerFired l c w : P w → P (cursorTimerFired l c w).
Proof. unfold cursorTimerFired. pres. Qed.
Local Hint Resolve P_suggestionsSettled P_sendCursorUpdate P_cursorTimerFired : pres.
Lemma P_onDidChangeCursorPosition p w : P w → P (onDidChangeCursorPosition p w).
Proof. unfold onDidChangeCursorPosition. pres. Qed.
Lemma P_onDidChangeModelContent w : P w → P (onDidChangeModelContent w).
Proof. unfold onDidChangeModelContent. pres. Qed.
Lemma P_removeRemoteCursor uid w : P w → P (removeRemoteCursor uid w).
Proof. unfold removeRemoteCursor. pres. Qed.
Lemma P_attemptReconnect w : P w → P (CodeEditor.attemptReconnect w).
Proof. unfold CodeEditor.attemptReconnect. pres. Qed.
Local Hint Resolve P_onDidChangeCursorPosition P_onDidChangeModelContent
  P_removeRemoteCursor P_attemptReconnect : pres.
Lemma P_onCloseCallback w : P w → P (onCloseCallback w).
Proof. unfold onCloseCallback. pres. Qed.
Lemma P_initializeWebSocket w : P w → P (initializeWebSocket w).
Proof.
  unfold initializeWebSocket. intros.
  pose proof (P_new w.(prop_roomId) w).
  destruct (WebSocketService.new _ w). simpl in *. pres.
Qed.
Local Hint Resolve P_onCloseCallback P_initializeWebSocket : pres.
Lemma P_reconnectTimerFired w : P w → P (reconnectTimerFired w).
Proof. unfold reconnectTimerFired. pres. Qed.
Lemma P_cleanup w : P w → P (cleanup w).
Proof. unfold cleanup. pres. Qed.
Lemma P_handleEditorDidMount w : P w → P (handleEditorDidMount w).
Proof. unfold handleEditorDidMount. pres. Qed.
Local Hint Resolve P_reconnectTimerFired P_cleanup P_handleEditorDidMount : pres.

(** code that can throw *)
Lemma keeps_ret {A} (a : A) : keeps P (ret a).
Proof. by intros w. Qed.
Lemma keeps_throw {A} : keeps P (@throw A).
Proof. by intros w. Qed.
Lemma keeps_eval {A} (c : Completion A) : keeps P (eval c).
Proof. by intros w. Qed.
Lemma keeps_read {A} (f : World → A) : keeps P (read f).
Proof. by intros w. Qed.
Lemma keeps_act f : (∀ w, P w → P (f w)) → keeps P (act f).
Proof. intros Hf w. apply Hf. Qed.
Lemma keeps_bind {A B} (m : M A) (k : A → M B) :
  keeps P m → (∀ a, keeps P (k a)) → keeps P (bind m k).
Proof.
  intros Hm Hk w Hw. unfold bind. specialize (Hm w Hw).
  destruct (m w) as [w' [a|]]; simpl in *; [by apply Hk | done].
Qed.

Lemma keeps_editor_setValue v : keeps P (editor_setValue v).
Proof.
  intros w Hw. unfold editor_setValue.
  destruct (editorRef w), v; simpl; try done. pres.
Qed.

Local Hint Resolve keeps_ret keeps_throw keeps_eval keeps_read keeps_act keeps_bind
  keeps_editor_setValue : pres.
Local Hint Extern 3 (keeps _ (match ?x with _ => _ end)) => destruct x eqn:? : pres.

Lemma keeps_updateRemoteCursor uid name pos : keeps P (updateRemoteCursor uid name pos).
Proof. unfold updateRemoteCursor. pres. Qed.
Local Hint Resolve keeps_updateRemoteCursor : pres.
Lemma keeps_case_init m : keeps P (case_init m).
Proof. unfold case_init. pres. Qed.
Lemma keeps_case_code_update m : keeps P (case_code_update m).
Proof. unfold case_code_update. pres. Qed.
Lemma keeps_case_cursor_update m : keeps P (case_cursor_update m).
Proof. unfold case_cursor_update. pres. Qed.
Lemma keeps_case_user_joined_left ty m : keeps P (case_user_joined_left ty m).
Proof. unfold case_user_joined_left. pres. Qed.
Local Hint Resolve keeps_case_init keeps_case_code_update keeps_case_cursor_update
  keeps_case_user_joined_left : pres.
Lemma keeps_onMessageCallback m : keeps P (onMessageCallback m).
Proof. unfold onMessageCallback. pres. Qed.

Lemma keeps_onmessage_handler cb frame : keeps P (onmessage_handler cb frame).
Proof.
  intros w Hw. unfold onmessage_handler.
  assert (keeps P (match frame with
                   | Unparseable => throw
                   | Parsed message => run_message_callback cb message
                   end)) as Hb.
  { destruct frame, cb; simpl; auto using keeps_throw, keeps_onMessageCallback. }
  specialize (Hb w Hw). destruct (_ w) as [w' [[]|]]; simpl in *; pres.
Qed.

(** the event loop *)
Lemma P_socket_opened sid w : P w → P (socket_opened sid w).
Proof. unfold socket_opened. pres. Qed.
Lemma P_socket_errored sid w : P w → P (socket_errored sid w).
Proof. unfold socket_errored, onerror. pres. Qed.
Lemma P_socket_closed sid w : P w → P (socket_closed sid w).
Proof.
  unfold socket_closed. intros.
  destruct (sockets w !! sid) as [s|]; [|done].
  destruct (readyState s); try done;
    (destruct (onclose s) as [|[]]; [pres|]; simpl; pres).
Qed.
Lemma P_socket_message sid frame w : P w → P (socket_message sid frame w).
Proof.
  unfold socket_message. intros.
  repeat case_match; try done. by apply keeps_onmessage_handler.
Qed.
Lemma P_cursor_moved p w : P w → P (cursor_moved p w).
Proof. unfold cursor_moved. pres. Qed.
Lemma P_content_changed t w : P w → P (content_changed t w).
Proof. unfold content_changed. pres. Qed.

Lemma P_fire_timer t w : P w → P (fire_timer t w).
Proof.
  unfold fire_timer. intros Hw. case_bool_decide as Ht; [|done].
  destruct Ht as [Hin Hdue].
  destruct (timer_action t) eqn:Ha; simpl; [pres..|].
  by apply (P_fetch_fired t).
Qed.

Lemma P_tick w : P w → P (tick w).
Proof.
  unfold tick. intros Hw. apply P_clock in Hw.
  generalize dependent (set_now (now w + 1) w). intros w0.
  generalize (timers w0). intros ts. revert w0.
  induction ts as [|t ts IH]; intros w0 Hw0; simpl; [done|].
  apply IH. by apply P_fire_timer.
Qed.

Theorem P_step w e : e ≠ ClickAutocomplete → P w → P (step w e).
Proof.
  intros He Hw. destruct e; simpl;
    auto using P_initializeWebSocket, P_handleEditorDidMount, P_cleanup,
      P_socket_opened, P_socket_errored, P_socket_closed, P_socket_message, P_tick,
      P_cursor_moved, P_content_changed, P_suggestionsSettled.
  done.
Qed.

End Preservation.

(** ** The invariant of every run *)

Lemma steady_frame w w' :
  w'.(reconnectTimeout) = w.(reconnectTimeout) → w'.(services) = w.(services) →
  steady w → steady w'.
Proof. unfold steady. by intros -> ->. Qed.

Lemma steady_update_service svc f w :
  (∀ s, service_constants s → service_constants (f s)) →
  steady w → steady (update_service svc f w).
Proof.
  intros Hf [Hb Hs]. unfold update_service.
  destruct (services w !! svc) as [s|] eqn:Hsvc; [|done].
  split; [done|]. simpl. apply Forall_insert; [done|].
  apply Hf. by eapply Forall_lookup_1.
Qed.

Lemma steady_triggerAIAutocomplete c p w : steady w → steady (triggerAIAutocomplete c p w).
Proof.
  unfold triggerAIAutocomplete, abort, clearTimeout, setTimeout. intros.
  repeat case_match; simplify_eq/=; try done;
    (eapply steady_frame; [..|eassumption]; done).
Qed.

Lemma steady_click w : steady w → steady (click_autocomplete w).
Proof.
  unfold click_autocomplete, requestAutocomplete. intros.
  repeat case_match; try done; (eapply steady_frame; [..|eassumption]; done).
Qed.

Lemma steady_step w e : steady w → steady (step w e).
Proof.
  intros Hw.
  destruct (manual e) eqn:Hclick.
  { destruct e; try discriminate. by apply steady_click. }
  assert (e ≠ ClickAutocomplete) as He by (intros ->; discriminate).
  clear Hclick. revert w e He Hw. apply P_step;
    try (intros; eapply steady_frame; [..|eassumption]; done);
    try (intros; by apply steady_triggerAIAutocomplete).
  - intros room w [Hb Hs]. split; [done|]. simpl.
    apply Forall_app. split; [done|]. by repeat constructor.
  - intros svc x w. by apply steady_update_service.
  - intros svc x w. by apply steady_update_service.
  - intros w [Hb Hs]. split; [simpl; lia | done].
  - intros w [Hb Hs]. split; [simpl; lia | done].
Qed.

Lemma steady_initial room : steady (initial room).
Proof. split; [simpl; lia | constructor]. Qed.

Lemma run_snoc w es e : run w (es ++ [e]) = step (run w es) e.
Proof. unfold run. by rewrite fold_left_app. Qed.

Lemma run_app w es es' : run w (es ++ es') = run (run w es) es'.
Proof. unfold run. by rewrite fold_left_app. Qed.

Lemma steady_run w es : steady w → steady (run w es).
Proof.
  revert w. induction es as [|e es IH]; intros w Hw; [done|].
  simpl. apply IH. by apply steady_step.
Qed.

Theorem steady_reachable room es : steady (run (initial room) es).
Proof. apply steady_run, steady_initial. Qed.

(** ** The invariant of runs without a manual request *)

Lemma paced_frame w w' :
  w'.(now) = w.(now) → starts w' = starts w →
  w'.(aiDebounceTimer) = w.(aiDebounceTimer) →
  (∀ t, t ∈ w'.(timers) → is_fetch t.(timer_action) = true → t ∈ w.(timers)) →
  paced w → paced w'.
Proof.
  intros Hn Hs Hd Ht (H1 & H2 & H3). unfold paced. rewrite Hn, Hs, Hd.
  split; [done|]. split; [done|]. intros t Hin Hf. apply H3; [by apply Ht|done].
Qed.

Lemma starts_set_status i r st (rs : list Request) :
  rs !! i = Some r →
  req_started <$> <[i := mkRequest r.(req_started) r.(req_code) r.(req_position) st]> rs
  = req_started <$> rs.
Proof.
  intros Hi. rewrite list_fmap_insert. simpl.
  apply list_insert_id. by rewrite list_lookup_fmap, Hi.
Qed.

Lemma paced_abort c w : paced w → paced (abort c w).
Proof.
  unfold abort. intros Hw.
  destruct (requests w !! c) as [r|] eqn:Hr; [|done].
  destruct (req_status r); try done.
  apply (paced_frame w); [done| |done|done|done].
  unfold starts. simpl. by apply starts_set_status.
Qed.

Lemma paced_clearTimeout id w : paced w → paced (clearTimeout id w).
Proof.
  apply (paced_frame w); try done. simpl. intros t Hin _.
  by apply list_elem_of_filter in Hin as [_ ?].
Qed.

Lemma spaced_snoc d l b : spaced d l → (∀ a, a ∈ l → a + d ≤ b) → spaced d (l ++ [b]).
Proof.
  intros Hl Hb i j x y Hij Hi Hj.
  assert (j < length (l ++ [b]))%nat as Hlt by (by eapply lookup_lt_Some).
  rewrite length_app in Hlt. simpl in Hlt.
  assert (l !! i = Some x) as Hi' by (rewrite lookup_app_l in Hi by lia; done).
  destruct (decide (j < length l)%nat) as [Hjl|Hjl].
  - rewrite lookup_app_l in Hj by done. by apply (Hl i j).
  - rewrite lookup_app_r in Hj by lia.
    replace (j - length l)%nat with 0%nat in Hj by lia. simpl in Hj.
    inversion Hj; subst. apply Hb. by eapply list_elem_of_lookup_2.
Qed.

(** Arming the debounce timer: whatever timer the handle named is
    disarmed first, so the new one is the only fetch timer, due 500 ms
    from now. *)
Lemma paced_triggerAIAutocomplete c p w : paced w → paced (triggerAIAutocomplete c p w).
Proof.
  intros Hw. unfold triggerAIAutocomplete.
  destruct p as [p|]; [|done]. destruct (_ =? _)%nat; [done|].
  set (w1 := match aiDebounceTimer w with Some t => clearTimeout t w | None => w end).
  assert (paced w1 ∧ now w1 = now w ∧ starts w1 = starts w ∧
          ∀ t, t ∈ timers w1 → is_fetch (timer_action t) = false) as (Hw1 & Hn1 & Hs1 & Hf1).
  { pose proof Hw as (H1 & H2 & H3). unfold w1.
    destruct (aiDebounceTimer w) as [h|] eqn:Hh.
    - split; [by apply paced_clearTimeout|]. split; [done|]. split; [done|].
      intros t Hin. simpl in Hin. apply list_elem_of_filter in Hin as [Hid Hin].
      destruct (is_fetch (timer_action t)) eqn:Hf; [|done].
      destruct (H3 t Hin Hf) as [Heq _]. congruence.
    - split; [done|]. split; [done|]. split; [done|]. intros t Hin.
      destruct (is_fetch (timer_action t)) eqn:Hf; [|done].
      destruct (H3 t Hin Hf) as [Heq _]. congruence. }
  set (w2 := match aiRequestController w1 with Some ctrl => abort ctrl w1 | None => w1 end).
  assert (paced w2 ∧ now w2 = now w ∧ starts w2 = starts w ∧ timers w2 = timers w1)
    as (Hw2 & Hn2 & Hs2 & Ht2).
  { unfold w2. destruct (aiRequestController w1) as [ctrl|]; [|done].
    split; [by apply paced_abort|]. unfold abort.
    destruct (requests w1 !! ctrl) as [r|] eqn:Hr; [|done].
    destruct (req_status r); try done. split; [done|]. split; [|done].
    rewrite <- Hs1. unfold starts. simpl. by apply starts_set_status. }
  clearbody w1 w2. unfold setTimeout. simpl.
  destruct Hw2 as (H1 & H2 & H3).
  split; [done|]. split; [done|]. simpl.
  intros t Hin Hf. apply elem_of_app in Hin as [Hin|Hin].
  - rewrite Ht2 in Hin. specialize (Hf1 t Hin). congruence.
  - apply list_elem_of_singleton in Hin as ->. simpl. split; [done|].
    intros s Hs. specialize (H1 s Hs). lia.
Qed.

(** The debounce timer fires: the request starts now, which is at least
    500 ms after every earlier one, and no fetch timer is left armed. *)
Lemma paced_fetch_fired t c p w :
  t ∈ w.(timers) → t.(timer_due) ≤ w.(now) → t.(timer_action) = SuggestionFetch c p →
  paced w → paced (fetchAISuggestions c p (clearTimeout t.(timer_id) w)).
Proof.
  intros Hin Hdue Ha (H1 & H2 & H3).
  assert (is_fetch (timer_action t) = true) as Hf by (by rewrite Ha).
  destruct (H3 t Hin Hf) as [Hh Hgap].
  unfold fetchAISuggestions, paced, starts. simpl. rewrite fmap_app. simpl.
  split; [|split].
  - intros s Hs. apply elem_of_app in Hs as [Hs|Hs]; [by apply H1|].
    apply list_elem_of_singleton in Hs as ->. done.
  - apply spaced_snoc; [done|]. intros a Ha'. specialize (Hgap a Ha'). lia.
  - intros t' Hin' Hf'. apply list_elem_of_filter in Hin' as [Hid Hin'].
    destruct (H3 t' Hin' Hf') as [Hh' _]. congruence.
Qed.

Lemma paced_step w e : e ≠ ClickAutocomplete → paced w → paced (step w e).
Proof.
  revert w e. apply P_step;
    try (intros; eapply paced_frame; [..|eassumption]; done);
    auto using paced_triggerAIAutocomplete, paced_fetch_fired, paced_clearTimeout.
  - intros w (H1 & H2 & H3). split; [|done].
    intros s Hs. specialize (H1 s Hs). simpl. lia.
  - intros svc x w. unfold update_service. destruct (_ !! _); [|done].
    by apply (paced_frame w).
  - intros svc x w. unfold update_service. destruct (_ !! _); [|done].
    by apply (paced_frame w).
  - intros a d w Ha. apply (paced_frame w); try done. simpl. intros t Hin Hf.
    apply elem_of_app in Hin as [Hin|Hin]; [done|].
    apply list_elem_of_singleton in Hin as ->. simpl in Hf. congruence.
  - intros i r st w Hi. apply (paced_frame w); try done.
    unfold starts. simpl. by apply starts_set_status.
Qed.

Lemma paced_initial room : paced (initial room).
Proof.
  split; [|split].
  - intros s Hs. by apply elem_of_nil in Hs.
  - intros i j a b _ Hi. done.
  - intros t Ht. by apply elem_of_nil in Ht.
Qed.

Lemma paced_run w es : existsb manual es = false → paced w → paced (run w es).
Proof.
  revert w. induction es as [|e es IH]; intros w Hes Hw; [done|].
  simpl in Hes. apply orb_false_iff in Hes as [He Hes].
  simpl. apply IH; [done|]. apply paced_step; [|done]. by intros ->.
Qed.

(** ** Reconnection: the claims *)

Ltac frame_hyps :=
  intros; unfold update_service; repeat case_match; simpl; try done.

Lemma reconnectTimeout_disconnect svc w :
  (disconnect svc w).(reconnectTimeout) = w.(reconnectTimeout).
Proof.
  apply (P_disconnect (λ w', w'.(reconnectTimeout) = w.(reconnectTimeout))); frame_hyps.
Qed.

Lemma reconnectTimeout_initializeWebSocket w :
  (initializeWebSocket w).(reconnectTimeout) = w.(reconnectTimeout).
Proof.
  apply (P_initializeWebSocket (λ w', w'.(reconnectTimeout) = w.(reconnectTimeout)));
    frame_hyps.
Qed.

Lemma reconnectTimeout_reconnectTimerFired w :
  (reconnectTimerFired w).(reconnectTimeout) = Z.min (w.(reconnectTimeout) * 2) 30000.
Proof.
  unfold reconnectTimerFired. cbv zeta.
  set (w1 := match wsService _ with Some _ => _ | None => _ end).
  assert (w1.(reconnectTimeout) = w.(reconnectTimeout)) as H1.
  { unfold w1. destruct (wsService _); [by rewrite reconnectTimeout_disconnect|done]. }
  clearbody w1.
  set (w2 := initializeWebSocket w1).
  assert (w2.(reconnectTimeout) = w.(reconnectTimeout)) as H2.
  { unfold w2. by rewrite reconnectTimeout_initializeWebSocket. }
  clearbody w2. simpl. by rewrite H2.
Qed.

(** [n] reconnects in a row, with no [init] in between. *)
Lemma reconnectTimeout_iter n w :
  0 ≤ w.(reconnectTimeout) ≤ 30000 →
  (Nat.iter n reconnectTimerFired w).(reconnectTimeout)
  = Z.min (w.(reconnectTimeout) * 2 ^ Z.of_nat n) 30000.
Proof.
  intros Hw. induction n as [|n IH].
  - simpl. lia.
  - simpl Nat.iter. rewrite reconnectTimeout_reconnectTimerFired, IH.
    rewrite Nat2Z.inj_succ, Z.pow_succ_r by lia.
    assert (0 ≤ 2 ^ Z.of_nat n) by (apply Z.pow_nonneg; lia).
    nia.
Qed.

Lemma case_init_resets m d c w :
  get_prop m "data" = Normal d → get_prop d "code" = Normal c →
  (fst (case_init m w)).(reconnectTimeout) = 1000 ∧ (fst (case_init m w)).(connected) = true.
Proof.
  intros Hd Hc. unfold case_init. run_js. rewrite Hd. simpl. rewrite Hc. simpl.
  destruct (editorRef w) as [e|] eqn:He; simpl; [|done].
  destruct (negb _); simpl; [|done].
  rewrite editor_setValue_flagged by done. simpl. rewrite He. by destruct c.
Qed.

Lemma onmessage_handler_init m d c w :
  get_prop m "type" = Normal (JStr "init") →
  get_prop m "data" = Normal d → get_prop d "code" = Normal c →
  let w' := fst (onmessage_handler EditorMessage (Parsed m) w) in
  w'.(reconnectTimeout) = 1000 ∧ w'.(connected) = true.
Proof.
  intros Hty Hd Hc w'.
  assert (onMessageCallback m w = case_init m w) as Heq.
  { unfold onMessageCallback, bind at 1, eval at 1. by rewrite Hty. }
  unfold w', onmessage_handler. simpl. rewrite Heq.
  pose proof (case_init_resets m d c w Hd Hc) as H.
  destruct (case_init m w) as [w1 [[]|]]; simpl in *; done.
Qed.

Lemma onCloseCallback_arms w :
  w.(reconnectTimer) = None →
  (onCloseCallback w).(timers)
  = w.(timers) ++ [mkTimer w.(next_timer) (w.(now) + w.(reconnectTimeout)) EditorReconnect].
Proof.
  intros Hn. unfold onCloseCallback, CodeEditor.attemptReconnect. simpl. by rewrite Hn.
Qed.

Lemma socket_opened_resets sid s svc w :
  w.(sockets) !! sid = Some s → s.(readyState) = CONNECTING →
  (socket_opened sid w).(services) !! s.(sock_owner) = Some svc →
  svc.(reconnectAttempts) = 0.
Proof.
  intros Hs Hr. unfold socket_opened. rewrite Hs, Hr.
  unfold onopen, update_service, update_socket. simpl. rewrite Hs. simpl.
  destruct (services w !! sock_owner s) as [s0|] eqn:Hsvc; simpl.
  - rewrite list_lookup_insert_eq by (by eapply lookup_lt_Some). by intros [= <-].
  - by rewrite Hsvc.
Qed.



(** A run in which the session's socket fails again and again: the
    intervals the reconnect timer is armed with. *)
Example backoff_in_a_run :
  map (λ n, (Nat.iter n fail_and_wait (run (initial "R") [Mount])).(reconnectTimeout))
      (seq 0 8)
  = [1000; 2000; 4000; 8000; 16000; 30000; 30000; 30000].
Proof. vm_compute. reflexivity. Qed.

(** After three failures an [init] arrives; the next failure is retried
    after the base interval again. *)
Example backoff_reset_in_a_run :
  let failing := Nat.iter 3 fail_and_wait (run (initial "R") [Mount]) in
  let back := run failing [SocketOpened 6; SocketMessage 6 (init_frame "# start")] in
  current_socket failing = Some 6%nat ∧
  failing.(reconnectTimeout) = 8000 ∧
  back.(reconnectTimeout) = 1000 ∧
  (λ t, (t.(timer_due) - back.(now), t.(timer_action)))
    <$> (run back [SocketClosed 6]).(timers)
  = [(1000, EditorReconnect); (2000, ServiceConnect 3)].
Proof. vm_compute. done. Qed.


(** Up to that point every failure does schedule the next attempt. *)
Example first_five_failures_reschedule :
  map (λ n, reconnect_scheduled 0
              (run lone_service (consecutive_failures n ++ [SocketClosed n])))
      (seq 0 5) = [true; true; true; true; true].
Proof. vm_compute. reflexivity. Qed.



(** The service constants are those of every service of every run. *)
Lemma service_constants_reachable room es svc s :
  (run (initial room) es).(services) !! svc = Some s → service_constants s.
Proof.
  intros Hs. destruct (steady_reachable room es) as [_ Hall].
  by eapply Forall_lookup_1.
Qed.

Lemma sockets_update_service svc f w : (update_service svc f w).(sockets) = w.(sockets).
Proof. unfold update_service. by case_match. Qed.

Lemma update_socket_onclose sid' f sid w :
  (∀ s, onclose (f s) = onclose s) →
  onclose <$> (update_socket sid' f w).(sockets) !! sid = onclose <$> w.(sockets) !! sid.
Proof.
  intros Hf. unfold update_socket.
  destruct (sockets w !! sid') as [s|] eqn:Hs; [|done]. simpl.
  destruct (decide (sid' = sid)) as [->|Hne].
  - rewrite list_lookup_insert_eq by (by eapply lookup_lt_Some).
    rewrite Hs. simpl. by rewrite Hf.
  - by rewrite list_lookup_insert_ne.
Qed.

(** [disconnect] leaves the [onclose] of every socket where it is. *)
Lemma disconnect_keeps_onclose svc sid w :
  onclose <$> (disconnect svc w).(sockets) !! sid = onclose <$> w.(sockets) !! sid.
Proof.
  unfold disconnect. destruct (this_ws svc w) as [s|]; [|done].
  rewrite sockets_update_service. apply update_socket_onclose.
  intros sock. by destruct (readyState sock).
Qed.

(** C2: the session is torn down while connected.  [disconnect] closes
    socket 0 and forgets it, but the socket keeps its [onclose]; when the
    close event arrives both reconnect paths are armed, and two seconds
    later two new sockets exist. *)
Theorem C2_reconnect_after_teardown :
  let torn_down := run session [Unmount] in
  let closed := run torn_down [SocketClosed 0] in
  let later := run closed (wait 2000) in
  readyState <$> torn_down.(sockets) = [CLOSING] ∧
  torn_down.(timers) = [] ∧
  timer_action <$> closed.(timers) = [EditorReconnect; ServiceConnect 0] ∧
  readyState <$> later.(sockets) = [CLOSED; CONNECTING; CONNECTING] ∧
  sock_owner <$> later.(sockets) = [0; 1; 0]%nat.
Proof. vm_compute. done. Qed.

(** A reconnect timer of the service that is armed at teardown is not
    cleared either: the connection fails, the view is torn down half a
    second later, and the service still reconnects. *)
Example service_timer_survives_teardown :
  let failed := run session [SocketClosed 0] in
  let torn_down := run failed (wait 500 ++ [Unmount]) in
  let later := run torn_down (wait 1500) in
  timer_action <$> failed.(timers) = [EditorReconnect; ServiceConnect 0] ∧
  timer_action <$> torn_down.(timers) = [ServiceConnect 0] ∧
  readyState <$> later.(sockets) = [CLOSED; CONNECTING].
Proof. vm_compute. done. Qed.

(** ** The suggestion pipeline: the claims *)

(** [fetchAISuggestions] adds a request and aborts none. *)
Lemma fetchAISuggestions_requests c p w :
  (fetchAISuggestions c p w).(requests)
  = w.(requests) ++ [mkRequest w.(now) c p InFlight].
Proof. done. Qed.

(** The debounce itself: edits at 0 ms and 100 ms give one request, at
    600 ms, from the second edit's text. *)
Example debounce_two_edits :
  let w := run session ([ContentChanged "a"] ++ wait 100 ++ [ContentChanged "ab"]) in
  (run w (wait 499)).(requests) = [] ∧
  (run w (wait 500)).(requests) = [mkRequest 600 "ab" (mkPosition 1 1) InFlight] ∧
  (run w (wait 5000)).(requests) = [mkRequest 600 "ab" (mkPosition 1 1) InFlight].
Proof. vm_compute. done. Qed.

(** An edit that empties the buffer returns before the timer is touched:
    the request of the earlier edit still fires, at 500 ms, with the text
    the buffer no longer has. *)
Example emptying_edit_leaves_timer_armed :
  let w := run session ([ContentChanged "a"] ++ wait 100 ++ [ContentChanged ""] ++ wait 400) in
  value <$> w.(editorRef) = Some "" ∧
  w.(requests) = [mkRequest 500 "a" (mkPosition 1 1) InFlight].
Proof. vm_compute. done. Qed.

(** C6: an edit at 0 ms arms the debounce timer; at 400 ms the user asks
    for suggestions with the button, which starts a request; at 500 ms the
    timer fires and [fetchAISuggestions] starts a second request without
    aborting the first.  Two requests are in flight.  When the first one
    settles its [finally] clears the controller of the second, which the
    next edit can then no longer cancel. *)
Theorem C6_two_requests_in_flight :
  let w := run session ([ContentChanged "a"] ++ wait 400 ++ [ClickAutocomplete] ++ wait 100) in
  let w' := run w ([FetchSettled 0 (Suggestions true)] ++ wait 100 ++ [ContentChanged "ab"]) in
  w.(now) = 500 ∧
  in_flight w = [mkRequest 400 "a" (mkPosition 1 1) InFlight;
                 mkRequest 500 "a" (mkPosition 1 1) InFlight] ∧
  w.(aiRequestController) = Some 1%nat ∧
  w'.(aiRequestController) = None ∧
  in_flight w' = [mkRequest 500 "a" (mkPosition 1 1) InFlight].
Proof. vm_compute. done. Qed.

(** C7, as stated, fails: a request that fails at once re-enables the
    button, and a second click 150 ms after the first starts a second
    request. *)
Lemma C7_counterexample :
  ¬ spaced 500
      (starts (run session ([ClickAutocomplete] ++ wait 5 ++ [FetchSettled 0 NetworkError] ++
                            wait 145 ++ [ClickAutocomplete]))).
Proof.
  intros H. specialize (H 0%nat 1%nat 0 150).
  vm_compute in H. by apply H.
Qed.

Lemma click_starts_request w ed p :
  w.(connected) = true → w.(aiLoading) = false →
  w.(editorRef) = Some ed → ed.(position) = Some p →
  starts (click_autocomplete w) = starts w ++ [w.(now)] ∧
  (click_autocomplete w).(aiRequestController) = Some (length w.(requests)).
Proof.
  intros Hc Hl He Hp. unfold click_autocomplete, requestAutocomplete.
  rewrite Hc, Hl, He, Hp. simpl. unfold starts. simpl. by rewrite fmap_app.
Qed.

(** C7 (amended): the pipeline has no minimum interval of its own; what
    spaces requests is the debounce.  In every run without a manual
    request any two requests start at least 500 ms apart, whatever the
    edits, frames and timers.  A manual request is not limited: whenever
    the button is enabled a click starts a request at once, however
    recent the previous one, and takes over the controller handle. *)
Theorem C7_debounce_is_the_only_limit :
  (∀ room es, existsb manual es = false → spaced 500 (starts (run (initial room) es))) ∧
  (∀ w ed p, w.(connected) = true → w.(aiLoading) = false →
             w.(editorRef) = Some ed → ed.(position) = Some p →
             starts (click_autocomplete w) = starts w ++ [w.(now)] ∧
             (click_autocomplete w).(aiRequestController) = Some (length w.(requests))).
Proof.
  split.
  - intros room es Hes.
    by destruct (paced_run (initial room) es Hes (paced_initial room)) as (_ & ? & _).
  - apply click_starts_request.
Qed.

Lemma C7_debounce_is_the_only_limit_witness :
  let es := [Mount; EditorDidMount; SocketOpened 0; SocketMessage 0 (init_frame "# start");
             ContentChanged "a"] ++ wait 500 ++ [ContentChanged "ab"] ++ wait 500 in
  spaced 500 (starts (run (initial "R") es)) ∧
  starts (click_autocomplete session) = starts session ++ [0].
Proof.
  split.
  - apply (proj1 C7_debounce_is_the_only_limit). vm_compute. reflexivity.
  - refine (proj1 (proj2 C7_debounce_is_the_only_limit session
                     (mkEditor "# start" (Some (mkPosition 1 1)) [] 0 1)
                     (mkPosition 1 1) _ _ _ _)); reflexivity.
Defined.

Example debounced_requests_in_a_run :
  let es := [Mount; EditorDidMount; SocketOpened 0; SocketMessage 0 (init_frame "# start");
             ContentChanged "a"] ++ wait 500 ++ [ContentChanged "ab"] ++ wait 500 in
  starts (run (initial "R") es) = [500; 1000].
Proof. vm_compute. reflexivity. Qed.

(** ** The cursor throttle *)

Section CursorThrottle.

Variables (w : World) (ed : Editor) (svc sid : nat) (first : Position).
Hypothesis editor_mounted : w.(editorRef) = Some ed.
Hypothesis flag_clear : w.(isRemoteChange) = false.
Hypothesis throttle_idle : w.(cursorUpdateThrottle) = None.
Hypothesis no_timer : w.(timers) = [].
Hypothesis service : w.(wsService) = Some svc.
Hypothesis socket : this_ws svc w = Some sid.
Hypothesis socket_open : is_open sid w = true.

(** The world right after the first move: the throttle timer is armed
    with the position of that move. *)
Local Notation "'opened'" := (window_opened first w).

Lemma opened_timers :
  opened.(timers)
  = [mkTimer w.(next_timer) (w.(now) + 100)
       (CursorSend first.(lineNumber) first.(column))].
Proof.
  unfold window_opened, cursor_moved, onDidChangeCursorPosition, sendCursorUpdate.
  rewrite editor_mounted. simpl. rewrite flag_clear, throttle_idle. simpl.
  by rewrite no_timer.
Qed.

Lemma opened_fields :
  opened.(cursorUpdateThrottle) = Some w.(next_timer) ∧
  opened.(isRemoteChange) = false ∧ opened.(now) = w.(now) ∧
  opened.(sent) = w.(sent) ∧ opened.(wsService) = Some svc ∧
  opened.(services) = w.(services) ∧ opened.(sockets) = w.(sockets) ∧
  opened.(editorRef) = Some (set_position (Some first) ed).
Proof.
  unfold window_opened, cursor_moved, onDidChangeCursorPosition, sendCursorUpdate.
  rewrite editor_mounted. simpl. rewrite flag_clear, throttle_idle. simpl.
  by rewrite service.
Qed.

Lemma in_window_start : in_window opened 0 (set_position (Some first) ed) = opened.
Proof.
  destruct opened_fields as (_ & _ & _ & _ & _ & _ & _ & He).
  unfold in_window. simpl. rewrite Z.add_0_r. clear -He.
  destruct (window_opened first w). simpl in *. by subst.
Qed.

(** A move inside the window changes the cursor and nothing else. *)
Lemma moved_in_window k e p :
  cursor_moved p (in_window opened k e) = in_window opened k (set_position (Some p) e).
Proof.
  destruct opened_fields as (Ht & Hf & _).
  unfold cursor_moved, in_window, onDidChangeCursorPosition, sendCursorUpdate. simpl.
  by rewrite Hf, Ht.
Qed.

(** A millisecond inside the window: the timer is not due yet. *)
Lemma tick_in_window k e :
  (k + 1 < 100)%nat → tick (in_window opened k e) = in_window opened (k + 1) e.
Proof.
  intros Hk. destruct opened_fields as (_ & _ & Hn & _).
  unfold tick, in_window. simpl. rewrite opened_timers. simpl.
  unfold fire_timer. simpl. rewrite Hn.
  rewrite bool_decide_eq_false_2 by (intros [_ ?]; lia).
  unfold set_now. simpl. f_equal. lia.
Qed.

Lemma wait_in_window j k e :
  (k + j < 100)%nat → run (in_window opened k e) (wait j) = in_window opened (k + j) e.
Proof.
  revert k. induction j as [|j IH]; intros k Hk.
  - simpl. by rewrite Nat.add_0_r.
  - replace (wait (S j)) with ([Tick] ++ wait j) by done. rewrite run_app.
    change (run (in_window opened k e) [Tick]) with (tick (in_window opened k e)).
    rewrite tick_in_window, IH by lia. f_equal. lia.
Qed.

Lemma rest_in_window rest k e :
  (k + burst_length rest < 100)%nat →
  ∃ e', run (in_window opened k e) (flat_map (λ gp, wait gp.1 ++ [CursorMoved gp.2]) rest)
        = in_window opened (k + burst_length rest) e'.
Proof.
  revert k e. induction rest as [|[gap p] rest IH]; intros k e Hk.
  - exists e. change (burst_length []) with 0%nat. by rewrite Nat.add_0_r.
  - change (burst_length ((gap, p) :: rest)) with (gap + burst_length rest)%nat in *.
    change (flat_map ?f ((gap, p) :: rest))
      with ((wait gap ++ [CursorMoved p]) ++ flat_map f rest).
    rewrite !run_app, wait_in_window by lia.
    change (run ?x [CursorMoved p]) with (cursor_moved p x).
    rewrite moved_in_window.
    destruct (IH (k + gap)%nat (set_position (Some p) e)) as [e' He']; [lia|].
    exists e'. rewrite He'. f_equal. lia.
Qed.

(** The millisecond that ends the window: the timer fires and the
    envelope it sends carries the position it was armed with. *)
Lemma window_ends e :
  let w' := tick (in_window opened 99 e) in
  w'.(sent)
  = w.(sent) ++ [(sid, cursor_update first.(lineNumber) first.(column))] ∧
  w'.(cursorUpdateThrottle) = None ∧ w'.(timers) = [] ∧ w'.(now) = w.(now) + 100.
Proof.
  destruct opened_fields as (_ & _ & Hn & Hsent & Hsvc & Hsvcs & Hsocks & _).
  pose proof opened_timers as Ht.
  set (t := mkTimer _ _ _) in Ht.
  unfold tick. cbv zeta.
  set (w0 := set_now _ (in_window opened 99 e)).
  assert (timers w0 = [t]) as Ht0 by done.
  assert (now w0 = now w + 100) as Hn0 by (unfold w0; simpl; lia).
  rewrite Ht0. simpl. unfold fire_timer. rewrite Ht0, Hn0.
  rewrite bool_decide_eq_true_2 by (split; [apply list_elem_of_here | simpl; lia]).
  set (w2 := clearTimeout (timer_id t) w0).
  assert (timers w2 = []) as Ht2.
  { unfold w2, clearTimeout. simpl. rewrite Ht.
    rewrite filter_cons_False by (intros H; by apply H). done. }
  assert (this_ws svc w2 = Some sid) as Hws.
  { rewrite <- socket. unfold this_ws. simpl. by rewrite Hsvcs. }
  assert (is_open sid w2 = true) as Hopen.
  { rewrite <- socket_open. unfold is_open. simpl. by rewrite Hsocks. }
  assert (wsService w2 = Some svc) as Hsvc2 by done.
  assert (sent w2 = sent w) as Hsent2 by done.
  assert (now w2 = now w + 100) as Hn2 by done.
  clearbody w2. simpl. unfold cursorTimerFired, send. rewrite Hsvc2, Hws, Hopen. simpl.
  by rewrite Hsent2.
Qed.


End CursorThrottle.




(** * Further properties *)

(** ** Invariants of every run, event by event

    A property that survives the passing of a millisecond, the callback of
    every timer that is armed and due, and every other event, holds
    throughout every run that starts in a world where it holds. *)

Section Reachable.

Variable I : World → Prop.

Hypothesis I_clock : ∀ w, I w → I (set_now (w.(now) + 1) w).
Hypothesis I_fired : ∀ t w,
  t ∈ w.(timers) → t.(timer_due) ≤ w.(now) → I w →
  I (run_timer_action t.(timer_action) (clearTimeout t.(timer_id) w)).
Hypothesis I_event : ∀ e w, e ≠ Tick → I w → I (step w e).

Lemma inv_fire_timer t w : I w → I (fire_timer t w).
Proof.
  unfold fire_timer. intros Hw. case_bool_decide as Ht; [|done].
  destruct Ht. by apply I_fired.
Qed.

Lemma inv_tick w : I w → I (tick w).
Proof.
  unfold tick. intros Hw. apply I_clock in Hw.
  generalize dependent (set_now (now w + 1) w). intros w0.
  generalize (timers w0). intros ts. revert w0.
  induction ts as [|t ts IH]; intros w0 Hw0; simpl; [done|].
  apply IH. by apply inv_fire_timer.
Qed.

Lemma inv_step w e : I w → I (step w e).
Proof.
  intros Hw. destruct e; try (by apply I_event). by apply inv_tick.
Qed.

Lemma inv_run w es : I w → I (run w es).
Proof.
  revert w. induction es as [|e es IH]; intros w Hw; [done|].
  simpl. apply IH. by apply inv_step.
Qed.

End Reachable.

(** ** What is sent, and when *)

Lemma this_ws_disconnect svc w : this_ws svc (disconnect svc w) = None.
Proof.
  unfold disconnect. destruct (this_ws svc w) as [sid|] eqn:Hws; [|done].
  unfold this_ws in *. unfold update_service, socket_close, update_socket.
  destruct (sockets w !! sid) as [k|]; simpl;
    (destruct (services w !! svc) as [s|] eqn:Hs; simpl in *; [|done]);
    by rewrite list_lookup_insert_eq by (by eapply lookup_lt_Some).
Qed.

(** X1: after [disconnect()] the service has no socket: a [send] is
    dropped, leaving the frames sent so far as they were and one warning on
    the console, and nothing is kept for later.  A second [disconnect()]
    changes nothing. *)
Theorem send_after_disconnect_is_dropped (svc : nat) (m : Envelope) (w : World) :
  let w' := send svc m (disconnect svc w) in
  w'.(sent) = w.(sent) ∧
  w'.(console) = w.(console) ++ [mkLog LogWarn "WebSocket is not connected. Message not sent:"] ∧
  disconnect svc (disconnect svc w) = disconnect svc w.
Proof.
  pose proof (this_ws_disconnect svc w) as Hnone.
  assert ((disconnect svc w).(sent) = w.(sent)) as Hsent.
  { apply (P_disconnect (λ w', w'.(sent) = w.(sent))); frame_hyps. }
  assert ((disconnect svc w).(console) = w.(console)) as Hcons.
  { apply (P_disconnect (λ w', w'.(console) = w.(console))); frame_hyps. }
  unfold send. rewrite Hnone. simpl. rewrite Hsent, Hcons.
  split; [done|]. split; [done|].
  unfold disconnect at 1. by rewrite Hnone.
Qed.

Lemma sent_triggerAIAutocomplete c p w : (triggerAIAutocomplete c p w).(sent) = w.(sent).
Proof.
  unfold triggerAIAutocomplete, abort, clearTimeout, setTimeout.
  by repeat case_match.
Qed.

Lemma sent_send svc m w :
  (send svc m w).(sent)
  = w.(sent) ++ match open_socket svc w with Some sid => [(sid, m)] | None => [] end.
Proof.
  unfold send, open_socket. destruct (this_ws svc w) as [sid|]; simpl.
  - destruct (is_open sid w); simpl; [done|by rewrite app_nil_r].
  - by rewrite app_nil_r.
Qed.

Lemma nothing_sent (Q : nat * Envelope → Prop) w w' :
  w'.(sent) = w.(sent) →
  ∃ new, sent_since w new w' ∧ (length new ≤ 1)%nat ∧ Forall Q new.
Proof.
  intros H. exists []. unfold sent_since. rewrite app_nil_r.
  split; [done|]. split; [simpl; lia|done].
Qed.

(** An edit sends at most one frame, a [code_update] with the whole text. *)
Lemma sent_content_changed text w :
  ∃ new, sent_since w new (content_changed text w) ∧ (length new ≤ 1)%nat ∧
         Forall (λ se, se.2 = code_update text) new.
Proof.
  unfold content_changed.
  destruct (editorRef w) as [ed|]; [|by apply nothing_sent].
  unfold onDidChangeModelContent. simpl.
  destruct (isRemoteChange w); [by apply nothing_sent|].
  destruct (wsService w) as [svc|] eqn:Hsvc; simpl;
    [|apply nothing_sent; by rewrite sent_triggerAIAutocomplete].
  unfold sent_since. rewrite sent_triggerAIAutocomplete.
  unfold sendCodeUpdate. rewrite sent_send. simpl.
  destruct (open_socket svc _) as [sid|].
  - exists [(sid, code_update text)]. split; [done|]. split; [simpl; lia|].
    by repeat constructor.
  - exists []. split; [done|]. split; [simpl; lia|done].
Qed.

(** The callback of a timer sends at most one frame, a [cursor_update]. *)
Lemma sent_run_timer_action a w :
  ∃ new, sent_since w new (run_timer_action a w) ∧ Forall (λ se, is_cursor_update se.2) new.
Proof.
  unfold sent_since. destruct a as [svc| |line col|c p]; unfold run_timer_action.
  - exists []. rewrite app_nil_r. split; [|done].
    apply (P_connect (λ w', sent w' = sent w)); frame_hyps.
  - exists []. rewrite app_nil_r. split; [|done].
    apply (P_reconnectTimerFired (λ w', sent w' = sent w)); frame_hyps.
  - unfold cursorTimerFired. cbn [sent set_cursorUpdateThrottle].
    destruct (wsService w) as [svc|].
    + rewrite sent_send. eexists. split; [done|].
      destruct (open_socket svc w); [|done].
      repeat constructor. by exists line, col.
    + exists []. by rewrite app_nil_r.
  - exists []. by rewrite app_nil_r.
Qed.

Lemma sent_tick w :
  ∃ new, sent_since w new (tick w) ∧ Forall (λ se, is_cursor_update se.2) new.
Proof.
  apply (inv_tick (λ w', ∃ new, sent_since w new w' ∧
                                 Forall (λ se, is_cursor_update se.2) new)).
  - intros w' (new & Hs & Hf). by exists new.
  - intros t w' _ _ (new & Hs & Hf).
    destruct (sent_run_timer_action (timer_action t) (clearTimeout (timer_id t) w'))
      as (new' & Hs' & Hf').
    exists (new ++ new'). split; [|by apply Forall_app].
    unfold sent_since in *. rewrite Hs'. simpl. rewrite Hs. by rewrite app_assoc.
  - exists []. split; [unfold sent_since; by rewrite app_nil_r|done].
Qed.

Lemma sent_quiet_step w e : may_send e = false → (step w e).(sent) = w.(sent).
Proof.
  intros He. destruct e; try discriminate; simpl.
  - apply (P_initializeWebSocket (λ w', sent w' = sent w)); frame_hyps.
  - done.
  - apply (P_cleanup (λ w', sent w' = sent w)); frame_hyps.
  - apply (P_socket_opened (λ w', sent w' = sent w)); frame_hyps.
  - apply (P_socket_errored (λ w', sent w' = sent w)); frame_hyps.
  - apply (P_socket_closed (λ w', sent w' = sent w)); frame_hyps.
  - apply socket_message_no_echo.
  - apply (P_cursor_moved (λ w', sent w' = sent w)); frame_hyps.
  - unfold click_autocomplete, requestAutocomplete. by repeat case_match.
  - apply (P_suggestionsSettled (λ w', sent w' = sent w)); frame_hyps.
Qed.

(** X2: what the session sends, event by event.  A local edit sends at
    most one frame, a [code_update] with the whole new text; the passing of
    a millisecond sends [cursor_update] frames only, from the throttle
    timer; no other event sends anything, be it the mount, the unmount, a
    socket opening, failing or closing, an inbound frame, a cursor move, a
    click or a settled fetch.  So what was dropped while the socket was
    down is not sent when it opens. *)
Theorem frames_leave_on_edit_or_tick_only (w : World) (e : Event) :
  match e with
  | ContentChanged text =>
      ∃ new, sent_since w new (step w e) ∧ (length new ≤ 1)%nat ∧
             Forall (λ se, se.2 = code_update text) new
  | Tick =>
      ∃ new, sent_since w new (step w e) ∧ Forall (λ se, is_cursor_update se.2) new
  | _ => (step w e).(sent) = w.(sent)
  end.
Proof.
  destruct e; try (by apply sent_quiet_step).
  - apply sent_tick.
  - apply sent_content_changed.
Qed.

Lemma sent_step_shape w e :
  Forall (λ se, outbound_shape se.2) w.(sent) →
  Forall (λ se, outbound_shape se.2) (step w e).(sent).
Proof.
  intros Hw. destruct (may_send e) eqn:He.
  - destruct e; try discriminate.
    + destruct (sent_tick w) as (new & -> & Hf). apply Forall_app. split; [done|].
      eapply Forall_impl; [exact Hf|]. intros se ?. by right.
    + destruct (sent_content_changed text w) as (new & -> & _ & Hf).
      apply Forall_app. split; [done|].
      eapply Forall_impl; [exact Hf|]. intros se ->. left. by exists text.
  - by rewrite sent_quiet_step.
Qed.

(** X3: in every run, every frame the session has sent is either
    [{type: 'code_update', data: {code}}] with a string or
    [{type: 'cursor_update', data: {position: {line, column}}}], and none
    names its sender: the data carries no [user_id].  [sendCursorPosition]
    and its type [cursor_position] are never used. *)
Theorem outbound_envelopes_are_of_two_shapes (room : string) (es : list Event) :
  Forall (λ se, outbound_shape se.2 ∧
                get_prop se.2.(env_data) "user_id" = Normal JUndefined)
    (run (initial room) es).(sent).
Proof.
  assert (Forall (λ se, outbound_shape se.2) (run (initial room) es).(sent)) as Hall.
  { apply (inv_run (λ w, Forall (λ se, outbound_shape se.2) w.(sent))).
    - done.
    - intros t w _ _ Hw.
      destruct (sent_run_timer_action (timer_action t) (clearTimeout (timer_id t) w))
        as (new & -> & Hf).
      apply Forall_app. split; [done|].
      eapply Forall_impl; [exact Hf|]. intros se ?. by right.
    - intros e w _. apply sent_step_shape.
    - constructor. }
  eapply Forall_impl; [exact Hall|]. intros se Hse. split; [done|].
  by destruct Hse as [(text & ->)|(line & col & ->)].
Qed.

(** ** Timers *)

Lemma NoDup_fmap_filter {A B} (f : A → B) (P : A → Prop) `{∀ x, Decision (P x)} l :
  NoDup (f <$> l) → NoDup (f <$> filter P l).
Proof.
  induction l as [|x l IH]; [done|].
  rewrite fmap_cons, NoDup_cons. intros [Hx Hl]. rewrite filter_cons.
  destruct (decide (P x)); [|by apply IH].
  rewrite fmap_cons, NoDup_cons. split; [|by apply IH].
  intros Hin. apply Hx. apply list_elem_of_fmap in Hin as (y & -> & Hy).
  apply list_elem_of_filter in Hy as [_ Hy]. by apply list_elem_of_fmap_2.
Qed.

Lemma handle_frame k w w' :
  w'.(reconnectTimer) = w.(reconnectTimer) →
  w'.(cursorUpdateThrottle) = w.(cursorUpdateThrottle) →
  w'.(aiDebounceTimer) = w.(aiDebounceTimer) →
  handle k w' = handle k w.
Proof. intros H1 H2 H3. destruct k; simpl; congruence. Qed.

(** Nothing of a kind is armed: its handle may then hold anything. *)
Lemma disciplined_rehandle k w w' :
  w'.(timers) = w.(timers) → w'.(next_timer) = w.(next_timer) →
  armed k w = [] →
  (∀ k', k' ≠ k → handle k' w' = handle k' w) →
  disciplined w → disciplined w'.
Proof.
  intros Ht Hn Hk Hh [Hall Hnd]. unfold disciplined. rewrite Ht, Hn. split; [|done].
  rewrite Forall_forall in Hall. apply Forall_forall. intros t Hin.
  destruct (Hall t Hin) as [Hlt Hnamed]. split; [done|].
  unfold named. rewrite Hh; [done|]. intros Heq.
  assert (t ∈ armed k w) as Hin' by (by apply list_elem_of_filter).
  rewrite Hk in Hin'. by apply elem_of_nil in Hin'.
Qed.

Lemma disciplined_frame w w' :
  w'.(timers) = w.(timers) → w'.(next_timer) = w.(next_timer) →
  w'.(reconnectTimer) = w.(reconnectTimer) →
  w'.(cursorUpdateThrottle) = w.(cursorUpdateThrottle) →
  w'.(aiDebounceTimer) = w.(aiDebounceTimer) →
  disciplined w → disciplined w'.
Proof.
  intros Ht Hn H1 H2 H3 [Hall Hnd]. unfold disciplined. rewrite Ht, Hn. split; [|done].
  eapply Forall_impl; [exact Hall|]. intros t [Hlt Hnamed]. split; [done|].
  unfold named. by rewrite (handle_frame _ w w').
Qed.

Lemma disciplined_clearTimeout id w : disciplined w → disciplined (clearTimeout id w).
Proof.
  intros [Hall Hnd]. split; simpl.
  - rewrite Forall_forall in Hall. apply Forall_forall. intros t Hin.
    apply list_elem_of_filter in Hin as [_ Hin]. by apply Hall.
  - by apply NoDup_fmap_filter.
Qed.

(** A handle that is empty, or whose timer has just been disarmed, leaves
    no timer of its kind armed. *)
Lemma armed_cleared k h w :
  disciplined w → handle k w = Some h →
  armed k (match h with Some t => clearTimeout t w | None => w end) = [].
Proof.
  intros [Hall _] Hh. rewrite Forall_forall in Hall.
  apply elem_of_nil_inv. intros t Hin.
  apply list_elem_of_filter in Hin as [Hk Hin].
  assert (t ∈ timers w ∧ (∀ id, h = Some id → timer_id t ≠ id)) as [Hin' Hne].
  { destruct h as [id|]; simpl in Hin.
    - apply list_elem_of_filter in Hin as [? ?]. split; [done|]. by intros ? [= <-].
    - done. }
  destruct (Hall t Hin') as [_ Hnamed]. unfold named in Hnamed.
  rewrite Hk in Hnamed. specialize (Hnamed h Hh). subst h. by eapply Hne.
Qed.

(** Arming a timer of the component and storing its handle, when none of
    its kind is armed. *)
Lemma disciplined_armed a due w w' :
  armed (kind a) w = [] →
  w'.(timers) = w.(timers) ++ [mkTimer w.(next_timer) due a] →
  w'.(next_timer) = S w.(next_timer) →
  handle (kind a) w' = Some (Some w.(next_timer)) →
  (∀ k, k ≠ kind a → handle k w' = handle k w) →
  disciplined w → disciplined w'.
Proof.
  intros Hk Ht Hn Hh Hother [Hall Hnd]. unfold disciplined. rewrite Ht, Hn.
  rewrite Forall_forall in Hall. split.
  - apply Forall_app. split.
    + apply Forall_forall. intros t Hin. destruct (Hall t Hin) as [Hlt Hnamed].
      split; [lia|]. unfold named. rewrite Hother; [done|]. intros Heq.
      assert (t ∈ armed (kind a) w) as Hin' by (by apply list_elem_of_filter).
      rewrite Hk in Hin'. by apply elem_of_nil in Hin'.
    + apply Forall_singleton. split; simpl; [lia|]. unfold named. simpl.
      rewrite Hh. by intros ? [= <-].
  - rewrite fmap_app. apply NoDup_app. split; [done|]. split; [|apply NoDup_singleton].
    intros id Hin Hin'. apply list_elem_of_singleton in Hin'. subst id.
    apply list_elem_of_fmap in Hin as (t & Hid & Hin).
    destruct (Hall t Hin) as [Hlt _]. simpl in *. lia.
Qed.

(** The service keeps no handle, so arming its timer needs nothing. *)
Lemma disciplined_service_timer svc d w :
  disciplined w → disciplined (snd (setTimeout (ServiceConnect svc) d w)).
Proof.
  intros [Hall Hnd]. unfold disciplined. simpl.
  rewrite Forall_forall in Hall. split.
  - apply Forall_app. split.
    + apply Forall_forall. intros t Hin. destruct (Hall t Hin) as [Hlt Hnamed].
      split; [lia|done].
    + apply Forall_singleton. split; simpl; [lia|]. by intros h.
  - rewrite fmap_app. apply NoDup_app. split; [done|]. split; [|apply NoDup_singleton].
    intros id Hin Hin'. apply list_elem_of_singleton in Hin'. subst id.
    apply list_elem_of_fmap in Hin as (t & Hid & Hin).
    destruct (Hall t Hin) as [Hlt _]. simpl in *. lia.
Qed.

Ltac timer_frames :=
  intros; unfold update_service; repeat case_match; try done;
  try (eapply disciplined_frame; [..|eassumption]; done).

Lemma disciplined_sendCursorUpdate l c w : disciplined w → disciplined (sendCursorUpdate l c w).
Proof.
  intros Hw. unfold sendCursorUpdate.
  destruct (cursorUpdateThrottle w) as [h|] eqn:Hh; [done|].
  pose proof (armed_cleared CursorWindow None w Hw) as Hnone. simpl in Hnone.
  rewrite Hh in Hnone. specialize (Hnone eq_refl).
  by apply (disciplined_armed (CursorSend l c) (now w + 100) w); [..|intros []|].
Qed.

Lemma disciplined_attemptReconnect w : disciplined w → disciplined (CodeEditor.attemptReconnect w).
Proof.
  intros Hw. unfold CodeEditor.attemptReconnect.
  destruct (reconnectTimer w) as [h|] eqn:Hh; [done|].
  pose proof (armed_cleared SessionRetry None w Hw) as Hnone. simpl in Hnone.
  rewrite Hh in Hnone. specialize (Hnone eq_refl).
  by apply (disciplined_armed EditorReconnect (now w + reconnectTimeout w) w);
    [..|intros []|].
Qed.

Lemma disciplined_triggerAIAutocomplete c p w :
  disciplined w → disciplined (triggerAIAutocomplete c p w).
Proof.
  intros Hw. unfold triggerAIAutocomplete.
  destruct p as [p|]; [|done]. destruct (_ =? _)%nat; [done|].
  pose proof (armed_cleared FetchDebounce (aiDebounceTimer w) w Hw eq_refl) as Hnone.
  set (w1 := match aiDebounceTimer w with Some t => clearTimeout t w | None => w end) in *.
  assert (disciplined w1) as Hw1.
  { unfold w1. destruct (aiDebounceTimer w); [by apply disciplined_clearTimeout|done]. }
  set (w2 := match aiRequestController w1 with Some ctrl => abort ctrl w1 | None => w1 end).
  assert (timers w2 = timers w1 ∧ next_timer w2 = next_timer w1 ∧
          reconnectTimer w2 = reconnectTimer w1 ∧
          cursorUpdateThrottle w2 = cursorUpdateThrottle w1 ∧
          aiDebounceTimer w2 = aiDebounceTimer w1) as (Ht & Hn & H1 & H2 & H3).
  { unfold w2, abort. by repeat case_match. }
  assert (disciplined w2) as Hw2 by (by apply (disciplined_frame w1)).
  assert (armed FetchDebounce w2 = []) as Hnone2 by (unfold armed; by rewrite Ht).
  clearbody w2 w1.
  by apply (disciplined_armed (SuggestionFetch c p) (now w2 + 500) w2);
    [..|intros []|].
Qed.

Lemma disciplined_service_attemptReconnect svc w :
  disciplined w → disciplined (WebSocketService.attemptReconnect svc w).
Proof.
  intros Hw. unfold WebSocketService.attemptReconnect.
  destruct (services w !! svc) as [s|] eqn:Hs; [|done].
  destruct (Z.ltb _ _); [|by timer_frames].
  apply disciplined_service_timer. unfold update_service. rewrite Hs.
  by apply (disciplined_frame w).
Qed.

Lemma idle_frame k w w' :
  w'.(timers) = w.(timers) → w'.(next_timer) = w.(next_timer) →
  w'.(reconnectTimer) = w.(reconnectTimer) →
  w'.(cursorUpdateThrottle) = w.(cursorUpdateThrottle) →
  w'.(aiDebounceTimer) = w.(aiDebounceTimer) →
  idle k w → idle k w'.
Proof.
  intros Ht Hn H1 H2 H3 [Hw Hk]. split; [by apply (disciplined_frame w)|].
  unfold armed. by rewrite Ht.
Qed.

Lemma idle_rehandle k w w' :
  w'.(timers) = w.(timers) → w'.(next_timer) = w.(next_timer) →
  (∀ k', k' ≠ k → handle k' w' = handle k' w) →
  idle k w → idle k w'.
Proof.
  intros Ht Hn Hh [Hw Hk]. split; [by apply (disciplined_rehandle k w)|].
  unfold armed. by rewrite Ht.
Qed.

Ltac idle_frames :=
  intros; unfold update_service; repeat case_match; try done;
  try (eapply idle_frame; [..|eassumption]; done).

(** The callbacks of the component's timers, run when no timer of their
    kind is armed any more: they may empty the handle. *)
Lemma idle_reconnectTimerFired w :
  idle SessionRetry w → idle SessionRetry (reconnectTimerFired w).
Proof.
  revert w. apply P_reconnectTimerFired; try solve [idle_frames].
  intros x w. apply idle_rehandle; [done|done|by intros []].
Qed.

Lemma idle_cursorTimerFired l c w :
  idle CursorWindow w → idle CursorWindow (cursorTimerFired l c w).
Proof.
  revert w. apply P_cursorTimerFired; try solve [idle_frames].
  intros x w. apply idle_rehandle; [done|done|by intros []].
Qed.

Lemma disciplined_connect svc w : disciplined w → disciplined (connect svc w).
Proof. revert w. apply P_connect; timer_frames. Qed.

(** The callbacks as the event loop runs them: the timer that fired is
    disarmed first, and with it every timer of its kind. *)
Lemma disciplined_fired t w :
  t ∈ w.(timers) → disciplined w →
  disciplined (run_timer_action t.(timer_action) (clearTimeout t.(timer_id) w)).
Proof.
  intros Hin Hw.
  assert (∀ h, handle (kind (timer_action t)) w = Some h →
               armed (kind (timer_action t)) (clearTimeout (timer_id t) w) = []) as Hnone.
  { intros h Hh. pose proof Hw as [Hall Hnd]. rewrite Forall_forall in Hall.
    destruct (Hall t Hin) as [_ Hnamed]. rewrite (Hnamed h Hh) in Hh.
    exact (armed_cleared _ _ w Hw Hh). }
  apply (disciplined_clearTimeout (timer_id t)) in Hw.
  set (w0 := clearTimeout (timer_id t) w) in *. clearbody w0.
  destruct (timer_action t) as [svc| |line col|c p]; unfold run_timer_action.
  - by apply disciplined_connect.
  - apply idle_reconnectTimerFired. split; [done|]. by apply (Hnone (reconnectTimer w)).
  - apply idle_cursorTimerFired. split; [done|]. by apply (Hnone (cursorUpdateThrottle w)).
  - by apply (disciplined_frame w0).
Qed.

Lemma disciplined_onCloseCallback w : disciplined w → disciplined (onCloseCallback w).
Proof.
  intros Hw. unfold onCloseCallback. apply disciplined_attemptReconnect.
  by apply (disciplined_frame w).
Qed.

Lemma disciplined_event e w : e ≠ Tick → disciplined w → disciplined (step w e).
Proof.
  intros He Hw. destruct e; unfold step.
  - revert Hw. generalize w. apply P_initializeWebSocket; timer_frames.
  - by apply (disciplined_frame w).
  - revert Hw. generalize w. apply P_cleanup;
      auto using disciplined_clearTimeout; timer_frames.
  - revert Hw. generalize w. apply P_socket_opened; timer_frames.
  - revert Hw. generalize w. apply P_socket_errored; timer_frames.
  - unfold socket_closed.
    destruct (sockets w !! sid) as [s|] eqn:Hs; [|done].
    assert (disciplined (update_socket sid (set_readyState CLOSED) w)) as Hw'.
    { unfold update_socket. rewrite Hs. by apply (disciplined_frame w). }
    destruct (readyState s); try done;
      (destruct (onclose s) as [|[]];
       [ apply disciplined_service_attemptReconnect; by eapply disciplined_frame
       | apply disciplined_service_attemptReconnect, disciplined_onCloseCallback; done ]).
  - pose proof (socket_message_wiring sid frame w) as Hwi.
    apply (disciplined_frame w); try done.
    + exact (f_equal wi_timers Hwi).
    + exact (f_equal wi_next_timer Hwi).
    + exact (f_equal wi_reconnectTimer Hwi).
    + exact (f_equal wi_cursorUpdateThrottle Hwi).
    + exact (f_equal wi_aiDebounceTimer Hwi).
  - done.
  - unfold cursor_moved. destruct (editorRef w) as [ed|]; [|done].
    unfold onDidChangeCursorPosition. cbn [isRemoteChange set_editorRef].
    destruct (isRemoteChange w); [by apply (disciplined_frame w)|].
    apply disciplined_sendCursorUpdate. by apply (disciplined_frame w).
  - revert Hw. generalize w. apply P_content_changed;
      auto using disciplined_triggerAIAutocomplete; timer_frames.
  - unfold click_autocomplete, requestAutocomplete.
    repeat case_match; try done; by apply (disciplined_frame w).
  - revert Hw. generalize w. apply P_suggestionsSettled; timer_frames.
Qed.

Lemma disciplined_run room es : disciplined (run (initial room) es).
Proof.
  apply (inv_run disciplined).
  - intros w. by apply (disciplined_frame w).
  - intros t w Hin _. by apply disciplined_fired.
  - apply disciplined_event.
  - split; [constructor|]. simpl. constructor.
Qed.

Lemma armed_at_most_one k h w :
  disciplined w → handle k w = Some h → (length (armed k w) ≤ 1)%nat.
Proof.
  intros Hw Hh. pose proof Hw as [Hall Hnd]. rewrite Forall_forall in Hall.
  assert (∀ t, t ∈ armed k w → h = Some (timer_id t)) as Hid.
  { intros t Hin. apply list_elem_of_filter in Hin as [Hk Hin].
    destruct (Hall t Hin) as [_ Hnamed]. apply Hnamed. by rewrite Hk. }
  pose proof (NoDup_fmap_filter timer_id (λ t, kind (timer_action t) = k) _ Hnd) as Hnd'.
  fold (armed k w) in Hnd'.
  destruct (armed k w) as [|t1 [|t2 l]]; simpl; [lia|lia|].
  exfalso.
  pose proof (Hid t1 ltac:(by constructor)) as H1.
  pose proof (Hid t2 ltac:(by do 2 constructor)) as H2.
  rewrite H1 in H2. injection H2 as H2.
  rewrite !fmap_cons, H2 in Hnd'. apply NoDup_cons in Hnd' as [Hnin _].
  apply Hnin. by constructor.
Qed.

(** X4: in every run timer handles are never reused and every armed
    reconnect, throttle or debounce timer of the component is the one its
    ref names; so at most one of each is armed at any time. *)
Theorem one_timer_per_handle (room : string) (es : list Event) :
  let w := run (initial room) es in
  disciplined w ∧
  (length (armed SessionRetry w) ≤ 1)%nat ∧
  (length (armed CursorWindow w) ≤ 1)%nat ∧
  (length (armed FetchDebounce w) ≤ 1)%nat.
Proof.
  intros w. pose proof (disciplined_run room es) as Hw. fold w in Hw.
  split; [done|].
  split; [by apply (armed_at_most_one _ (reconnectTimer w))|].
  split; [by apply (armed_at_most_one _ (cursorUpdateThrottle w))|].
  by apply (armed_at_most_one _ (aiDebounceTimer w)).
Qed.

(** What the cleanup leaves armed was armed before, and is named by none
    of the three handles. *)
Lemma timers_cleanup w t :
  t ∈ (cleanup w).(timers) →
  t ∈ w.(timers) ∧ w.(reconnectTimer) ≠ Some t.(timer_id) ∧
  w.(cursorUpdateThrottle) ≠ Some t.(timer_id) ∧ w.(aiDebounceTimer) ≠ Some t.(timer_id).
Proof.
  unfold cleanup. cbv zeta.
  set (w1 := match reconnectTimer w with Some h => clearTimeout h w | None => w end).
  assert ((∀ t, t ∈ timers w1 → t ∈ timers w ∧ reconnectTimer w ≠ Some (timer_id t)) ∧
          cursorUpdateThrottle w1 = cursorUpdateThrottle w ∧
          aiDebounceTimer w1 = aiDebounceTimer w) as (H1 & Hc1 & Ha1).
  { unfold w1. destruct (reconnectTimer w) as [h|]; [|done].
    split; [|done]. intros t' Hin. simpl in Hin.
    apply list_elem_of_filter in Hin as [Hne Hin]. split; [done|]. by intros [= ->]. }
  clearbody w1.
  set (w2 := match cursorUpdateThrottle w1 with Some h => clearTimeout h w1 | None => w1 end).
  assert ((∀ t, t ∈ timers w2 → t ∈ timers w1 ∧ cursorUpdateThrottle w1 ≠ Some (timer_id t)) ∧
          aiDebounceTimer w2 = aiDebounceTimer w1) as (H2 & Ha2).
  { unfold w2. destruct (cursorUpdateThrottle w1) as [h|]; [|done].
    split; [|done]. intros t' Hin. simpl in Hin.
    apply list_elem_of_filter in Hin as [Hne Hin]. split; [done|]. by intros [= ->]. }
  clearbody w2.
  set (w3 := match aiDebounceTimer w2 with Some h => clearTimeout h w2 | None => w2 end).
  assert (∀ t, t ∈ timers w3 → t ∈ timers w2 ∧ aiDebounceTimer w2 ≠ Some (timer_id t)) as H3.
  { unfold w3. destruct (aiDebounceTimer w2) as [h|]; [|done].
    intros t' Hin. simpl in Hin.
    apply list_elem_of_filter in Hin as [Hne Hin]. split; [done|]. by intros [= ->]. }
  clearbody w3.
  set (w4 := match aiRequestController w3 with Some c => abort c w3 | None => w3 end).
  assert (timers w4 = timers w3) as H4.
  { unfold w4, abort. by repeat case_match. }
  clearbody w4.
  assert (timers (match wsService w4 with Some svc => disconnect svc w4 | None => w4 end)
          = timers w4) as H5.
  { destruct (wsService w4) as [svc|]; [|done].
    apply (P_disconnect (λ w', timers w' = timers w4)); frame_hyps. }
  rewrite H5, H4. intros Hin.
  destruct (H3 t Hin) as [Hin2 Hn3]. destruct (H2 t Hin2) as [Hin1 Hn2].
  destruct (H1 t Hin1) as [Hin0 Hn1]. split; [done|]. split; [done|].
  split; congruence.
Qed.

(** X5: when the component unmounts, at any point of any run, its
    cleanup leaves none of its reconnect, throttle and debounce timers
    armed: the timers that remain are reconnects of a [WebSocketService]. *)
Theorem unmount_disarms_the_component (room : string) (es : list Event) :
  let w := run (initial room) (es ++ [Unmount]) in
  Forall (λ t, kind t.(timer_action) = ServiceRetry) w.(timers).
Proof.
  intros w. unfold w. rewrite run_snoc.
  pose proof (disciplined_run room es) as [Hall _].
  set (w0 := run (initial room) es) in *. clearbody w0.
  change (step w0 Unmount) with (cleanup w0).
  rewrite Forall_forall in Hall. apply Forall_forall. intros t Hin.
  apply timers_cleanup in Hin as (Hin & Hr & Hc & Ha).
  destruct (Hall t Hin) as [_ Hnamed]. unfold named in Hnamed.
  destruct (kind (timer_action t)); [done|..]; simpl in Hnamed;
    by specialize (Hnamed _ eq_refl).
Qed.

(** ** The services of a session *)

Lemma sound_frame w w' :
  w'.(services) = w.(services) → w'.(prop_roomId) = w.(prop_roomId) →
  service_sound w → service_sound w'.
Proof. unfold service_sound. by intros -> ->. Qed.

Lemma sound_update_service svc f w :
  (∀ s, w.(services) !! svc = Some s →
        sound_service w.(prop_roomId) s → sound_service w.(prop_roomId) (f s)) →
  service_sound w → service_sound (update_service svc f w).
Proof.
  intros Hf Hw. unfold update_service.
  destruct (services w !! svc) as [s|] eqn:Hs; [|done].
  unfold service_sound in *. simpl. apply Forall_insert; [done|].
  apply Hf; [done|]. by eapply Forall_lookup_1.
Qed.

Ltac sound_frames :=
  intros; try (apply sound_update_service; [by intros ? _ (?&?&?&?)|done]);
  try (eapply sound_frame; [..|eassumption]; done).

Lemma sound_connect svc w : service_sound w → service_sound (connect svc w).
Proof. revert w. apply P_connect; sound_frames. Qed.

Lemma sound_disconnect svc w : service_sound w → service_sound (disconnect svc w).
Proof. revert w. apply P_disconnect; sound_frames. Qed.

(** [new WebSocketService(roomId)], called with the room of the
    component. *)
Lemma sound_initializeWebSocket w :
  service_sound w → service_sound (initializeWebSocket w).
Proof.
  intros Hw. unfold initializeWebSocket, WebSocketService.new. cbv zeta.
  set (w1 := connect _ _).
  assert (service_sound w1) as Hw1.
  { apply sound_connect. unfold service_sound in *. simpl.
    apply Forall_app. split; [done|]. apply Forall_singleton.
    unfold sound_service. simpl. repeat split; (done || lia). }
  clearbody w1.
  set (w2 := set_wsService _ w1).
  assert (service_sound w2) as Hw2 by (by apply (sound_frame w1)).
  clearbody w2.
  assert (∀ w', service_sound w' →
                service_sound (onMessage (length (services w)) EditorMessage w')) as Hm.
  { apply P_onMessage; sound_frames. }
  assert (∀ w', service_sound w' →
                service_sound (onClose (length (services w)) EditorClose w')) as Hc.
  { apply P_onClose; sound_frames. }
  by apply Hc, Hm.
Qed.

(** The guard of [attemptReconnect] keeps the counter within the limit. *)
Lemma sound_service_attemptReconnect svc w :
  service_sound w → service_sound (WebSocketService.attemptReconnect svc w).
Proof.
  intros Hw. unfold WebSocketService.attemptReconnect.
  destruct (services w !! svc) as [s|] eqn:Hs; [|done].
  destruct (Z.ltb_spec (reconnectAttempts s) (maxReconnectAttempts s)) as [Hlt|Hge].
  - apply (sound_frame (update_service svc (set_reconnectAttempts (reconnectAttempts s + 1)) w));
      [done|done|].
    apply sound_update_service; [|done].
    intros s' Hs' (Ha & Hm & Hd & Hr). rewrite Hs in Hs'. injection Hs' as <-.
    unfold sound_service. simpl. repeat split; (done || lia).
  - by apply (sound_frame w).
Qed.

Lemma sound_onopen svc w : service_sound w → service_sound (onopen svc w).
Proof.
  intros Hw. unfold onopen. apply sound_update_service; [|by apply (sound_frame w)].
  intros s _ (Ha & Hm & Hd & Hr). unfold sound_service. simpl.
  repeat split; (done || lia).
Qed.

Lemma sound_fired a w : service_sound w → service_sound (run_timer_action a w).
Proof.
  intros Hw. destruct a as [svc| |line col|c p]; unfold run_timer_action.
  - by apply sound_connect.
  - unfold reconnectTimerFired. cbv zeta.
    set (w1 := initializeWebSocket _).
    assert (service_sound w1) as Hw1.
    { apply sound_initializeWebSocket.
      destruct (wsService _); [apply sound_disconnect|]; by apply (sound_frame w). }
    clearbody w1. by apply (sound_frame w1).
  - revert Hw. generalize w. apply P_cursorTimerFired; sound_frames.
  - by apply (sound_frame w).
Qed.

Lemma sound_event e w : e ≠ Tick → service_sound w → service_sound (step w e).
Proof.
  intros He Hw. destruct e; unfold step.
  - by apply sound_initializeWebSocket.
  - by apply (sound_frame w).
  - revert Hw. generalize w. apply P_cleanup; sound_frames.
  - unfold socket_opened. destruct (sockets w !! sid) as [s|] eqn:Hs; [|done].
    destruct (readyState s); try done. apply sound_onopen.
    unfold update_socket. rewrite Hs. by apply (sound_frame w).
  - revert Hw. generalize w. apply P_socket_errored; sound_frames.
  - unfold socket_closed. destruct (sockets w !! sid) as [s|] eqn:Hs; [|done].
    assert (service_sound (update_socket sid (set_readyState CLOSED) w)) as Hw'.
    { unfold update_socket. rewrite Hs. by apply (sound_frame w). }
    assert (∀ w', service_sound w' → service_sound (onCloseCallback w')) as Hcb.
    { apply P_onCloseCallback; sound_frames. }
    destruct (readyState s); try done;
      (destruct (onclose s) as [|[]];
       [ apply sound_service_attemptReconnect; by eapply sound_frame
       | apply sound_service_attemptReconnect, Hcb; done ]).
  - revert Hw. generalize w. apply P_socket_message; sound_frames.
    + unfold triggerAIAutocomplete, abort, clearTimeout, setTimeout.
      repeat case_match; try done; by eapply sound_frame.
  - done.
  - revert Hw. generalize w. apply P_cursor_moved; sound_frames.
  - revert Hw. generalize w. apply P_content_changed; sound_frames.
    + unfold triggerAIAutocomplete, abort, clearTimeout, setTimeout.
      repeat case_match; try done; by eapply sound_frame.
  - unfold click_autocomplete, requestAutocomplete.
    repeat case_match; try done; by apply (sound_frame w).
  - revert Hw. generalize w. apply P_suggestionsSettled; sound_frames.
Qed.

Lemma sound_run room es : service_sound (run (initial room) es).
Proof.
  apply (inv_run service_sound).
  - intros w. by apply (sound_frame w).
  - intros t w _ _ Hw. apply sound_fired. by apply (sound_frame w).
  - apply sound_event.
  - constructor.
Qed.

Lemma prop_roomId_run w es : (run w es).(prop_roomId) = w.(prop_roomId).
Proof.
  apply (inv_run (λ w', prop_roomId w' = prop_roomId w)); [done| | |done].
  - intros t w' _ _ Hw'. destruct (timer_action t); unfold run_timer_action.
    + apply (P_connect (λ w', prop_roomId w' = prop_roomId w)); frame_hyps.
    + apply (P_reconnectTimerFired (λ w', prop_roomId w' = prop_roomId w)); frame_hyps.
    + apply (P_cursorTimerFired (λ w', prop_roomId w' = prop_roomId w)); frame_hyps.
    + done.
  - intros e w' _ Hw'.
    destruct (manual e) eqn:Hm.
    + destruct e; try discriminate. unfold step, click_autocomplete, requestAutocomplete.
      by repeat case_match.
    + apply (P_step (λ w', prop_roomId w' = prop_roomId w)); try frame_hyps.
      * unfold triggerAIAutocomplete, abort, clearTimeout, setTimeout.
        by repeat case_match.
      * by intros ->.
Qed.


(** ** Remote cursors *)

Lemma filter_ext_elem {A} (P Q : A → Prop) `{∀ x, Decision (P x), ∀ x, Decision (Q x)}
    (l : list A) :
  (∀ x, x ∈ l → (P x ↔ Q x)) → filter P l = filter Q l.
Proof.
  induction l as [|a l IH]; intros Hl; [done|].
  assert (filter P l = filter Q l) as Heq.
  { apply IH. intros x Hx. apply Hl. by constructor. }
  pose proof (Hl a ltac:(by constructor)) as Ha.
  rewrite !filter_cons. rewrite Heq.
  destruct (decide (P a)), (decide (Q a)); tauto.
Qed.

Lemma NoDup_fmap_elem_inj {A B} (f : A → B) (l : list A) x y :
  NoDup (f <$> l) → x ∈ l → y ∈ l → f x = f y → x = y.
Proof.
  induction l as [|a l IH]; intros Hnd Hx Hy Hf; [by apply elem_of_nil in Hx|].
  rewrite fmap_cons in Hnd. apply NoDup_cons in Hnd as [Ha Hnd].
  apply elem_of_cons in Hx as [->|Hx]; apply elem_of_cons in Hy as [->|Hy].
  - done.
  - exfalso. apply Ha. rewrite Hf. by apply list_elem_of_fmap_2.
  - exfalso. apply Ha. rewrite <- Hf. by apply list_elem_of_fmap_2.
  - by apply IH.
Qed.

Lemma tidy_frame w w' :
  painted w' = painted w → w'.(remoteUsers) = w.(remoteUsers) → tidy w → tidy w'.
Proof.
  unfold tidy, painted. intros Hp Hu. rewrite Hu.
  destruct (editorRef w') as [ed'|], (editorRef w) as [ed|]; simpl in Hp; try done.
  injection Hp as Hd Hn. unfold tidy_editor. by rewrite Hd, Hn.
Qed.

(** On a tidy editor, the decorations an entry lists are exactly the
    decorations of its user. *)
Lemma release_known s u ed users :
  tidy_editor ed users → users !! s = Some u →
  release u.(user_decorations) ed.(decorations) = cursors_of_others s ed.
Proof.
  intros (HA & HB & HC) Hu. unfold release, cursors_of_others.
  apply filter_ext_elem. intros d Hd.
  destruct (HB s u Hu) as (d0 & Hd0 & Hs0 & Hl0). rewrite Hl0. split.
  - intros Hnot Hs. apply Hnot.
    destruct (HA d Hd) as [_ (u' & Hu' & Hl')]. rewrite Hs, Hu in Hu'.
    injection Hu' as <-. rewrite Hl0 in Hl'. injection Hl' as ->. by constructor.
  - intros Hs Hin. apply list_elem_of_singleton in Hin.
    apply Hs. by rewrite (NoDup_fmap_elem_inj dec_id _ d d0 HC Hd Hd0 Hin).
Qed.

Lemma release_unknown s ed users :
  tidy_editor ed users → users !! s = None →
  release [] ed.(decorations) = cursors_of_others s ed.
Proof.
  intros (HA & HB & HC) Hu. unfold release, cursors_of_others.
  apply filter_ext_elem. intros d Hd. split.
  - intros _ Hs. destruct (HA d Hd) as [_ (u' & Hu' & _)]. rewrite Hs, Hu in Hu'. done.
  - intros _ Hin. by apply elem_of_nil in Hin.
Qed.

(** Painting the cursor of [s] on a tidy editor. *)
Lemma tidy_editor_paint s u line col label ed users :
  tidy_editor ed users → u.(user_decorations) = [ed.(next_decoration)] →
  tidy_editor
    (mkEditor ed.(value) ed.(position)
       (cursors_of_others s ed ++ [mkDecoration ed.(next_decoration) line col s label])
       (S ed.(next_decoration)) ed.(setValue_calls))
    (<[s := u]> users).
Proof.
  intros (HA & HB & HC) Hu. unfold tidy_editor. simpl. split; [|split].
  - intros d Hd. apply elem_of_app in Hd as [Hd|Hd].
    + apply list_elem_of_filter in Hd as [Hs Hd].
      destruct (HA d Hd) as [Hlt Hown]. split; [lia|].
      by rewrite lookup_insert_ne.
    + apply list_elem_of_singleton in Hd as ->. simpl. split; [lia|].
      exists u. by rewrite lookup_insert_eq.
  - intros s' u' Hu'. destruct (decide (s = s')) as [<-|Hne].
    + rewrite lookup_insert_eq in Hu'. injection Hu' as <-.
      eexists. split; [apply elem_of_app; right; by constructor|]. done.
    + rewrite lookup_insert_ne in Hu' by done.
      destruct (HB s' u' Hu') as (d & Hd & Hs & Hl).
      exists d. split; [|done]. apply elem_of_app. left.
      apply list_elem_of_filter. split; [congruence|done].
  - rewrite fmap_app. apply NoDup_app. split; [by apply NoDup_fmap_filter|].
    split; [|apply NoDup_singleton].
    intros id Hin Hin'. apply list_elem_of_singleton in Hin'. simpl in Hin'. subst id.
    apply list_elem_of_fmap in Hin as (d & Hid & Hd).
    apply list_elem_of_filter in Hd as [_ Hd]. destruct (HA d Hd) as [Hlt _]. lia.
Qed.

(** Removing the cursor of [s] from a tidy editor. *)
Lemma tidy_editor_clear s ed users :
  tidy_editor ed users →
  tidy_editor
    (mkEditor ed.(value) ed.(position) (cursors_of_others s ed)
       ed.(next_decoration) ed.(setValue_calls))
    (delete s users).
Proof.
  intros (HA & HB & HC). unfold tidy_editor. simpl. split; [|split].
  - intros d Hd. apply list_elem_of_filter in Hd as [Hs Hd].
    destruct (HA d Hd) as [Hlt Hown]. split; [done|].
    by rewrite lookup_delete_ne.
  - intros s' u' Hu'. destruct (decide (s = s')) as [<-|Hne].
    + by rewrite lookup_delete_eq in Hu'.
    + rewrite lookup_delete_ne in Hu' by done.
      destruct (HB s' u' Hu') as (d & Hd & Hs & Hl).
      exists d. split; [|done]. apply list_elem_of_filter. split; [congruence|done].
  - by apply NoDup_fmap_filter.
Qed.

(** [updateRemoteCursor] on a tidy editor, for a position whose fields
    can be read: the user's old decoration goes, one new decoration
    comes, and the user's entry lists it. *)
Lemma updateRemoteCursor_effect s name pos line col w ed :
  w.(editorRef) = Some ed → tidy_editor ed w.(remoteUsers) →
  get_prop pos "line" = Normal line → get_prop pos "column" = Normal col →
  let r := updateRemoteCursor (JStr s) name pos w in
  snd r = Normal tt ∧
  (fst r).(editorRef) =
    Some (mkEditor ed.(value) ed.(position)
            (cursors_of_others s ed ++ [mkDecoration ed.(next_decoration) line col s name])
            (S ed.(next_decoration)) ed.(setValue_calls)) ∧
  ∃ u, (fst r).(remoteUsers) = <[s := u]> w.(remoteUsers) ∧
       u.(user_decorations) = [ed.(next_decoration)] ∧
       u.(user_position) = pos ∧
       match w.(remoteUsers) !! s with
       | Some u0 => u.(color) = u0.(color) ∧ u.(userName) = u0.(userName)
       | None => getUserColor (JStr s) = Normal u.(color) ∧ u.(userName) = name
       end.
Proof.
  intros He Ht Hl Hc. unfold updateRemoteCursor. run_js. rewrite He. simpl.
  destruct (remoteUsers w !! s) as [u|] eqn:Hu; simpl; rewrite Hl; simpl; rewrite Hc; simpl.
  - rewrite (release_known s u ed _ Ht Hu). split; [done|]. split; [done|].
    eexists. split; [done|]. done.
  - rewrite (release_unknown s ed _ Ht Hu). split; [done|]. split; [done|].
    eexists. split; [apply insert_insert_eq|]. done.
Qed.

Lemma tidy_updateRemoteCursor s name pos line col w :
  get_prop pos "line" = Normal line → get_prop pos "column" = Normal col →
  tidy w → tidy (fst (updateRemoteCursor (JStr s) name pos w)).
Proof.
  intros Hl Hc Hw. unfold tidy in Hw.
  destruct (editorRef w) as [ed|] eqn:He.
  - destruct (updateRemoteCursor_effect s name pos line col w ed He Hw Hl Hc)
      as (_ & He' & u & Hu' & Hd & _).
    unfold tidy. rewrite He', Hu'. by apply tidy_editor_paint.
  - unfold updateRemoteCursor. run_js. rewrite He. simpl. unfold tidy. by rewrite He.
Qed.

(** A truthy position is not [undefined] or [null]: its fields can be
    read. *)
Lemma truthy_get_prop v k : truthy v = true → ∃ x, get_prop v k = Normal x.
Proof. destruct v; simpl; try done; by eexists. Qed.

Lemma tidy_case_cursor_update m w : tidy w → tidy (fst (case_cursor_update m w)).
Proof.
  intros Hw. unfold case_cursor_update. run_js.
  destruct (get_prop m "data") as [d|]; simpl; [|done].
  destruct (get_prop d "user_id") as [uid|]; simpl; [|done].
  destruct (truthy uid) eqn:Huid; simpl; [|done].
  destruct (get_prop d "position") as [pos|]; simpl; [|done].
  destruct (truthy pos) eqn:Hpos; simpl; [|done].
  destruct (get_prop d "user_name") as [name|]; simpl; [|done].
  destruct (truthy_get_prop pos "line" Hpos) as (line & Hl).
  destruct (truthy_get_prop pos "column" Hpos) as (col & Hc).
  destruct uid as [| | | |s|];
    try (unfold updateRemoteCursor; run_js; by destruct (editorRef w)).
  by apply (tidy_updateRemoteCursor s _ pos line col).
Qed.

Lemma tidy_removeRemoteCursor uid w : tidy w → tidy (removeRemoteCursor uid w).
Proof.
  intros Hw. unfold removeRemoteCursor.
  destruct (editorRef w) as [ed|] eqn:He; [|done].
  destruct uid as [| | | |s|]; try done.
  destruct (remoteUsers w !! s) as [u|] eqn:Hu; [|done].
  unfold tidy in *. rewrite He in Hw. simpl. unfold deltaDecorations_clear.
  rewrite (release_known s u ed _ Hw Hu). by apply tidy_editor_clear.
Qed.

Lemma tidy_case_user_joined_left ty m w :
  tidy w → tidy (fst (case_user_joined_left ty m w)).
Proof.
  intros Hw. unfold case_user_joined_left. run_js.
  destruct (get_prop m "data") as [d|]; simpl; [|done].
  destruct (get_prop d "user_count") as [n|]; simpl; [|done].
  assert (tidy (setUserCount n w)) as Hw' by (by apply (tidy_frame w)).
  destruct (strict_eq_str ty "user_left"); simpl; [|done].
  destruct (get_prop d "user_id") as [uid|]; simpl; [|done].
  destruct (truthy uid); simpl; [|done].
  by apply tidy_removeRemoteCursor.
Qed.

(** The two cases that write the buffer leave the decorations and the
    users alone. *)
Lemma case_init_painted m w :
  painted (fst (case_init m w)) = painted w ∧
  (fst (case_init m w)).(remoteUsers) = w.(remoteUsers).
Proof.
  unfold case_init. run_js.
  destruct (get_prop m "data") as [d|]; simpl; [|done].
  destruct (get_prop d "code") as [c|]; simpl; [|done].
  destruct (editorRef w) as [e|] eqn:He; simpl; [|by unfold painted; simpl; rewrite He].
  destruct (negb _); simpl; [|by unfold painted; simpl; rewrite He].
  rewrite editor_setValue_flagged by done. simpl. rewrite He.
  destruct c; simpl; unfold painted; simpl; by rewrite He.
Qed.

Lemma case_code_update_painted m w :
  painted (fst (case_code_update m w)) = painted w ∧
  (fst (case_code_update m w)).(remoteUsers) = w.(remoteUsers).
Proof.
  unfold case_code_update. run_js.
  destruct (get_prop m "data") as [d|]; simpl; [|done].
  destruct (get_prop d "code") as [c|]; simpl; [|done].
  destruct (editorRef w) as [e|] eqn:He; simpl; [|by unfold painted; simpl; rewrite He].
  destruct (negb _); simpl; [|by unfold painted; simpl; rewrite He].
  rewrite editor_setValue_flagged by done. simpl. rewrite He.
  destruct c; simpl; unfold painted; simpl; by rewrite He.
Qed.

Lemma tidy_onMessageCallback m w : tidy w → tidy (fst (onMessageCallback m w)).
Proof.
  intros Hw. unfold onMessageCallback. unfold bind at 1, eval at 1.
  destruct (get_prop m "type") as [ty|]; [|done].
  repeat case_match; auto using tidy_case_cursor_update, tidy_case_user_joined_left.
  - destruct (case_init_painted m w). by apply (tidy_frame w).
  - destruct (case_code_update_painted m w). by apply (tidy_frame w).
Qed.

Lemma tidy_onmessage_handler cb frame w :
  tidy w → tidy (fst (onmessage_handler cb frame w)).
Proof.
  intros Hw. unfold onmessage_handler.
  destruct frame as [|m]; [by apply (tidy_frame w)|].
  destruct cb. simpl.
  pose proof (tidy_onMessageCallback m w Hw) as H'.
  destruct (onMessageCallback m w) as [w' [[]|]]; simpl in *; [done|].
  by apply (tidy_frame w').
Qed.

Lemma tidy_socket_message sid frame w : tidy w → tidy (socket_message sid frame w).
Proof.
  intros Hw. unfold socket_message. repeat case_match; auto using tidy_onmessage_handler.
Qed.

(** Until the editor is mounted no handler gets hold of it. *)
Lemma unmounted_onMessageCallback m w :
  w.(editorRef) = None → (fst (onMessageCallback m w)).(editorRef) = None.
Proof.
  intros He. unfold onMessageCallback. unfold bind at 1, eval at 1.
  destruct (get_prop m "type") as [ty|]; [|done].
  repeat case_match; try done.
  - unfold case_init. run_js.
    destruct (get_prop m "data") as [d|]; simpl; [|done].
    destruct (get_prop d "code") as [c|]; simpl; [|done]. by rewrite He.
  - unfold case_code_update. run_js.
    destruct (get_prop m "data") as [d|]; simpl; [|done].
    destruct (get_prop d "code") as [c|]; simpl; [|done]. by rewrite He.
  - unfold case_cursor_update. run_js.
    destruct (get_prop m "data") as [d|]; simpl; [|done].
    destruct (get_prop d "user_id") as [uid|]; simpl; [|done].
    destruct (truthy uid); simpl; [|done].
    destruct (get_prop d "position") as [pos|]; simpl; [|done].
    destruct (truthy pos); simpl; [|done].
    destruct (get_prop d "user_name") as [name|]; simpl; [|done].
    unfold updateRemoteCursor. run_js. by rewrite He.
  - unfold case_user_joined_left. run_js.
    destruct (get_prop m "data") as [d|]; simpl; [|done].
    destruct (get_prop d "user_count") as [n|]; simpl; [|done].
    destruct (strict_eq_str ty "user_left"); simpl; [|done].
    destruct (get_prop d "user_id") as [uid|]; simpl; [|done].
    destruct (truthy uid); simpl; [|done].
    unfold removeRemoteCursor. simpl. by rewrite He.
Qed.

Lemma unmounted_socket_message sid frame w :
  w.(editorRef) = None → (socket_message sid frame w).(editorRef) = None.
Proof.
  intros He. unfold socket_message. repeat case_match; try done.
  unfold onmessage_handler.
  match goal with |- context [match ?f with Unparseable => _ | Parsed _ => _ end] =>
    destruct f as [|msg] end; [done|].
  match goal with cb : MessageCallback |- _ => destruct cb end. simpl.
  pose proof (unmounted_onMessageCallback msg w He) as H'.
  by destruct (onMessageCallback msg w) as [w' [[]|]].
Qed.

Lemma painted_triggerAIAutocomplete c p w :
  painted (triggerAIAutocomplete c p w) = painted w ∧
  (triggerAIAutocomplete c p w).(remoteUsers) = w.(remoteUsers).
Proof.
  unfold triggerAIAutocomplete, abort, clearTimeout, setTimeout.
  by repeat case_match.
Qed.

Ltac painted_frames :=
  intros; unfold update_service; repeat case_match; simpl; try done;
  try (destruct_and?; split; congruence).

(** Events other than the mounting of the editor and the arrival of a
    frame leave the decorations and the users as they are. *)
Lemma painted_fired a w :
  painted (run_timer_action a w) = painted w ∧
  (run_timer_action a w).(remoteUsers) = w.(remoteUsers).
Proof.
  destruct a; unfold run_timer_action.
  - apply (P_connect (λ w', painted w' = painted w ∧ remoteUsers w' = remoteUsers w));
      painted_frames.
  - apply (P_reconnectTimerFired
             (λ w', painted w' = painted w ∧ remoteUsers w' = remoteUsers w));
      painted_frames.
  - apply (P_cursorTimerFired
             (λ w', painted w' = painted w ∧ remoteUsers w' = remoteUsers w));
      painted_frames.
  - done.
Qed.

Lemma painted_tick w :
  painted (tick w) = painted w ∧ (tick w).(remoteUsers) = w.(remoteUsers).
Proof.
  apply (inv_tick (λ w', painted w' = painted w ∧ remoteUsers w' = remoteUsers w)).
  - done.
  - intros t w' _ _ [Hp Hu].
    destruct (painted_fired (timer_action t) (clearTimeout (timer_id t) w')) as [Hp' Hu'].
    split; [by rewrite Hp'|by rewrite Hu'].
  - done.
Qed.

Lemma painted_step e w :
  match e with
  | EditorDidMount | SocketMessage _ _ => True
  | _ => painted (step w e) = painted w ∧ (step w e).(remoteUsers) = w.(remoteUsers)
  end.
Proof.
  destruct e; try done; unfold step.
  - apply (P_initializeWebSocket
             (λ w', painted w' = painted w ∧ remoteUsers w' = remoteUsers w));
      painted_frames.
  - apply (P_cleanup (λ w', painted w' = painted w ∧ remoteUsers w' = remoteUsers w));
      painted_frames.
  - apply (P_socket_opened (λ w', painted w' = painted w ∧ remoteUsers w' = remoteUsers w));
      painted_frames.
  - apply (P_socket_errored
             (λ w', painted w' = painted w ∧ remoteUsers w' = remoteUsers w));
      painted_frames.
  - apply (P_socket_closed (λ w', painted w' = painted w ∧ remoteUsers w' = remoteUsers w));
      painted_frames.
  - apply painted_tick.
  - unfold cursor_moved. destruct (editorRef w) as [ed|] eqn:He; [|done].
    apply (P_onDidChangeCursorPosition
             (λ w', painted w' = painted w ∧ remoteUsers w' = remoteUsers w));
      [painted_frames..|].
    unfold painted. simpl. by rewrite He.
  - unfold content_changed. destruct (editorRef w) as [ed|] eqn:He; [|done].
    apply (P_onDidChangeModelContent
             (λ w', painted w' = painted w ∧ remoteUsers w' = remoteUsers w));
      [try solve [painted_frames]..|].
    + intros c p w' [Hp Hu]. destruct (painted_triggerAIAutocomplete c p w').
      split; congruence.
    + unfold painted. simpl. by rewrite He.
  - unfold click_autocomplete, requestAutocomplete. by repeat case_match.
  - apply (P_suggestionsSettled
             (λ w', painted w' = painted w ∧ remoteUsers w' = remoteUsers w));
      painted_frames.
Qed.

Lemma tidy_painted w w' :
  painted w' = painted w ∧ w'.(remoteUsers) = w.(remoteUsers) →
  tidy w → tidy w' ∧ (w.(editorRef) = None → w'.(editorRef) = None).
Proof.
  intros [Hp Hu] Hw. split; [by apply (tidy_frame w)|].
  unfold painted in Hp. intros Hnone. rewrite Hnone in Hp.
  by destruct (editorRef w').
Qed.

Lemma tidy_step e w :
  mounts_editor e = false → tidy w →
  tidy (step w e) ∧ (w.(editorRef) = None → (step w e).(editorRef) = None).
Proof.
  intros He Hw. pose proof (painted_step e w) as Hp.
  destruct e; try discriminate; try (by apply tidy_painted).
  split; [by apply tidy_socket_message|by apply unmounted_socket_message].
Qed.

Lemma tidy_quiet_run es w :
  existsb mounts_editor es = false → tidy w →
  tidy (run w es) ∧ (w.(editorRef) = None → (run w es).(editorRef) = None).
Proof.
  revert w. induction es as [|e es IH]; intros w Hes Hw; [done|].
  simpl in Hes. apply orb_false_iff in Hes as [He Hes].
  destruct (tidy_step e w He Hw) as [Hw' Hn'].
  destruct (IH (step w e) Hes Hw') as [Hw'' Hn'']. simpl. split; [done|]. auto.
Qed.

Lemma tidy_handleEditorDidMount w :
  w.(editorRef) = None → tidy w → tidy (handleEditorDidMount w).
Proof.
  intros He Hw. unfold tidy in *. rewrite He in Hw. simpl. rewrite Hw.
  split; [|split].
  - intros d Hd. by apply elem_of_nil in Hd.
  - intros s u Hu. by rewrite lookup_empty in Hu.
  - constructor.
Qed.

(** A run in which the editor mounts at most once. *)
Lemma tidy_run room es1 es2 :
  existsb mounts_editor es1 = false → existsb mounts_editor es2 = false →
  tidy (run (initial room) es1) ∧ tidy (run (initial room) (es1 ++ EditorDidMount :: es2)).
Proof.
  intros H1 H2.
  destruct (tidy_quiet_run es1 (initial room) H1 eq_refl) as [Hw1 Hn1].
  split; [done|]. rewrite run_app. simpl.
  apply tidy_quiet_run; [done|]. apply tidy_handleEditorDidMount; auto.
Qed.

(** On a tidy editor a user in the map has one decoration, and a user
    not in the map has none. *)
Lemma tidy_editor_count s ed users :
  tidy_editor ed users →
  length (cursors_of s ed) = match users !! s with Some _ => 1%nat | None => 0%nat end.
Proof.
  intros (HA & HB & HC). unfold cursors_of.
  destruct (users !! s) as [u|] eqn:Hu.
  - destruct (HB s u Hu) as (d0 & Hd0 & Hs0 & Hl0).
    assert (∀ d, d ∈ filter (λ d, dec_user d = s) (decorations ed) → d = d0) as Hall.
    { intros d Hd. apply list_elem_of_filter in Hd as [Hs Hd].
      destruct (HA d Hd) as [_ (u' & Hu' & Hl')]. rewrite Hs, Hu in Hu'.
      injection Hu' as <-. rewrite Hl0 in Hl'. injection Hl' as Hid.
      by apply (NoDup_fmap_elem_inj dec_id (decorations ed)). }
    assert (d0 ∈ filter (λ d, dec_user d = s) (decorations ed)) as Hin
      by (by apply list_elem_of_filter).
    pose proof (NoDup_fmap_1 _ _ (NoDup_fmap_filter dec_id (λ d, dec_user d = s) _ HC))
      as Hnd.
    destruct (filter _ _) as [|a [|b l]]; [by apply elem_of_nil in Hin|done|].
    exfalso. apply NoDup_cons in Hnd as [Hnin _]. apply Hnin.
    rewrite (Hall a ltac:(by constructor)), (Hall b ltac:(by do 2 constructor)).
    by constructor.
  - destruct (filter _ _) as [|a l] eqn:Hf; [done|]. exfalso.
    assert (a ∈ filter (λ d, dec_user d = s) (decorations ed)) as Hin
      by (rewrite Hf; by constructor).
    apply list_elem_of_filter in Hin as [Hs Hd].
    destruct (HA a Hd) as [_ (u' & Hu' & _)]. rewrite Hs, Hu in Hu'. done.
Qed.



Lemma onMessageCallback_user_left m w :
  get_prop m "type" = Normal (JStr "user_left") →
  onMessageCallback m w = case_user_joined_left (JStr "user_left") m w.
Proof. intros Hty. unfold onMessageCallback, bind at 1, eval at 1. by rewrite Hty. Qed.

Lemma onMessageCallback_cursor_update m w :
  get_prop m "type" = Normal (JStr "cursor_update") →
  onMessageCallback m w = case_cursor_update m w.
Proof. intros Hty. unfold onMessageCallback, bind at 1, eval at 1. by rewrite Hty. Qed.

(** X8: [user_left] with an identifier that is a non-empty string,
    anywhere in such a run.  The user count is set and the user's entry is
    gone; the editor keeps the decorations of the other users, in order,
    and its text, and has none of the user that left.  For an identifier
    that is not in the map the editor is left as it is. *)
Theorem user_left_removes_the_cursor
    (room : string) (es1 es2 : list Event) (m d n : jsval) (s : string) :
  existsb mounts_editor es1 = false → existsb mounts_editor es2 = false →
  get_prop m "type" = Normal (JStr "user_left") →
  get_prop m "data" = Normal d →
  get_prop d "user_count" = Normal n →
  get_prop d "user_id" = Normal (JStr s) → s ≠ "" →
  let w := run (initial room) (es1 ++ EditorDidMount :: es2) in
  let w' := fst (onmessage_handler EditorMessage (Parsed m) w) in
  w'.(userCount) = n ∧
  w'.(remoteUsers) = delete s w.(remoteUsers) ∧
  (∀ ed, w.(editorRef) = Some ed →
     ∃ ed', w'.(editorRef) = Some ed' ∧
            ed'.(decorations) = cursors_of_others s ed ∧
            cursors_of s ed' = [] ∧ ed'.(value) = ed.(value)) ∧
  (w.(remoteUsers) !! s = None → w'.(editorRef) = w.(editorRef)).
Proof.
  intros H1 H2 Hty Hd Hn Hid Hs w w'.
  destruct (tidy_run room es1 es2 H1 H2) as [_ Hw]. fold w in Hw. clearbody w.
  unfold w', onmessage_handler. simpl. rewrite onMessageCallback_user_left by done.
  assert (truthy (JStr s) = true) as Htr by (by destruct s).
  unfold case_user_joined_left. run_js. rewrite Hd. simpl. rewrite Hn. simpl.
  rewrite Hid. cbn [strict_eq_str String.eqb Ascii.eqb Bool.eqb]. rewrite Htr.
  unfold removeRemoteCursor. simpl. unfold tidy in Hw.
  destruct (editorRef w) as [ed|] eqn:He; simpl.
  - destruct (remoteUsers w !! s) as [u|] eqn:Hu; simpl.
    + split; [done|]. split; [done|]. split; [|done].
      intros ? [= <-]. eexists. split; [done|]. simpl.
      rewrite (release_known s u ed _ Hw Hu). split; [done|]. split; [|done].
      unfold cursors_of, cursors_of_others. simpl.
      apply elem_of_nil_inv. intros x Hx.
      apply list_elem_of_filter in Hx as [Hx Hx'].
      rewrite (release_known s u ed _ Hw Hu) in Hx'.
      by apply list_elem_of_filter in Hx' as [Hx' _].
    + split; [done|]. split; [by rewrite delete_id|]. split; [|by rewrite He].
      intros ? [= <-]. exists ed. split; [by rewrite He|].
      rewrite <- (release_unknown s ed _ Hw Hu).
      assert (release [] (decorations ed) = decorations ed) as Hrel.
      { unfold release. induction (decorations ed) as [|a l IH]; [done|].
        rewrite filter_cons_True by (intros Hin; by apply elem_of_nil in Hin).
        by rewrite IH. }
      split; [done|]. split; [|done].
      unfold cursors_of. apply elem_of_nil_inv. intros x Hx.
      apply list_elem_of_filter in Hx as [Hx Hx'].
      destruct Hw as (HA & _). destruct (HA x Hx') as [_ (u' & Hu' & _)].
      rewrite Hx, Hu in Hu'. done.
  - rewrite He. split; [done|]. split; [by rewrite Hw, delete_empty|]. done.
Qed.

Lemma user_left_removes_the_cursor_witness :
  let w := run (initial "R")
             ([Mount] ++ EditorDidMount ::
              [SocketOpened 0;
               SocketMessage 0 (Parsed (cursor_update_message "u1" "Ann" 2 5))]) in
  let w' := fst (onmessage_handler EditorMessage (Parsed (user_left_message "u1" 1)) w) in
  w'.(userCount) = JNum 1 ∧
  w'.(remoteUsers) = delete "u1" w.(remoteUsers) ∧
  (∀ ed, w.(editorRef) = Some ed →
     ∃ ed', w'.(editorRef) = Some ed' ∧
            ed'.(decorations) = cursors_of_others "u1" ed ∧
            cursors_of "u1" ed' = [] ∧ ed'.(value) = ed.(value)) ∧
  (w.(remoteUsers) !! "u1" = None → w'.(editorRef) = w.(editorRef)).
Proof.
  apply (user_left_removes_the_cursor "R" [Mount] _ (user_left_message "u1" 1)
           (JObj [("user_id", JStr "u1"); ("user_count", JNum 1)]) (JNum 1) "u1");
    (reflexivity || discriminate).
Defined.

(** X9: [cursor_update] with an identifier that is a non-empty string
    and a position with a line and a column, anywhere in such a run.  The
    decorations of the other users stay, in order; the user has exactly one
    decoration, at the line and column of the payload, labelled with the
    name in the payload or with Anonymous; the user's entry lists that
    decoration and holds the position; a user already known keeps color and
    name, a new one gets the color [getUserColor] gives.  The text is
    untouched and nothing is sent. *)
Theorem cursor_update_moves_the_cursor
    (room : string) (es1 es2 : list Event) (m d pos name : jsval) (line col : Z)
    (s : string) :
  existsb mounts_editor es1 = false → existsb mounts_editor es2 = false →
  get_prop m "type" = Normal (JStr "cursor_update") →
  get_prop m "data" = Normal d →
  get_prop d "user_id" = Normal (JStr s) → s ≠ "" →
  get_prop d "position" = Normal pos →
  get_prop pos "line" = Normal (JNum line) → get_prop pos "column" = Normal (JNum col) →
  get_prop d "user_name" = Normal name →
  let w := run (initial room) (es1 ++ EditorDidMount :: es2) in
  let w' := fst (onmessage_handler EditorMessage (Parsed m) w) in
  let label := js_or name (JStr "Anonymous") in
  let cursor n := mkDecoration n (JNum line) (JNum col) s label in
  w'.(sent) = w.(sent) ∧
  ∀ ed, w.(editorRef) = Some ed →
    ∃ ed' u,
      w'.(editorRef) = Some ed' ∧
      ed'.(decorations) = cursors_of_others s ed ++ [cursor ed.(next_decoration)] ∧
      cursors_of s ed' = [cursor ed.(next_decoration)] ∧
      ed'.(value) = ed.(value) ∧
      w'.(remoteUsers) = <[s := u]> w.(remoteUsers) ∧
      u.(user_decorations) = [ed.(next_decoration)] ∧
      u.(user_position) = pos ∧
      match w.(remoteUsers) !! s with
      | Some u0 => u.(color) = u0.(color) ∧ u.(userName) = u0.(userName)
      | None => getUserColor (JStr s) = Normal u.(color) ∧ u.(userName) = label
      end.
Proof.
  intros H1 H2 Hty Hd Hid Hs Hpos Hl Hc Hname w w' label cursor.
  assert (truthy pos = true) as Htp by (by destruct pos).
  destruct (tidy_run room es1 es2 H1 H2) as [_ Hw]. fold w in Hw. clearbody w.
  split.
  { pose proof (onmessage_handler_wiring EditorMessage (Parsed m) w) as Hwi.
    exact (f_equal wi_sent Hwi). }
  intros ed He. unfold tidy in Hw. rewrite He in Hw.
  assert (truthy (JStr s) = true) as Htr by (by destruct s).
  assert (w' = fst (updateRemoteCursor (JStr s) label pos w)) as ->.
  { unfold w', onmessage_handler. simpl. rewrite onMessageCallback_cursor_update by done.
    unfold case_cursor_update. unfold bind at 1, eval at 1. rewrite Hd.
    unfold bind at 1, eval at 1. rewrite Hid. rewrite Htr.
    unfold bind at 1, eval at 1. rewrite Hpos. rewrite Htp.
    unfold bind at 1, eval at 1. rewrite Hname. fold label.
    destruct (updateRemoteCursor_effect s label pos _ _ w ed He Hw Hl Hc) as [Hn _].
    revert Hn. destruct (updateRemoteCursor (JStr s) label pos w) as [w1 c]. simpl.
    by intros ->. }
  destruct (updateRemoteCursor_effect s label pos _ _ w ed He Hw Hl Hc)
    as (_ & He' & u & Hu' & Hd' & Hp' & Hc').
  eexists _, u. split; [exact He'|]. simpl. split; [done|]. split; [|done].
  unfold cursors_of. simpl. rewrite filter_app.
  assert (filter (λ d0, dec_user d0 = s) (cursors_of_others s ed) = []) as ->.
  { apply elem_of_nil_inv. intros x Hx. apply list_elem_of_filter in Hx as [Hx Hx'].
    by apply list_elem_of_filter in Hx' as [Hx' _]. }
  by rewrite filter_cons_True.
Qed.

Lemma cursor_update_moves_the_cursor_witness :
  let w := run (initial "R")
             ([Mount] ++ EditorDidMount ::
              [SocketOpened 0;
               SocketMessage 0 (Parsed (cursor_update_message "u1" "Ann" 2 5))]) in
  let w' := fst (onmessage_handler EditorMessage
                   (Parsed (cursor_update_message "u1" "Ann" 7 3)) w) in
  let label := js_or (JStr "Ann") (JStr "Anonymous") in
  let cursor n := mkDecoration n (JNum 7) (JNum 3) "u1" label in
  w'.(sent) = w.(sent) ∧
  ∀ ed, w.(editorRef) = Some ed →
    ∃ ed' u,
      w'.(editorRef) = Some ed' ∧
      ed'.(decorations) = cursors_of_others "u1" ed ++ [cursor ed.(next_decoration)] ∧
      cursors_of "u1" ed' = [cursor ed.(next_decoration)] ∧
      ed'.(value) = ed.(value) ∧
      w'.(remoteUsers) = <["u1" := u]> w.(remoteUsers) ∧
      u.(user_decorations) = [ed.(next_decoration)] ∧
      u.(user_position) = JObj [("line", JNum 7); ("column", JNum 3)] ∧
      match w.(remoteUsers) !! "u1" with
      | Some u0 => u.(color) = u0.(color) ∧ u.(userName) = u0.(userName)
      | None => getUserColor (JStr "u1") = Normal u.(color) ∧ u.(userName) = label
      end.
Proof.
  apply (cursor_update_moves_the_cursor "R" [Mount] _
           (cursor_update_message "u1" "Ann" 7 3)
           (JObj [("user_id", JStr "u1"); ("user_name", JStr "Ann");
                  ("position", JObj [("line", JNum 7); ("column", JNum 3)])])
           (JObj [("line", JNum 7); ("column", JNum 3)]) (JStr "Ann") 7 3 "u1");
    (reflexivity || discriminate).
Defined.

(** ** Text in both directions *)

Lemma onMessageCallback_init m w :
  get_prop m "type" = Normal (JStr "init") → onMessageCallback m w = case_init m w.
Proof. intros Hty. unfold onMessageCallback, bind at 1, eval at 1. by rewrite Hty. Qed.

Lemma onMessageCallback_code_update m w :
  get_prop m "type" = Normal (JStr "code_update") →
  onMessageCallback m w = case_code_update m w.
Proof. intros Hty. unfold onMessageCallback, bind at 1, eval at 1. by rewrite Hty. Qed.

(** What [init] and [code_update] do with a string payload when the
    editor is mounted. *)
Lemma remote_text_applied ty m d text w ed :
  ty = "init" ∨ ty = "code_update" →
  get_prop m "type" = Normal (JStr ty) →
  get_prop m "data" = Normal d →
  get_prop d "code" = Normal (JStr text) →
  w.(editorRef) = Some ed →
  let w' := fst (onmessage_handler EditorMessage (Parsed m) w) in
  w'.(editorRef)
    = Some (mkEditor text ed.(position) ed.(decorations) ed.(next_decoration)
              (if String.eqb text ed.(value) then ed.(setValue_calls)
               else S ed.(setValue_calls))) ∧
  w'.(code) = JStr text ∧
  w'.(console) = w.(console) ∧
  (w.(isRemoteChange) = false → w'.(isRemoteChange) = false).
Proof.
  intros Hty Htype Hd Hc He w'. unfold w', onmessage_handler. simpl.
  destruct Hty as [-> | ->].
  - rewrite onMessageCallback_init by done.
    unfold case_init. run_js. rewrite Hd. simpl. rewrite Hc. simpl. rewrite He. simpl.
    destruct (String.eqb_spec text (value ed)) as [Heq|Hne]; simpl.
    + rewrite He. subst text. by destruct ed.
    + rewrite editor_setValue_flagged by done. simpl. rewrite He. simpl. done.
  - rewrite onMessageCallback_code_update by done.
    unfold case_code_update. run_js. rewrite Hd. simpl. rewrite Hc. simpl. rewrite He. simpl.
    destruct (String.eqb_spec text (value ed)) as [Heq|Hne]; simpl.
    + rewrite He. subst text. by destruct ed.
    + rewrite editor_setValue_flagged by done. simpl. rewrite He. simpl. done.
Qed.



(** X11: a [cursor_update] whose [user_id] or [position] is missing or
    falsy changes nothing at all.  The envelope this client sends for its
    own cursor names no user, so a client that receives it as it was sent
    ignores it. *)
Theorem cursor_update_needs_sender_and_position (m d uid pos : jsval) (w : World) :
  get_prop m "type" = Normal (JStr "cursor_update") →
  get_prop m "data" = Normal d →
  get_prop d "user_id" = Normal uid →
  get_prop d "position" = Normal pos →
  truthy uid && truthy pos = false →
  fst (onmessage_handler EditorMessage (Parsed m) w) = w.
Proof.
  intros Hty Hd Hid Hpos Hf. unfold onmessage_handler. simpl.
  rewrite onMessageCallback_cursor_update by done.
  unfold case_cursor_update. run_js. rewrite Hd. simpl. rewrite Hid. simpl.
  destruct (truthy uid); simpl; [|done]. rewrite Hpos. simpl.
  simpl in Hf. by rewrite Hf.
Qed.

Lemma cursor_update_needs_sender_and_position_witness :
  fst (onmessage_handler EditorMessage (on_the_wire (cursor_update 3 4)) session) = session.
Proof.
  apply (cursor_update_needs_sender_and_position _
           (JObj [("position", JObj [("line", JNum 3); ("column", JNum 4)])])
           JUndefined (JObj [("line", JNum 3); ("column", JNum 4)]));
    reflexivity.
Defined.

Lemma fields_triggerAIAutocomplete c p w :
  (triggerAIAutocomplete c p w).(editorRef) = w.(editorRef) ∧
  (triggerAIAutocomplete c p w).(code) = w.(code).
Proof.
  unfold triggerAIAutocomplete, abort, clearTimeout, setTimeout.
  by repeat case_match.
Qed.

Lemma fields_sendCodeUpdate svc c w :
  (sendCodeUpdate svc c w).(editorRef) = w.(editorRef) ∧
  (sendCodeUpdate svc c w).(code) = w.(code).
Proof. unfold sendCodeUpdate, send. by repeat case_match. Qed.

(** X12: a local edit, with the session's socket open, sends one
    [code_update] with the new text and puts the text in the [code] state.
    A peer whose editor is mounted and which receives that envelope as it
    was sent ends with the same text in its buffer and in its state, and
    sends nothing back. *)
Theorem local_edit_reaches_the_peer
    (a b : World) (ed_a ed_b : Editor) (svc sid : nat) (text : string) :
  a.(editorRef) = Some ed_a → a.(isRemoteChange) = false →
  a.(wsService) = Some svc → open_socket svc a = Some sid →
  b.(editorRef) = Some ed_b →
  let a' := content_changed text a in
  let b' := fst (onmessage_handler EditorMessage (on_the_wire (code_update text)) b) in
  a'.(sent) = a.(sent) ++ [(sid, code_update text)] ∧
  value <$> a'.(editorRef) = Some text ∧ a'.(code) = JStr text ∧
  value <$> b'.(editorRef) = Some text ∧ b'.(code) = JStr text ∧
  b'.(sent) = b.(sent).
Proof.
  intros He Hflag Hsvc Hopen Heb a' b'.
  assert (a' = triggerAIAutocomplete text (position ed_a)
                 (sendCodeUpdate svc text
                    (setCode (JStr text) (set_editorRef (Some (set_value text ed_a)) a))))
    as ->.
  { unfold a', content_changed. rewrite He. unfold onDidChangeModelContent.
    cbn [isRemoteChange set_editorRef editorRef]. rewrite Hflag.
    cbn [wsService setCode set_renders set_code set_editorRef]. by rewrite Hsvc. }
  split; [|split; [|split]].
  - rewrite sent_triggerAIAutocomplete. unfold sendCodeUpdate. rewrite sent_send.
    assert (open_socket svc (setCode (JStr text)
              (set_editorRef (Some (set_value text ed_a)) a)) = open_socket svc a) as ->
      by done.
    by rewrite Hopen.
  - by rewrite (proj1 (fields_triggerAIAutocomplete _ _ _)),
       (proj1 (fields_sendCodeUpdate _ _ _)).
  - by rewrite (proj2 (fields_triggerAIAutocomplete _ _ _)),
       (proj2 (fields_sendCodeUpdate _ _ _)).
  - destruct (remote_text_applied "code_update"
                (JObj [("type", JStr "code_update"); ("data", JObj [("code", JStr text)])])
                (JObj [("code", JStr text)]) text b ed_b
                (or_intror eq_refl) eq_refl eq_refl eq_refl Heb) as (He' & Hcode & _).
    unfold b'.
    change (on_the_wire (code_update text))
      with (Parsed (JObj [("type", JStr "code_update");
                          ("data", JObj [("code", JStr text)])])).
    split; [by rewrite He'|]. split; [done|].
    exact (f_equal wi_sent (onmessage_handler_wiring EditorMessage _ b)).
Qed.

Lemma local_edit_reaches_the_peer_witness :
  let a' := content_changed "x = 1" session in
  let b' := fst (onmessage_handler EditorMessage (on_the_wire (code_update "x = 1"))
                   session) in
  a'.(sent) = session.(sent) ++ [(0%nat, code_update "x = 1")] ∧
  value <$> a'.(editorRef) = Some "x = 1" ∧ a'.(code) = JStr "x = 1" ∧
  value <$> b'.(editorRef) = Some "x = 1" ∧ b'.(code) = JStr "x = 1" ∧
  b'.(sent) = session.(sent).
Proof.
  apply (local_edit_reaches_the_peer session session
           (mkEditor "# start" (Some (mkPosition 1 1)) [] 0 1)
           (mkEditor "# start" (Some (mkPosition 1 1)) [] 0 1) 0 0 "x = 1");
    reflexivity.
Defined.

(** ** Colors *)

Lemma list_ascii_of_string_app s1 s2 :
  String.list_ascii_of_string (s1 +:+ s2)
  = String.list_ascii_of_string s1 ++ String.list_ascii_of_string s2.
Proof. induction s1 as [|a s1 IH]; simpl; [done|]. by rewrite IH. Qed.

Lemma char_sum_from (l : list Ascii.ascii) (a : Z) :
  fold_left (λ acc ch, acc + Z.of_nat (Ascii.nat_of_ascii ch)) l a
  = a + fold_left (λ acc ch, acc + Z.of_nat (Ascii.nat_of_ascii ch)) l 0.
Proof.
  revert a. induction l as [|c l IH]; intros a; simpl; [lia|].
  rewrite (IH (a + _)), (IH (0 + _)). lia.
Qed.

Lemma char_sum_nonneg (l : list Ascii.ascii) :
  0 ≤ fold_left (λ acc ch, acc + Z.of_nat (Ascii.nat_of_ascii ch)) l 0.
Proof.
  induction l as [|c l IH]; simpl; [lia|]. rewrite char_sum_from. lia.
Qed.

(** X13: [getUserColor] of a string is always one of the ten colors of
    the palette, the index never leaving the array, and it depends on the
    characters of the identifier but not on their order. *)
Theorem getUserColor_stays_in_the_palette (s1 s2 : string) :
  (∃ c, getUserColor (JStr s1) = Normal c ∧ c ∈ USER_COLORS) ∧
  getUserColor (JStr (s1 +:+ s2)) = getUserColor (JStr (s2 +:+ s1)).
Proof.
  split.
  - unfold getUserColor. cbv zeta.
    set (h := fold_left _ _ _).
    assert (0 ≤ h) as Hh by apply char_sum_nonneg.
    assert (Z.to_nat (h mod 10) < length USER_COLORS)%nat as Hlt.
    { change (length USER_COLORS) with 10%nat. pose proof (Z.mod_pos_bound h 10). lia. }
    apply lookup_lt_is_Some_2 in Hlt as [c Hc]. exists c. rewrite Hc.
    split; [done|]. by eapply list_elem_of_lookup_2.
  - unfold getUserColor. cbv zeta. rewrite !list_ascii_of_string_app, !fold_left_app.
    rewrite (char_sum_from (String.list_ascii_of_string s2)).
    rewrite (char_sum_from (String.list_ascii_of_string s1)
               (fold_left _ (String.list_ascii_of_string s2) 0)).
    by rewrite Z.add_comm.
Qed.

(** ** The component's reconnect *)

Lemma lookup_snoc {A} (l : list A) (x : A) : (l ++ [x]) !! length l = Some x.
Proof. induction l as [|a l IH]; [done|]. exact IH. Qed.

Lemma insert_snoc {A} (l : list A) (x y : A) : <[length l := y]> (l ++ [x]) = l ++ [y].
Proof. induction l as [|a l IH]; [done|]. simpl. by rewrite IH. Qed.

(** [initializeWebSocket], whatever the state: a new service for the
    room of the component, with a new socket that carries both handlers
    of the component. *)
Lemma initializeWebSocket_effect w :
  let w' := initializeWebSocket w in
  let svc := length w.(services) in
  let sid := length w.(sockets) in
  w'.(wsService) = Some svc ∧
  w'.(services) = w.(services) ++ [mkService w.(prop_roomId) (Some sid) 0 5 2000] ∧
  w'.(sockets) = w.(sockets) ++
                 [mkSocket svc CONNECTING (Some EditorMessage) (CloseWith EditorClose)].
Proof.
  intros w' svc sid. unfold w', initializeWebSocket, WebSocketService.new. cbv zeta.
  fold svc.
  set (w1 := connect svc _).
  assert (services w1 = services w ++ [mkService (prop_roomId w) (Some sid) 0 5 2000] ∧
          sockets w1 = sockets w ++ [mkSocket svc CONNECTING None CloseDefault])
    as [Hs1 Hk1].
  { unfold w1, connect, new_WebSocket, update_service. cbn [fst snd].
    cbn [services sockets console_log set_console set_sockets set_services].
    unfold svc. rewrite lookup_snoc.
    cbn [services sockets set_services set_sockets]. by rewrite insert_snoc. }
  clearbody w1.
  set (w2 := set_wsService (Some svc) w1).
  assert (services w2 = services w1 ∧ sockets w2 = sockets w1 ∧ wsService w2 = Some svc)
    as (Hs2 & Hk2 & Hw2) by done.
  clearbody w2. rewrite <- Hs2 in Hs1. rewrite <- Hk2 in Hk1. clear Hs2 Hk2.
  assert (∀ w3, services w3 = services w2 → this_ws svc w3 = Some sid) as Hthis.
  { intros w3 H3. unfold this_ws. rewrite H3, Hs1. unfold svc. by rewrite lookup_snoc. }
  set (w3 := onMessage svc EditorMessage w2).
  assert (services w3 = services w2 ∧ wsService w3 = Some svc ∧
          sockets w3 = sockets w ++ [mkSocket svc CONNECTING (Some EditorMessage) CloseDefault])
    as (Hs3 & Hw3 & Hk3).
  { unfold w3, onMessage. rewrite (Hthis w2 eq_refl). unfold update_socket.
    rewrite Hk1. unfold sid. rewrite lookup_snoc. simpl. by rewrite insert_snoc. }
  clearbody w3.
  unfold onClose. rewrite (Hthis w3 Hs3). unfold update_socket.
  rewrite Hk3. unfold sid. rewrite lookup_snoc. simpl. rewrite insert_snoc.
  by rewrite Hs3, Hs1.
Qed.

Lemma lengths_disconnect svc w :
  length (disconnect svc w).(services) = length w.(services) ∧
  length (disconnect svc w).(sockets) = length w.(sockets).
Proof.
  unfold disconnect, update_service, socket_close, update_socket.
  repeat case_match; simpl; rewrite ?length_insert; done.
Qed.

Lemma fields_disconnect svc w :
  (disconnect svc w).(prop_roomId) = w.(prop_roomId) ∧
  (disconnect svc w).(reconnectTimeout) = w.(reconnectTimeout).
Proof.
  apply (P_disconnect (λ w', prop_roomId w' = prop_roomId w ∧
                             reconnectTimeout w' = reconnectTimeout w)); frame_hyps.
Qed.



(** ** The room list *)

Section Lobby.

Import Api RoomManager App.

Lemma settle_unsettled i r p c :
  p.(calls) !! i = Some c → c.(settled) = false →
  settle i r p =
    let p' := set_calls (<[i := mkCall c.(request) c.(owner) c.(captured) true]> p.(calls)) p in
    match c.(request) with
    | GetRooms =>
        fetchRooms_settled c.(owner) (match r with RoomList _ => r | _ => Failure end) p'
    | PostRoom _ _ =>
        createRoom_settled handleJoinRoom c.(owner) c.(captured)
          (match r with Created _ => r | _ => Failure end) p'
    | DeleteRoom roomId =>
        deleteRoom_settled c.(owner) c.(captured) roomId
          (match r with Deleted => r | _ => Failure end) p'
    end.
Proof. intros Hc Hs. unfold settle. by rewrite Hc, Hs. Qed.

(** X15: [deleteRoom], when its request succeeds, takes the room out
    of the list its closure captured.  Deleting one room and, once that has
    settled, another, removes both.  Two deletions confirmed before either
    has settled start from the same list: when both have settled the list
    is the original one without the second room, and the room deleted first
    is shown again. *)
Theorem overlapping_deletes_lose_one (p : Page) (s : State) (i j : nat) (a b : Room) :
  p.(manager) = Some s →
  s.(rooms) !! i = Some a → s.(rooms) !! j = Some b → a.(id) ≠ b.(id) →
  let n := length p.(calls) in
  let overlapping :=
    page_run p [ClickDelete i true; ClickDelete j true; Settle n Deleted; Settle (S n) Deleted] in
  let first := page_run p [ClickDelete i true; Settle n Deleted] in
  first.(manager) = Some (setRooms (filter (λ room, room.(id) ≠ a.(id)) s.(rooms)) s) ∧
  overlapping.(manager)
    = Some (setRooms (filter (λ room, room.(id) ≠ b.(id)) s.(rooms)) s) ∧
  (∀ s', overlapping.(manager) = Some s' → a ∈ s'.(rooms)) ∧
  (∀ k, filter (λ room, room.(id) ≠ a.(id)) s.(rooms) !! k = Some b →
        (page_run first [ClickDelete k true; Settle (S n) Deleted]).(manager)
        = Some (setRooms (filter (λ room, room.(id) ≠ b.(id))
                            (filter (λ room, room.(id) ≠ a.(id)) s.(rooms))) s)).
Proof.
  intros Hm Hi Hj Hab n overlapping first. subst n.
  assert (∀ (q : Page) (t : State) (k : nat) (x : Room),
            q.(manager) = Some t → t.(rooms) !! k = Some x →
            page_step q (ClickDelete k true)
            = set_calls (q.(calls) ++ [mkCall (DeleteRoom x.(id)) q.(instance) t.(rooms) false])
                q) as Hclick.
  { intros q t k x Hq Hk. unfold page_step. rewrite Hq, Hk. done. }
  assert (∀ (q : Page) (t : State) (m : nat) (c : Call) (rid : string),
            q.(manager) = Some t → q.(calls) !! m = Some c →
            c = mkCall (DeleteRoom rid) q.(instance) c.(captured) false →
            (page_step q (Settle m Deleted)).(manager)
            = Some (setRooms (filter (λ room, room.(id) ≠ rid) c.(captured)) t) ∧
            (page_step q (Settle m Deleted)).(instance) = q.(instance) ∧
            (page_step q (Settle m Deleted)).(calls)
            = <[m := mkCall c.(request) c.(owner) c.(captured) true]> q.(calls)) as Hsettle.
  { intros q t m c rid Hq Hc Heq. unfold page_step.
    rewrite (settle_unsettled m Deleted q c Hc) by (by rewrite Heq).
    rewrite Heq. simpl. unfold deleteRoom_settled, set_state. simpl.
    rewrite Hq, Nat.eqb_refl. done. }
  (* the first delete, settled *)
  assert (first.(manager)
          = Some (setRooms (filter (λ room, room.(id) ≠ a.(id)) s.(rooms)) s) ∧
          first.(instance) = p.(instance) ∧
          first.(calls) = p.(calls) ++ [mkCall (DeleteRoom a.(id)) p.(instance) s.(rooms) true])
    as (Hf1 & Hf2 & Hf3).
  { unfold first, page_run. cbn [fold_left]. rewrite (Hclick p s i a Hm Hi).
    destruct (Hsettle (set_calls (calls p ++ [mkCall (DeleteRoom a.(id)) p.(instance) s.(rooms) false]) p) s (length (calls p))
                (mkCall (DeleteRoom a.(id)) p.(instance) s.(rooms) false) a.(id) Hm)
      as (H1 & H2 & H3).
    - simpl. apply lookup_snoc.
    - done.
    - rewrite H1, H2, H3. simpl. by rewrite insert_snoc. }
  split; [done|].
  (* both deletes before either settles *)
  assert (overlapping.(manager)
          = Some (setRooms (filter (λ room, room.(id) ≠ b.(id)) s.(rooms)) s)) as Ho.
  { unfold overlapping, page_run. cbn [fold_left]. rewrite (Hclick p s i a Hm Hi).
    rewrite (Hclick (set_calls (calls p ++ [mkCall (DeleteRoom a.(id)) p.(instance) s.(rooms) false]) p) s j b Hm Hj).
    simpl calls. simpl instance.
    set (q := set_calls _ (set_calls _ p)).
    assert (manager q = Some s ∧ instance q = instance p ∧
            calls q = (calls p ++ [mkCall (DeleteRoom a.(id)) p.(instance) s.(rooms) false]) ++ [mkCall (DeleteRoom b.(id)) p.(instance) s.(rooms) false]) as (Hq1 & Hq2 & Hq3)
      by done.
    clearbody q.
    destruct (Hsettle q s (length (calls p)) (mkCall (DeleteRoom a.(id)) p.(instance) s.(rooms) false) a.(id) Hq1) as (H1 & H2 & H3).
    { rewrite Hq3. rewrite lookup_app_l by (rewrite length_app; simpl; lia).
      apply lookup_snoc. }
    { by rewrite Hq2. }
    set (q1 := page_step q (Settle (length (calls p)) Deleted)) in *. clearbody q1.
    destruct (Hsettle q1 _ (S (length (calls p))) (mkCall (DeleteRoom b.(id)) p.(instance) s.(rooms) false) b.(id) H1) as (H1' & _).
    { rewrite H3. rewrite list_lookup_insert_ne by lia. rewrite Hq3.
      replace (S (length (calls p))) with (length (calls p ++ [mkCall (DeleteRoom a.(id)) p.(instance) s.(rooms) false]))
        by (rewrite length_app; simpl; lia).
      apply lookup_snoc. }
    { by rewrite H2, Hq2. }
    rewrite H1'. done. }
  split; [done|]. split.
  - intros s' Hs'. rewrite Ho in Hs'. injection Hs' as <-. simpl.
    apply list_elem_of_filter. split; [done|]. by eapply list_elem_of_lookup_2.
  - intros k Hk.
    unfold page_run. cbn [fold_left].
    fold (page_run p [ClickDelete i true; Settle (length (calls p)) Deleted]).
    fold first. clearbody first.
    rewrite (Hclick first _ k b Hf1 Hk). rewrite Hf2, Hf3. simpl rooms.
    set (q := set_calls _ first).
    assert (manager q = manager first ∧ instance q = instance p ∧
            calls q = (calls p ++ [mkCall (DeleteRoom a.(id)) p.(instance) s.(rooms) true]) ++
                      [mkCall (DeleteRoom b.(id)) p.(instance)
                         (filter (λ room, room.(id) ≠ a.(id)) s.(rooms)) false])
      as (Hq1 & Hq2 & Hq3) by done.
    clearbody q. rewrite Hf1 in Hq1.
    destruct (Hsettle q _ (S (length (calls p)))
                (mkCall (DeleteRoom b.(id)) p.(instance)
                   (filter (λ room, room.(id) ≠ a.(id)) s.(rooms)) false) b.(id) Hq1)
      as (H1 & _).
    { rewrite Hq3.
      replace (S (length (calls p))) with (length (calls p ++ [mkCall (DeleteRoom a.(id)) p.(instance) s.(rooms) true]))
        by (rewrite length_app; simpl; lia).
      apply lookup_snoc. }
    { by rewrite Hq2. }
    rewrite H1. done.
Qed.

Lemma overlapping_deletes_lose_one_witness :
  let overlapping :=
    page_run two_rooms [ClickDelete 0 true; ClickDelete 1 true; Settle 1 Deleted; Settle 2 Deleted] in
  let first := page_run two_rooms [ClickDelete 0 true; Settle 1 Deleted] in
  first.(manager) = Some (mkState [room_b] "" "python" false "") ∧
  overlapping.(manager) = Some (mkState [room_a] "" "python" false "") ∧
  (∀ s', overlapping.(manager) = Some s' → room_a ∈ s'.(rooms)) ∧
  (∀ k, [room_b] !! k = Some room_b →
        (page_run first [ClickDelete k true; Settle 2 Deleted]).(manager)
        = Some (mkState [] "" "python" false "")).
Proof.
  apply (overlapping_deletes_lose_one two_rooms
           (mkState [room_a; room_b] "" "python" false "") 0 1 room_a room_b);
    (reflexivity || discriminate).
Defined.

(** *** Room creation *)

Lemma length_filter_insert {A} (P : A → Prop) `{∀ x, Decision (P x)}
    (l : list A) (i : nat) (x y : A) :
  l !! i = Some x → ¬ P y →
  length (filter P (<[i := y]> l))
  = (length (filter P l) - if decide (P x) then 1 else 0)%nat.
Proof.
  intros Hi Hy.
  rewrite insert_take_drop by (by eapply lookup_lt_Some).
  rewrite <- (take_drop_middle l i x Hi) at 3.
  rewrite !filter_app, !length_app, !filter_cons.
  destruct (decide (P y)); [done|]. destruct (decide (P x)); simpl; lia.
Qed.

Lemma creating_fetch inst inst' r seen p p' :
  p'.(calls) = p.(calls) ++ [mkCall r inst seen false] →
  length (creating inst' p')
  = (length (creating inst' p)
     + if decide (inst = inst' ∧ is_post r = true) then 1 else 0)%nat.
Proof.
  intros Hc. unfold creating. rewrite Hc, filter_app, length_app. f_equal.
  rewrite filter_cons, filter_nil. simpl.
  destruct (decide (inst = inst' ∧ false = false ∧ is_post r = true)) as [H1|H1],
           (decide (inst = inst' ∧ is_post r = true)) as [H2|H2]; simpl; try done;
    exfalso; tauto.
Qed.

Lemma creating_settle inst i c p p' :
  p.(calls) !! i = Some c → c.(settled) = false →
  p'.(calls) = <[i := mkCall c.(request) c.(owner) c.(captured) true]> p.(calls) →
  length (creating inst p')
  = (length (creating inst p)
     - if decide (c.(owner) = inst ∧ is_post c.(request) = true) then 1 else 0)%nat.
Proof.
  intros Hi Hs Hc. unfold creating. rewrite Hc.
  rewrite (length_filter_insert _ _ i c) by (done || simpl; intros (_ & ? & _); done).
  f_equal.
  destruct (decide (owner c = inst ∧ settled c = false ∧ is_post (request c) = true))
    as [H1|H1],
           (decide (owner c = inst ∧ is_post (request c) = true)) as [H2|H2]; try done;
    exfalso; tauto.
Qed.

Lemma orderly_frame p p' :
  p'.(calls) = p.(calls) → p'.(instance) = p.(instance) →
  (∀ s', p'.(manager) = Some s' →
         ∃ s, p.(manager) = Some s ∧ s'.(loading) = s.(loading)) →
  orderly p → orderly p'.
Proof.
  intros Hc Hi Hm (H1 & H2 & H3). unfold orderly, creating in *. rewrite Hc, Hi.
  split; [done|]. split; [done|]. intros s' Hs'.
  destruct (Hm s' Hs') as (s & Hs & ->). by apply H3.
Qed.

Lemma set_state_manager inst f p :
  (set_state inst f p).(calls) = p.(calls) ∧
  (set_state inst f p).(instance) = p.(instance) ∧
  (set_state inst f p).(currentRoom) = p.(currentRoom) ∧
  (set_state inst f p).(manager)
  = match p.(manager) with
    | Some s => Some (if Nat.eqb p.(instance) inst then f s else s)
    | None => None
    end.
Proof.
  unfold set_state. destruct (manager p) as [s|] eqn:Hm; [|by rewrite Hm].
  destruct (_ =? _)%nat; simpl; by rewrite ?Hm.
Qed.

Lemma fetchRooms_settled_fields inst r p :
  let p' := fetchRooms_settled inst r p in
  p'.(calls) = p.(calls) ∧ p'.(instance) = p.(instance) ∧
  ∀ s', p'.(manager) = Some s' → ∃ s, p.(manager) = Some s ∧ s'.(loading) = s.(loading).
Proof.
  unfold fetchRooms_settled, set_state.
  destruct r, (manager p) as [s|] eqn:Hm; simpl; try destruct (_ =? _)%nat; simpl;
    rewrite ?Hm; repeat split; try done; intros s' [= <-]; by exists s.
Qed.

Lemma deleteRoom_settled_fields inst seen roomId r p :
  let p' := deleteRoom_settled inst seen roomId r p in
  p'.(calls) = p.(calls) ∧ p'.(instance) = p.(instance) ∧
  ∀ s', p'.(manager) = Some s' → ∃ s, p.(manager) = Some s ∧ s'.(loading) = s.(loading).
Proof.
  unfold deleteRoom_settled, set_state.
  destruct r, (manager p) as [s|] eqn:Hm; simpl; try destruct (_ =? _)%nat; simpl;
    rewrite ?Hm; repeat split; try done; intros s' [= <-]; by exists s.
Qed.

Lemma createRoom_failed_fields inst seen p :
  let p' := createRoom_settled handleJoinRoom inst seen Failure p in
  p'.(calls) = p.(calls) ∧ p'.(instance) = p.(instance) ∧
  p'.(currentRoom) = p.(currentRoom) ∧
  ∀ s', p'.(manager) = Some s' →
        ∃ s, p.(manager) = Some s ∧
             s'.(loading) = if Nat.eqb p.(instance) inst then false else s.(loading).
Proof.
  unfold createRoom_settled. cbv iota zeta.
  destruct (set_state_manager inst (setError "Failed to create room") p)
    as (A1 & A2 & A3 & A4).
  set (p1 := set_state inst (setError "Failed to create room") p) in *. clearbody p1.
  assert (calls (log_error p1) = calls p ∧ instance (log_error p1) = instance p ∧
          currentRoom (log_error p1) = currentRoom p ∧
          manager (log_error p1) = manager p1) as (B1 & B2 & B3 & B4) by done.
  set (p2 := log_error p1) in *. clearbody p2.
  destruct (set_state_manager inst (setLoading false) p2) as (C1 & C2 & C3 & C4).
  rewrite C1, C2, C3, C4, B1, B2, B3, B4, A4.
  split; [done|]. split; [done|]. split; [done|].
  destruct (manager p) as [s|]; [|done]. intros s' [= <-]. exists s. split; [done|].
  by destruct (_ =? _)%nat.
Qed.

Lemma createRoom_succeeded_fields inst seen newRoom p :
  let p' := createRoom_settled handleJoinRoom inst seen (Created newRoom) p in
  p'.(calls) = p.(calls) ∧ p'.(instance) = p.(instance) ∧
  p'.(currentRoom) = Some newRoom ∧ p'.(manager) = None.
Proof.
  unfold createRoom_settled. cbv iota zeta.
  destruct (set_state_manager inst (setRooms (seen ++ [newRoom])) p) as (A1 & A2 & _).
  set (p1 := set_state inst (setRooms (seen ++ [newRoom])) p) in *. clearbody p1.
  destruct (set_state_manager inst (setRoomName "") p1) as (B1 & B2 & _).
  set (p2 := set_state inst (setRoomName "") p1) in *. clearbody p2.
  assert (calls (handleJoinRoom newRoom p2) = calls p ∧
          instance (handleJoinRoom newRoom p2) = instance p ∧
          currentRoom (handleJoinRoom newRoom p2) = Some newRoom ∧
          manager (handleJoinRoom newRoom p2) = None) as (C1 & C2 & C3 & C4).
  { unfold handleJoinRoom. simpl. by rewrite B1, B2, A1, A2. }
  set (p3 := handleJoinRoom newRoom p2) in *. clearbody p3.
  destruct (set_state_manager inst (setLoading false) p3) as (D1 & D2 & D3 & D4).
  by rewrite D1, D2, D3, D4, C1, C2, C3, C4.
Qed.

Lemma orderly_settle i r p : orderly p → orderly (settle i r p).
Proof.
  intros Hp. unfold settle.
  destruct (calls p !! i) as [c|] eqn:Hc; [|done].
  destruct (settled c) eqn:Hs; [done|]. cbv zeta.
  set (p1 := set_calls _ p).
  pose proof Hp as (H1 & H2 & H3).
  assert (Hcount : ∀ inst, length (creating inst p1)
            = (length (creating inst p)
               - if decide (c.(owner) = inst ∧ is_post c.(request) = true) then 1 else 0)%nat).
  { intros inst. by apply (creating_settle inst i c p p1). }
  assert (Hb1 : Forall (λ c', (owner c' ≤ instance p)%nat) (calls p1)).
  { simpl. apply Forall_insert; [done|]. simpl. by eapply (Forall_lookup_1 _ _ _ _ H1). }
  assert (Hb2 : ∀ inst, (length (creating inst p1) ≤ 1)%nat).
  { intros inst. rewrite Hcount. specialize (H2 inst). lia. }
  assert (Hm1 : manager p1 = manager p) by done.
  assert (Hi1 : instance p1 = instance p) by done.
  (* what is left to show once the calls are known *)
  assert (Hgoal : ∀ p', p'.(calls) = p1.(calls) → p'.(instance) = p1.(instance) →
            (∀ s', p'.(manager) = Some s' →
                   length (creating p.(instance) p1) = if s'.(loading) then 1%nat else 0%nat) →
            orderly p').
  { intros p' Hc' Hi' Hm'. unfold orderly, creating in *. rewrite Hc', Hi', Hi1.
    split; [done|]. split; [done|]. done. }
  specialize (Hcount (instance p)). specialize (H2 (instance p)).
  clearbody p1.
  destruct (request c) as [|nm lang|rid] eqn:Hreq.
  - destruct (fetchRooms_settled_fields (owner c)
                (match r with RoomList _ => r | _ => Failure end) p1) as (Ha & Hb & Hd).
    apply Hgoal; [done|done|]. intros s' Hs'. destruct (Hd s' Hs') as (s & Hm & ->).
    rewrite Hm1 in Hm. rewrite Hcount, (H3 s Hm).
    destruct (decide _) as [[_ ?]|_]; [done|]. lia.
  - assert (orderly (createRoom_settled handleJoinRoom (owner c) (captured c) Failure p1))
      as Hfail.
    { destruct (createRoom_failed_fields (owner c) (captured c) p1)
        as (Ha & Hb & _ & Hd).
      apply Hgoal; [done|done|]. intros s' Hs'. destruct (Hd s' Hs') as (s & Hm & ->).
      rewrite Hm1 in Hm. rewrite Hi1. rewrite Hcount. specialize (H3 s Hm).
      destruct (Nat.eqb_spec (instance p) (owner c)) as [Heq|Hne].
      + destruct (decide _) as [_|Hn]; [lia|]. exfalso. apply Hn. by split.
      + destruct (decide _) as [[? _]|_]; [by subst|]. lia. }
    destruct r as [| |newRoom|]; try done.
    destruct (createRoom_succeeded_fields (owner c) (captured c) newRoom p1)
      as (Ha & Hb & _ & Hd).
    apply Hgoal; [done|done|]. intros s' Hs'. by rewrite Hd in Hs'.
  - destruct (deleteRoom_settled_fields (owner c) (captured c) rid
                (match r with Deleted => r | _ => Failure end) p1) as (Ha & Hb & Hd).
    apply Hgoal; [done|done|]. intros s' Hs'. destruct (Hd s' Hs') as (s & Hm & ->).
    rewrite Hm1 in Hm. rewrite Hcount, (H3 s Hm).
    destruct (decide _) as [[_ ?]|_]; [done|]. lia.
Qed.

Lemma orderly_fetch r inst seen p s :
  p.(manager) = Some s → inst = p.(instance) →
  (is_post r = true → s.(loading) = false) →
  orderly p →
  orderly (fetch r inst seen
             (if is_post r then set_manager (Some (setLoading true s)) p else p)).
Proof.
  intros Hm -> Hl (H1 & H2 & H3).
  set (p0 := if is_post r then set_manager (Some (setLoading true s)) p else p).
  assert (calls p0 = calls p ∧ instance p0 = instance p ∧
          manager p0 = Some (if is_post r then setLoading true s else s))
    as (Hc0 & Hi0 & Hm0).
  { unfold p0. by destruct (is_post r). }
  clearbody p0.
  assert (∀ inst, length (creating inst (fetch r (instance p) seen p0))
            = (length (creating inst p)
               + if decide (instance p = inst ∧ is_post r = true) then 1 else 0)%nat)
    as Hcount.
  { intros inst. rewrite (creating_fetch (instance p) inst r seen p0) by done.
    unfold creating. by rewrite Hc0. }
  pose proof (H3 s Hm) as Hs.
  split; [|split].
  - simpl. rewrite Hc0, Hi0. apply Forall_app. split; [done|].
    apply Forall_singleton. simpl. lia.
  - intros inst. rewrite Hcount. specialize (H2 inst).
    destruct (decide _) as [[<- Hp]|_]; [|lia]. rewrite Hs, (Hl Hp). simpl. lia.
  - intros s' Hs'. simpl in Hs'. rewrite Hm0 in Hs'. injection Hs' as <-.
    simpl instance. rewrite Hi0, Hcount, Hs.
    destruct (is_post r) eqn:Hp.
    + rewrite (Hl eq_refl). simpl. destruct (decide _) as [_|Hn]; [done|].
      exfalso. by apply Hn.
    + destruct (decide _) as [[_ ?]|_]; [done|]. lia.
Qed.

Lemma orderly_step p a : orderly p → orderly (page_step p a).
Proof.
  intros Hp. destruct a as [i r|text|l| |k confirmed|k|]; unfold page_step.
  - by apply orderly_settle.
  - destruct (manager p) as [s|] eqn:Hm; [|done]. destruct (loading s) eqn:Hl; [done|].
    apply (orderly_frame p); try done; try apply set_state_manager.
    intros s'. rewrite (proj2 (proj2 (proj2 (set_state_manager _ _ _)))), Hm.
    intros [= <-]. exists s. split; [done|]. by destruct (_ =? _)%nat.
  - destruct (manager p) as [s|] eqn:Hm; [|done]. destruct (loading s) eqn:Hl; [done|].
    apply (orderly_frame p); try done; try apply set_state_manager.
    intros s'. rewrite (proj2 (proj2 (proj2 (set_state_manager _ _ _)))), Hm.
    intros [= <-]. exists s. split; [done|]. by destruct (_ =? _)%nat.
  - destruct (manager p) as [s|] eqn:Hm; [|done].
    destruct (submit_disabled s) eqn:Hd; [done|].
    apply orb_false_iff in Hd as [Hl _].
    pose proof (orderly_fetch (PostRoom (roomName s) (language s)) (instance p)
                  (rooms s) p s Hm eq_refl (λ _, Hl) Hp) as Hf.
    simpl in Hf. unfold createRoom, set_state. simpl. rewrite Hm, Nat.eqb_refl. simpl.
    rewrite Nat.eqb_refl.
    destruct Hf as (F1 & F2 & F3). split; [done|]. split; [done|].
    intros s' [= <-]. exact (F3 _ eq_refl).
  - destruct (manager p) as [s|] eqn:Hm; [|done].
    destruct (rooms s !! k) as [room|]; [|done].
    unfold deleteRoom. destruct confirmed; [|done]. simpl.
    pose proof (orderly_fetch (DeleteRoom (id room)) (instance p) (rooms s) p s Hm eq_refl)
      as Hf.
    simpl in Hf. by apply Hf.
  - destruct (manager p) as [s|] eqn:Hm; [|done].
    destruct (rooms s !! k) as [room|]; [|done].
    destruct Hp as (H1 & H2 & H3). split; [done|]. split; [done|]. done.
  - destruct (currentRoom p) as [room|]; [|done].
    destruct Hp as (H1 & H2 & H3). unfold handleLeaveRoom, fetchRooms, fetch.
    assert (∀ inst, creating inst
              (set_calls (calls p ++ [mkCall GetRooms (S (instance p)) [] false])
                 (mkPage None (S (instance p)) (Some fresh) (calls p) (errors p)))
            = creating inst p) as Hsame.
    { intros inst. unfold creating. simpl. rewrite filter_app.
      rewrite filter_cons_False by (simpl; intros (_ & _ & ?); done).
      by rewrite filter_nil, app_nil_r. }
    split; [|split].
    + simpl. apply Forall_app. split.
      * eapply Forall_impl; [exact H1|]. simpl. intros c ?. lia.
      * apply Forall_singleton. simpl. lia.
    + intros inst. by rewrite Hsame.
    + intros s' [= <-]. rewrite Hsame. simpl.
      apply length_zero_iff_nil. apply elem_of_nil_inv. intros c Hc.
      apply list_elem_of_filter in Hc as [(Ho & _) Hc].
      rewrite Forall_forall in H1. specialize (H1 c Hc). simpl in Ho. lia.
Qed.

Lemma orderly_run p l : orderly p → orderly (page_run p l).
Proof.
  revert p. induction l as [|a l IH]; intros p Hp; [done|].
  simpl. apply IH. by apply orderly_step.
Qed.

Lemma orderly_initial : orderly first_page.
Proof.
  assert (∀ inst, creating inst first_page = []) as Hnone.
  { intros inst. unfold creating.
    change (calls first_page) with [mkCall GetRooms 1 [] false].
    rewrite filter_cons_False; [done|]. simpl. by intros (_ & _ & ?). }
  split; [|split].
  - apply Forall_singleton. simpl. lia.
  - intros inst. rewrite Hnone. simpl. lia.
  - intros s [= <-]. by rewrite Hnone.
Qed.

(** X16: in every run of the page no instance of the manager has two
    room creations in flight; [loading] is true exactly while the mounted
    instance has one in flight, and a submit then does nothing. *)
Theorem one_creation_at_a_time (l : list Action) :
  let p := page_run first_page l in
  (∀ inst, (length (creating inst p) ≤ 1)%nat) ∧
  (∀ s, p.(manager) = Some s →
        (s.(loading) = true ↔ creating p.(instance) p ≠ []) ∧
        (creating p.(instance) p ≠ [] → page_step p Submit = p)).
Proof.
  intros p. destruct (orderly_run first_page l orderly_initial) as (H1 & H2 & H3).
  fold p in H1, H2, H3. split; [done|]. intros s Hm. specialize (H3 s Hm).
  assert (loading s = true ↔ creating (instance p) p ≠ []) as Hiff.
  { destruct (loading s), (creating (instance p) p); simpl in H3; try done;
      split; done. }
  split; [done|]. intros Hne. apply Hiff in Hne.
  unfold page_step. rewrite Hm. unfold submit_disabled. by rewrite Hne.
Qed.

Lemma one_creation_at_a_time_witness :
  let p := page_run first_page [TypeName "den"; Submit; ClickJoin 0; Submit] in
  (∀ inst, (length (creating inst p) ≤ 1)%nat) ∧
  (∀ s, p.(manager) = Some s →
        (s.(loading) = true ↔ creating p.(instance) p ≠ []) ∧
        (creating p.(instance) p ≠ [] → page_step p Submit = p)).
Proof. exact (one_creation_at_a_time [TypeName "den"; Submit; ClickJoin 0; Submit]). Defined.

(** A call that no action settles stays as it is. *)
Lemma calls_step n c p a :
  p.(calls) !! n = Some c → settles n a = false → (page_step p a).(calls) !! n = Some c.
Proof.
  intros Hc Ha.
  assert (∀ r inst seen q, calls q = calls p →
            calls (fetch r inst seen q) !! n = Some c) as Hfetch.
  { intros r inst seen q Hq. simpl. rewrite Hq. by apply lookup_app_l_Some. }
  destruct a as [i r|text|l| |k confirmed|k|]; unfold page_step.
  - unfold settle. destruct (calls p !! i) as [c'|] eqn:Hc'; [|done].
    destruct (settled c'); [done|]. cbv zeta.
    simpl in Ha. apply Nat.eqb_neq in Ha.
    set (p1 := set_calls _ p).
    assert (calls p1 !! n = Some c) as H1
      by (simpl; by rewrite list_lookup_insert_ne).
    clearbody p1.
    destruct (request c').
    + by rewrite (proj1 (fetchRooms_settled_fields _ _ _)).
    + destruct r; first
        [ by rewrite (proj1 (createRoom_failed_fields _ _ _))
        | by rewrite (proj1 (createRoom_succeeded_fields _ _ _ _)) ].
    + by rewrite (proj1 (deleteRoom_settled_fields _ _ _ _ _)).
  - destruct (manager p); [|done]. destruct (loading _); [done|].
    by rewrite (proj1 (set_state_manager _ _ _)).
  - destruct (manager p); [|done]. destruct (loading _); [done|].
    by rewrite (proj1 (set_state_manager _ _ _)).
  - destruct (manager p); [|done]. destruct (submit_disabled _); [done|].
    unfold createRoom. apply Hfetch. by rewrite !(proj1 (set_state_manager _ _ _)).
  - destruct (manager p) as [s|]; [|done]. destruct (rooms s !! k); [|done].
    unfold deleteRoom. destruct confirmed; [|done]. by apply Hfetch.
  - destruct (manager p) as [s|]; [|done]. by destruct (rooms s !! k).
  - destruct (currentRoom p); [|done]. unfold handleLeaveRoom, fetchRooms.
    by apply Hfetch.
Qed.

Lemma calls_run n c l p :
  p.(calls) !! n = Some c → existsb (settles n) l = false → (page_run p l).(calls) !! n = Some c.
Proof.
  revert p. induction l as [|a l IH]; intros p Hc Hl; [done|].
  simpl in Hl. apply orb_false_iff in Hl as [Ha Hl].
  simpl. apply IH; [|done]. by apply calls_step.
Qed.

(** X17: a submit with the button enabled posts the name and the
    language of the form.  When that request succeeds the app enters the
    new room and the manager is unmounted, whatever the user did in
    between, joining another room included. *)
Theorem created_room_is_entered (p : Page) (s : State) (l : list Action) (newRoom : Room) :
  p.(manager) = Some s → submit_disabled s = false →
  let n := length p.(calls) in
  existsb (settles n) l = false →
  let p' := page_run p (Submit :: l ++ [Settle n (Created newRoom)]) in
  (page_step p Submit).(calls)
    = p.(calls) ++ [mkCall (PostRoom s.(roomName) s.(language)) p.(instance) s.(rooms) false] ∧
  p'.(currentRoom) = Some newRoom ∧ p'.(manager) = None.
Proof.
  intros Hm Hd n Hl p'. subst n.
  assert ((page_step p Submit).(calls)
          = p.(calls) ++ [mkCall (PostRoom s.(roomName) s.(language)) p.(instance)
                            s.(rooms) false]) as Hsub.
  { unfold page_step. rewrite Hm, Hd. unfold createRoom, fetch. simpl.
    by rewrite !(proj1 (set_state_manager _ _ _)). }
  split; [done|].
  unfold p', page_run. cbn [fold_left]. rewrite fold_left_app. cbn [fold_left].
  fold (page_run (page_step p Submit) l).
  pose proof (calls_run (length (calls p)) _ l (page_step p Submit)
                ltac:(rewrite Hsub; apply lookup_snoc) Hl) as Hc.
  set (q := page_run (page_step p Submit) l) in *. clearbody q.
  unfold page_step. rewrite (settle_unsettled _ _ q _ Hc) by done. simpl.
  by destruct (createRoom_succeeded_fields (instance p) (rooms s) newRoom
                 (set_calls (<[length (calls p) :=
                    mkCall (PostRoom (roomName s) (language s)) (instance p) (rooms s) true]>
                    (calls q)) q)) as (_ & _ & ? & ?).
Qed.

Lemma created_room_is_entered_witness :
  let p' := page_run two_rooms
              (TypeName "den" :: Submit ::
               [ClickJoin 0] ++ [Settle 1 (Created (mkRoom "c3" "den" "python" "2025-01-03"))]) in
  p'.(currentRoom) = Some (mkRoom "c3" "den" "python" "2025-01-03") ∧ p'.(manager) = None.
Proof.
  exact (proj2 (created_room_is_entered (page_step two_rooms (TypeName "den"))
                  (mkState [room_a; room_b] "den" "python" false "") [ClickJoin 0]
                  (mkRoom "c3" "den" "python" "2025-01-03") eq_refl eq_refl eq_refl)).
Defined.

End Lobby.
